(** * isbg: the scan-classify-act pipeline and its seen-uid tracking

    A shallow embedding of [isbg/util.py], [isbg/imap.py] and the core of
    [isbg/isbg.py] ([errorexit], [hexof], [dehexof], [crnlify],
    [ISBG.set_learning_opts], [ISBG.getpw], [ISBG.setpw], [ISBG.parse_args],
    [ISBG.pastuid_read], [ISBG.pastuid_write], [ISBG.spamassassin] and
    [ISBG.spamlearn]).

    The code is Python 3, whatever the interpreter line of the script says:
    it decodes what imaplib and the processes hand back, indexes the password
    hash as integers and imports [enum].  Message bodies, uids and process
    output are all [string] here, whether Python has them as [bytes] or as
    [str]; where the code gives [bytes] to an operation that takes [str] only,
    the model raises the TypeError that Python raises there.

    Effects are explicit.  A computation takes the [world] (the track files
    on disk and the history of everything said to the IMAP server, to the
    spawned classifier processes and to the log) and ends by returning a
    value, by raising a Python exception or by [sys.exit].  The IMAP server
    and the spawned processes are oracles: their answer is an arbitrary
    function of the history so far. *)

From stdpp Require Import gmap strings list pretty.
From Stdlib Require Import Ascii QArith.

Open Scope string_scope.
Open Scope Z_scope.

(** ** Python values *)

(** The exceptions the modelled code can raise. *)
Inductive exn :=
| TypeError | NameError | AttributeError | IndexError | KeyError
| ValueError | OSError | ISBGError | ISBGImapError
| IMAP4Error (* imaplib.IMAP4.error and its subclass abort *).

(** How a call ends: a value, an exception, or [sys.exit(code)]. *)
Inductive outcome (A : Type) :=
| Ret (a : A)
| Raise (e : exn)
| SysExit (code : Z).
Arguments Ret {A} a.
Arguments Raise {A} e.
Arguments SysExit {A} code.

(** Hashable values that survive a JSON round trip unchanged.  JSON floats
    and booleans are left out: [pastuid_write] dumps an [int] uidvalidity and
    the uids only. *)
Inductive atom :=
| ANone
| AInt (z : Z)
| AStr (s : string).

(** What [json.load] can return. A dict is an association list read by its
    first matching key. *)
#[warnings="-register-all"]
Inductive pyval :=
| PAtom (a : atom)
| PList (l : list pyval)
| PDict (d : list (string * pyval)).

(** A file on disk, as [json.load] sees it. *)
Inductive file :=
| Unparsable
| Json (v : pyval).

(** One element of the data list of an imaplib response: [None], a string,
    or a tuple of strings. *)
Inductive item :=
| INone
| IStr (s : string)
| ITuple (l : list string).

(** An imaplib response [(typ, data)]. *)
Definition response : Type := string * list item.

(** What spawning a process and talking to it gives: [Popen] raises, or
    [communicate]/[decode] raises, or the process ends with its output. *)
Inductive proc_result :=
| SpawnError
| CommError
| Exited (stdout : string) (returncode : Z).

(** The second argument of [ISBGImap.store]: a string or a list of flags. *)
Inductive flagsarg :=
| FlagStr (s : string)
| FlagList (l : list string).

(** ** The world *)

Inductive event :=
| ImapSelect (mailbox : string) (readonly : bool)
| ImapStatus (mailbox : string)
| ImapSearch (criterion : string) (args : list string)
| ImapFetch (uid : string)
| ImapAppend (mailbox : string) (flags : option string) (message : string)
| ImapCopy (uid mailbox : string)
| ImapStore (uid command flags : string)
| ImapExpunge
| Spawn (cmd : list string) (input : string)
| LogInfo (msg : string)
| LogWarning (msg : string)
| LogException (msg : string)
| Stderr (msg : string).

Record world := World {
  fs : gmap string file;
  trace : list event
}.

(** The IMAP server and the external processes.  Each answers the last
    event of the history it is given. *)
Record peers := Peers {
  imap_server : list event → response;
  run_process : list event → proc_result
}.

(** A Python float: a finite one is represented by the rational it
    denotes. *)
Inductive pyfloat :=
| Finite (q : Q)
| PlusInf
| MinusInf
| NaN.

(** Python builtins and library calls the code relies on, and the
    [sa_unwrap] module, which is not among the sources.  [py_float] is
    [float(s)], which also reads texts such as [nan] and [inf]. [set_iter]
    is the order in which [list(set(l))] enumerates: Python leaves it
    unspecified, so it is any duplicate-free enumeration. *)
Record pylib := PyLib {
  py_float : string → option pyfloat;
  py_int : string → option Z;
  py_repr : string → string;
  py_repr_int : Z → string;
  py_repr_float : pyfloat → string;
  re_score : string → option (string * string);
  re_uidvalidity : string → option Z;
  unwrap : string → option (list string);
  set_iter : list atom → list atom;
  set_iter_elem : ∀ l x, x ∈ set_iter l ↔ x ∈ l;
  set_iter_nodup : ∀ l, NoDup (set_iter l)
}.

(** ** The effect monad *)

Definition M (A : Type) : Type := world → outcome A * world.

Definition ret {A} (a : A) : M A := λ w, (Ret a, w).

Definition raise {A} (e : exn) : M A := λ w, (Raise e, w).

Definition sys_exit {A} (code : Z) : M A := λ w, (SysExit code, w).

Definition bind {A B} (m : M A) (k : A → M B) : M B :=
  λ w, match m w with
       | (Ret a, w') => k a w'
       | (Raise e, w') => (Raise e, w')
       | (SysExit c, w') => (SysExit c, w')
       end.

Notation "x <-- m ;; k" := (bind m (λ x, k))
  (at level 100, m at next level, right associativity).
Notation "m ;;; k" := (bind m (λ _, k))
  (at level 100, right associativity).

(** A bare [except:] clause: it catches every exception and [SystemExit]. *)
Definition try_except {A} (m : M A) (handler : M A) : M A :=
  λ w, match m w with
       | (Ret a, w') => (Ret a, w')
       | (_, w') => handler w'
       end.

(** [except ISBGImapError:] catches that exception only. *)
Definition try_except_imap {A} (m : M A) (handler : M A) : M A :=
  λ w, match m w with
       | (Raise ISBGImapError, w') => handler w'
       | r => r
       end.

Definition emit (e : event) : M unit :=
  λ w, (Ret tt, World (fs w) (trace w ++ [e])).

Definition read_file (path : string) : M (option file) :=
  λ w, (Ret (fs w !! path), w).

Definition write_file (path : string) (f : file) : M unit :=
  λ w, (Ret tt, World (<[path := f]> (fs w)) (trace w)).

(** Send a command to the IMAP server through imaplib and take its answer.
    imaplib returns the completions OK and NO as they are. Anything else the
    server does makes imaplib raise: [IMAP4.error] on a BAD completion,
    [IMAP4.abort] on a BYE or a broken connection. *)
Definition imap_call (P : peers) (e : event) : M response :=
  λ w, let w' := World (fs w) (trace w ++ [e]) in
       let res := imap_server P (trace w') in
       (if String.eqb res.1 "OK" || String.eqb res.1 "NO"
        then Ret res else Raise IMAP4Error, w').

(** [Popen(cmd, ...)] followed by [communicate(input)]. *)
Definition popen (P : peers) (cmd : list string) (input : string) : M proc_result :=
  λ w, let w' := World (fs w) (trace w ++ [Spawn cmd input]) in
       (Ret (run_process P (trace w')), w').

(** The uids of the FETCH commands of a history, in order. *)
Definition fetches (history : list event) : list string :=
  omap (λ e, match e with ImapFetch uid => Some uid | _ => None end) history.

(** ** Strings *)

(** [needle in hay] on two strings. *)
Fixpoint py_str_in (needle hay : string) : bool :=
  String.prefix needle hay ||
  match hay with
  | EmptyString => false
  | String _ hay' => py_str_in needle hay'
  end.

Definition is_space (c : ascii) : bool :=
  match c with
  | " "%char | "009"%char | "010"%char | "011"%char | "012"%char | "013"%char => true
  | _ => false
  end.

(** [s.split()]: the maximal runs of non-whitespace of [s]. [cur] is the run
    being read. *)
Fixpoint py_split_go (cur s : string) : list string :=
  match s with
  | EmptyString => if String.eqb cur "" then [] else [cur]
  | String c s' =>
      if is_space c
      then (if String.eqb cur "" then py_split_go "" s' else cur :: py_split_go "" s')
      else py_split_go (cur ++ String c "") s'
  end.

Definition py_split (s : string) : list string := py_split_go "" s.

(** [s.split('/')[0]]: the part of [s] before its first slash. *)
Fixpoint before_slash (s : string) : string :=
  match s with
  | EmptyString => EmptyString
  | String c s' => if Ascii.eqb c "/"%char then EmptyString else String c (before_slash s')
  end.

(** The first [n] characters of [s]. *)
Fixpoint str_take (n : nat) (s : string) : string :=
  match n, s with
  | S n', String c s' => String c (str_take n' s')
  | _, _ => EmptyString
  end.

(** [s[:n]]: a negative [n] counts from the end. *)
Definition py_str_slice_to (n : Z) (s : string) : string :=
  if 0 <=? n then str_take (Z.to_nat n) s
  else str_take (String.length s - Z.to_nat (- n)) s.

(** [l[:n]]: a negative [n] counts from the end. *)
Definition py_slice_to {A} (n : Z) (l : list A) : list A :=
  if 0 <=? n then take (Z.to_nat n) l
  else take (length l - Z.to_nat (- n)) l.

(** ** isbg/util.py *)

Section Util.
Context (L : pylib).

Definition truncate (inp : string) (length : Z) : string :=
  if length <? Z.of_nat (String.length inp)
  then py_str_slice_to (length - 3) (py_repr L inp) ++ "..."
  else inp.

(** [shorten] on one element of a response: [len(None)] is a TypeError,
    here [None]. *)
Definition shorten_item (x : item) (length : Z) : option item :=
  match x with
  | INone => None
  | IStr s => Some (IStr (truncate s length))
  | ITuple l => Some (ITuple ((λ s, truncate s length) <$> l))
  end.

(** [shorten] on a response tuple. *)
Definition shorten (res : response) (length : Z) : option response :=
  match mapM (λ x, shorten_item x length) res.2 with
  | Some data => Some (truncate res.1 length, data)
  | None => None
  end.

End Util.

(** ** isbg/imap.py: class ISBGImap *)

Module ISBGImap.
Section Code.
Context (L : pylib) (P : peers).

(** The [else] branch names [flaglist], which is bound nowhere. *)
Definition _imapflags (flags : flagsarg) : M string :=
  match flags with
  | FlagStr s => ret s
  | FlagList _ => raise NameError
  end.

(** [args0] is the first of the extra arguments. *)
Definition _assertok (res : response) (args0 : string) : M unit :=
  res <-- (if py_str_in "fetch" args0
           then match shorten L res 100 with
                | Some r => ret r
                | None => raise TypeError
                end
           else ret res) ;;
  if String.eqb res.1 "OK" then ret tt else raise ISBGImapError.

(** What [res[1][0][1]] is: the second member of a tuple, or, when the
    first item of the data is a bare [bytes], its second byte, an [int]. *)
Inductive fetched :=
| Literal (body : string)
| Octet (c : ascii).

(** [res[1][0][1]]; [None] when Python raises. *)
Definition fetch_body (res : response) : option fetched :=
  match res.2 with
  | [] => None
  | INone :: _ => None
  | IStr s :: _ =>
      match s with
      | String _ (String c _) => Some (Octet c)
      | _ => None
      end
  | ITuple l :: _ => Literal <$> l !! 1%nat
  end.

(** The handler calls [self.exception], an attribute the class does not
    have.  An [int] taken out of a bare [bytes] is returned as it is, and
    both callers then raise TypeError on it at once, in [BytesIO(body)]
    (isbg.py:485 and 641): that TypeError is raised here, so that a body is
    always a [string]. *)
Definition getmessage (uid : string) : M string :=
  res <-- imap_call P (ImapFetch uid) ;;
  _assertok res "uid fetch" ;;;
  match fetch_body res with
  | Some (Literal body) => ret body
  | Some (Octet _) => raise TypeError
  | None => raise AttributeError
  end.

Definition get_uidvalidity (mailbox : string) : M Z :=
  mbstatus <-- imap_call P (ImapStatus mailbox) ;;
  _assertok mbstatus "status (uidvalidity)" ;;;
  match mbstatus.2 with
  | [] => raise IndexError
  | IStr body :: _ =>
      match re_uidvalidity L body with
      | Some v => ret v
      | None => ret 0
      end
  | _ :: _ => raise AttributeError
  end.

Definition select (mailbox : string) (readonly : bool) : M response :=
  res <-- imap_call P (ImapSelect mailbox readonly) ;;
  _assertok res "select" ;;;
  ret res.

Definition append (mailbox : string) (flags : option flagsarg) (message : string) : M unit :=
  flags <-- match flags with
            | Some f => (s <-- _imapflags f ;; ret (Some s))
            | None => ret None
            end ;;
  res <-- imap_call P (ImapAppend mailbox flags message) ;;
  _assertok res "append".

Definition copy (uid mailbox : string) : M response :=
  res <-- imap_call P (ImapCopy uid mailbox) ;;
  _assertok res "uid copy" ;;;
  ret res.

Definition store (uid command : string) (flags : flagsarg) : M response :=
  flags <-- _imapflags flags ;;
  res <-- imap_call P (ImapStore uid command flags) ;;
  _assertok res "uid copy" ;;;
  ret res.

Definition search (criterion : string) (args : list string) : M response :=
  imap_call P (ImapSearch criterion args).

Definition expunge : M response :=
  res <-- imap_call P ImapExpunge ;;
  _assertok res "expunge" ;;;
  ret res.

End Code.
End ISBGImap.

(** ** isbg/isbg.py *)

Section Errorexit.
Context {A : Type}.

Definition errorexit (msg : string) (exitcode : Z) : M A :=
  emit (Stderr msg) ;;;
  emit (Stderr "
Use --help to see valid options and arguments
") ;;;
  if exitcode =? -1 then raise ISBGError else sys_exit exitcode.

End Errorexit.

(** One pass of [re.sub("([^\r])\n", "\\1\r\n", text)]: matches do not
    overlap and are taken from the left. *)
Fixpoint crnl_sub (text : string) : string :=
  match text with
  | EmptyString => EmptyString
  | String c rest =>
      match rest with
      | String n rest' =>
          if negb (Ascii.eqb c "013"%char) && Ascii.eqb n "010"%char
          then String c (String "013"%char (String "010"%char (crnl_sub rest')))
          else String c (crnl_sub rest)
      | EmptyString => String c EmptyString
      end
  end.

Definition crnlify (text : string) : string := crnl_sub (crnl_sub text).

(** *** The password file encoding

    [hexof], [hexdigit] and [dehexof] turn the obfuscated password into hex
    text and back. A text handed to [ord] is a sequence of code points; the
    hex text itself is a [string]. *)

(** The hex digit of a value below sixteen, as ["%x"] prints it. *)
Definition hexchar (d : N) : ascii :=
  match d with
  | 0%N => "0" | 1%N => "1" | 2%N => "2" | 3%N => "3" | 4%N => "4" | 5%N => "5"
  | 6%N => "6" | 7%N => "7" | 8%N => "8" | 9%N => "9" | 10%N => "a" | 11%N => "b"
  | 12%N => "c" | 13%N => "d" | 14%N => "e" | _ => "f"
  end%char.

(** The hex digits of [n] put before [acc]; [fuel] bounds their number. *)
Fixpoint hex_go (fuel : nat) (n : N) (acc : string) : string :=
  match fuel with
  | O => acc
  | S fuel' =>
      if (n =? 0)%N then acc
      else hex_go fuel' (n / 16)%N (String (hexchar (n mod 16)%N) acc)
  end.

(** ["%02x" % n]: lower-case hex, padded with zeros to two digits. *)
Definition format_02x (n : N) : string :=
  let digits := hex_go (N.size_nat n) n EmptyString in
  match digits with
  | EmptyString => "00"
  | String d EmptyString => String "0"%char (String d EmptyString)
  | _ => digits
  end.

Fixpoint hexof (x : list N) : string :=
  match x with
  | [] => EmptyString
  | i :: x' => format_02x i ++ hexof x'
  end.

(** [ValueError] for a character that is no hex digit. *)
Definition hexdigit (c : ascii) : outcome N :=
  let n := N_of_ascii c in
  if (48 <=? n)%N && (n <=? 57)%N then Ret (n - 48)%N
  else if (97 <=? n)%N && (n <=? 102)%N then Ret (10 + n - 97)%N
  else if (65 <=? n)%N && (n <=? 70)%N then Ret (10 + n - 65)%N
  else Raise ValueError.

(** Two characters at a time; [x[1]] on a last single character is an
    IndexError, after [hexdigit(x[0])] has been tried. *)
Fixpoint dehexof (x : string) : outcome (list N) :=
  match x with
  | EmptyString => Ret []
  | String a x' =>
      match hexdigit a with
      | Ret high =>
          match x' with
          | EmptyString => Raise IndexError
          | String b rest =>
              match hexdigit b with
              | Ret low =>
                  match dehexof rest with
                  | Ret res => Ret ((16 * high + low)%N :: res)
                  | Raise e => Raise e
                  | SysExit c => SysExit c
                  end
              | Raise e => Raise e
              | SysExit c => SysExit c
              end
          end
      | Raise e => Raise e
      | SysExit c => SysExit c
      end
  end.

(** The one-character string ["\n"]. *)
Definition nl : string := String "010"%char EmptyString.

(** [x > y] on rationals. *)
Definition Qgtb (x y : Q) : bool := negb (Qle_bool x y).

(** [x < y] on floats: NaN compares false with everything. *)
Definition float_lt (x y : pyfloat) : bool :=
  match x, y with
  | NaN, _ | _, NaN => false
  | Finite a, Finite b => Qgtb b a
  | MinusInf, MinusInf => false
  | MinusInf, _ => true
  | _, MinusInf => false
  | PlusInf, _ => false
  | Finite _, PlusInf => true
  end.

(** [x > y] on floats. *)
Definition float_gt (x y : pyfloat) : bool := float_lt y x.

(** [x == y] on floats: NaN equals nothing, not even itself. *)
Definition float_eq (x y : pyfloat) : bool :=
  match x, y with
  | Finite a, Finite b => Qeq_bool a b
  | PlusInf, PlusInf | MinusInf, MinusInf => true
  | _, _ => false
  end.

Module ISBG.

Definition exitcodeok : Z := 0.
Definition exitcodenewmsgs : Z := 1.
Definition exitcodenewspam : Z := 2.
Definition exitcodenewmsgspam : Z := 3.
Definition exitcodeflags : Z := 10.
Definition exitcodeimap : Z := 11.
Definition exitcodespamc : Z := 12.
Definition exitcodetty : Z := 20.
Definition exitcodelocked : Z := 30.

(** The attributes of an [ISBG] object that the modelled methods read or
    write.  Those of the connection, the lock file, the password file and the
    statistics are not part of it.  [partialrun] is [False] or an [int]:
    [False] is [0]. *)
Record isbg := Isbg {
  imapinbox : string;
  spaminbox : string;
  learnspambox : option string;
  learnhambox : option string;
  noreport : bool;
  dryrun : bool;
  maxsize : Z;
  teachonly : bool;
  spamc : bool;
  gmail : bool;
  pastuidsfile : option string;
  partialrun : Z;
  movehamto : option string;
  delete : bool;
  deletehigherthan : option pyfloat;
  flag : bool;
  expunge : bool;
  learnflagged : bool;
  learnunflagged : bool;
  learnthendestroy : bool;
  learnthenflag : bool;
  satest : list string;
  sasave : list string;
  spamflagscmd : string;
  spamflags : list string
}.

(** The object [__init__] builds. *)
Definition init : isbg := {|
  imapinbox := "INBOX";
  spaminbox := "INBOX.spam";
  learnspambox := None;
  learnhambox := None;
  noreport := false;
  dryrun := false;
  maxsize := 120000;
  teachonly := false;
  spamc := false;
  gmail := false;
  pastuidsfile := None;
  partialrun := 0;
  movehamto := None;
  delete := false;
  deletehigherthan := None;
  flag := false;
  expunge := false;
  learnflagged := false;
  learnunflagged := false;
  learnthendestroy := false;
  learnthenflag := false;
  satest := ["spamassassin"; "--exit-code"];
  sasave := ["spamassassin"];
  spamflagscmd := "+FLAGS.SILENT";
  spamflags := []
|}.

Definition set_learning_opts (self : isbg)
    (learnflagged learnunflagged learnthendestroy learnthenflag : bool) : M isbg :=
  if learnflagged && learnunflagged then raise ValueError
  else ret (Isbg (imapinbox self) (spaminbox self) (learnspambox self)
              (learnhambox self) (noreport self) (dryrun self) (maxsize self)
              (teachonly self) (spamc self) (gmail self) (pastuidsfile self)
              (partialrun self) (movehamto self) (delete self)
              (deletehigherthan self) (flag self) (expunge self)
              learnflagged learnunflagged learnthendestroy learnthenflag
              (satest self) (sasave self) (spamflagscmd self) (spamflags self)).

(** What [docopt] returns for the usage text, once the entries that are
    [None] are dropped: a switch is a [bool], an option with an argument is
    its string when given. Only the options behind [isbg]'s fields appear.
    The call itself ends as an [outcome opts]: it returns the options, it
    raises, or it leaves through [SystemExit] (its answer to [--help], to
    [--version] and to a command line that does not fit the usage). *)
Record opts := Opts {
  o_deletehigherthan : option string;
  o_flag : bool;
  o_imapinbox : option string;
  o_learnspambox : option string;
  o_learnhambox : option string;
  o_dryrun : bool;
  o_delete : bool;
  o_gmail : bool;
  o_maxsize : option string;
  o_movehamto : option string;
  o_noreport : bool;
  o_spaminbox : option string;
  o_trackfile : option string;
  o_partialrun : option string;
  o_learnunflagged : bool;
  o_learnflagged : bool;
  o_learnthendestroy : bool;
  o_learnthenflag : bool;
  o_expunge : bool;
  o_teachonly : bool;
  o_spamc : bool
}.

(** A dict read at a key. *)
Fixpoint dict_get (d : list (string * pyval)) (key : string) : option pyval :=
  match d with
  | [] => None
  | (k, v) :: d' => if String.eqb k key then Some v else dict_get d' key
  end.

(** [c[key]] for a string key. *)
Definition py_getitem (c : pyval) (key : string) : M pyval :=
  match c with
  | PDict d =>
      match dict_get d key with
      | Some v => ret v
      | None => raise KeyError
      end
  | _ => raise TypeError
  end.

(** [v == n] for an [int] [n]. *)
Definition py_eq_int (v : pyval) (n : Z) : bool :=
  match v with
  | PAtom (AInt z) => z =? n
  | _ => false
  end.

(** [v == u] for a string [u]. *)
Definition py_eq_str (v : pyval) (u : string) : bool :=
  match v with
  | PAtom (AStr s) => String.eqb s u
  | _ => false
  end.

(** [u in c] for a string [u]; [None] is Python's TypeError. *)
Definition py_contains (c : pyval) (u : string) : option bool :=
  match c with
  | PList l => Some (existsb (λ v, py_eq_str v u) l)
  | PDict d => Some (existsb (λ kv, String.eqb kv.1 u) d)
  | PAtom (AStr s) => Some (py_str_in u s)
  | PAtom _ => None
  end.

(** [len(c)]. *)
Definition py_len (c : pyval) : M Z :=
  match c with
  | PList l => ret (Z.of_nat (length l))
  | PDict d => ret (Z.of_nat (length d))
  | PAtom (AStr s) => ret (Z.of_nat (String.length s))
  | PAtom _ => raise TypeError
  end.

(** [a + c] for a list [a]. *)
Definition py_list_add (a : list pyval) (c : pyval) : M (list pyval) :=
  match c with
  | PList l => ret (a ++ l)%list
  | _ => raise TypeError
  end.

(** The elements of a list as set members; lists and dicts are unhashable. *)
Definition hashable (v : pyval) : option atom :=
  match v with
  | PAtom a => Some a
  | _ => None
  end.

Definition pystr (u : string) : pyval := PAtom (AStr u).

(** [[u for u in inboxuids if u not in origpastuids]] *)
Fixpoint unseen (inboxuids : list string) (origpastuids : pyval) : M (list string) :=
  match inboxuids with
  | [] => ret []
  | u :: rest =>
      match py_contains origpastuids u with
      | None => raise TypeError
      | Some seen =>
          uids <-- unseen rest origpastuids ;;
          ret (if seen then uids else u :: uids)
      end
  end.

(** The state of the main loop of [spamassassin]. [processednum] is only
    bound and read in a dry run. *)
Record loopst := LoopSt {
  newpastuids : list string;
  spamlist : list string;
  spamdeletelist : list string;
  processednum : Z
}.

(** How the classification step of an iteration leaves it: on to the
    decision with a score and an exit code, [continue], or [break]. *)
Inductive flow :=
| Scored (score : string) (code : Z) (st : loopst)
| Continue
| Break.

Fixpoint for_each {A} (l : list A) (f : A → M unit) : M unit :=
  match l with
  | [] => ret tt
  | x :: l' => f x ;;; for_each l' f
  end.

Section Methods.
Context (L : pylib) (P : peers).

(** [docopt] is how the call [docopt(__doc__, ...)] ends on the command
    line at hand.  [except Exception] catches what it raises, not its
    [SystemExit]. *)
Definition parse_args (self : isbg) (docopt : outcome opts) : M isbg :=
  o <-- match docopt with
        | Ret o => ret o
        | Raise _ => errorexit "Option processing failed - {}" exitcodeflags
        | SysExit code => sys_exit code
        end ;;
  deletehigherthan' <--
    match o_deletehigherthan o with
    | Some s =>
        match py_float L s with
        | None => errorexit ("Unrecognized score - " ++ s) exitcodeflags
        | Some x =>
            if float_lt x (Finite 1)
            then errorexit ("Score " ++ py_repr_float L x ++ " is too small") exitcodeflags
            else ret (Some x)
        end
    | None => ret None
    end ;;
  let spamflags' :=
    if o_flag o then (spamflags self ++ ["\Flagged"])%list else spamflags self in
  maxsize' <--
    match o_maxsize o with
    | Some s =>
        match py_int L s with
        | None => errorexit ("Unrecognised size - " ++ s) exitcodeflags
        | Some n =>
            if n <? 1
            then errorexit ("Size " ++ py_repr_int L n ++ " is too small") exitcodeflags
            else ret n
        end
    | None => ret (maxsize self)
    end ;;
  partialrun' <--
    match o_partialrun o with
    | Some s =>
        match py_int L s with
        | None => raise ValueError
        | Some n =>
            if n <? 1
            then errorexit "Partial run number must be equal to 1 or higher" exitcodeflags
            else ret n
        end
    | None => ret (partialrun self)
    end ;;
  ret {|
    imapinbox := default (imapinbox self) (o_imapinbox o);
    spaminbox := default (spaminbox self) (o_spaminbox o);
    learnspambox := o_learnspambox o;
    learnhambox := o_learnhambox o;
    noreport := o_noreport o;
    dryrun := o_dryrun o;
    maxsize := maxsize';
    teachonly := o_teachonly o;
    spamc := o_spamc o;
    gmail := o_gmail o;
    pastuidsfile :=
      match o_trackfile o with Some f => Some f | None => pastuidsfile self end;
    partialrun := partialrun';
    movehamto := o_movehamto o;
    delete := o_delete o;
    deletehigherthan := deletehigherthan';
    flag := flag self;
    expunge := o_expunge o;
    learnflagged := o_learnflagged o;
    learnunflagged := o_learnunflagged o;
    learnthendestroy := o_learnthendestroy o;
    learnthenflag := o_learnthenflag o;
    satest := satest self;
    sasave := sasave self;
    spamflagscmd := spamflagscmd self;
    spamflags := spamflags'
  |}.

(** The whole body sits in [try: ... except: pass], and [pastuids] is only
    assigned once everything before went through. *)
Definition pastuid_read (self : isbg) (uidvalidity : Z) (folder : string) : M pyval :=
  try_except
    (match pastuidsfile self with
     | None => raise TypeError
     | Some name =>
         f <-- read_file (name ++ folder) ;;
         match f with
         | None => raise OSError
         | Some Unparsable => raise ValueError
         | Some (Json struct) =>
             v <-- py_getitem struct "uidvalidity" ;;
             if py_eq_int v uidvalidity
             then py_getitem struct "uids"
             else ret (PList [])
         end
     end)
    (ret (PList [])).

(** [open(..., "w+")] empties the file at once; the dump comes last. *)
Definition pastuid_write (self : isbg) (uidvalidity : Z) (origpastuids : pyval)
    (newpastuids : list pyval) (folder : string) : M unit :=
  match pastuidsfile self with
  | None => raise TypeError
  | Some name =>
      write_file (name ++ folder) Unparsable ;;;
      py_len origpastuids ;;;
      all <-- py_list_add newpastuids origpastuids ;;
      match mapM hashable all with
      | None => raise TypeError
      | Some members =>
          let struct := PDict [("uidvalidity", PAtom (AInt uidvalidity));
                               ("uids", PList (PAtom <$> set_iter L members))] in
          write_file (name ++ folder) (Json struct)
      end
  end.

Definition fakespammax : Z := 1.
Definition processmax : Z := 5.

(** The score read from the output of the test process: the output itself
    with [spamc], else the two groups of the match of
    [score=(-?\d+(?:\.\d+)?) required=(\d+(?:\.\d+)?)]; without a match
    [m.group] raises inside the [try]. *)
Definition read_score (self : isbg) (out : string) : option string :=
  if spamc self then Some out
  else
    match re_score L out with
    | Some (g1, g2) => Some (g1 ++ "/" ++ g2 ++ nl)
    | None => None
    end.

(** The classification step of one iteration: the faked verdict of a dry
    run, or the test process and the reading of its score. *)
Definition classify (self : isbg) (body : string) (st : loopst) : M flow :=
  if dryrun self then
    if processmax <? processednum st then ret Break
    else
      let st' := LoopSt (newpastuids st) (spamlist st) (spamdeletelist st)
                   (processednum st + 1) in
      if processednum st <? fakespammax
      then emit (LogInfo "Faking spam mail") ;;; ret (Scored "10/10" 1 st')
      else emit (LogInfo "Faking ham mail") ;;; ret (Scored "0/10" 0 st')
  else
    r <-- popen P (satest self) body ;;
    match r with
    | SpawnError => raise OSError
    | CommError =>
        emit (LogException "Error communicating with {}!") ;;; ret Continue
    | Exited out code =>
        match read_score self out with
        | Some score => ret (Scored score code st)
        | None =>
            emit (LogException "Error communicating with {}!") ;;; ret Continue
        end
    end.

(** [crnlify(body)] where [body] is what [communicate] returned, which is
    [bytes]: the pattern of [crnlify] is a [str] pattern, and [re.sub] raises
    TypeError for a [bytes] subject, whatever its content. *)
Definition crnlify_bytes (text : string) : M string := raise TypeError.

(** Moving a spam to the spam folder, with or without the report. *)
Definition report (self : isbg) (u body : string) (st : loopst) : M loopst :=
  let listed := LoopSt (newpastuids st) (spamlist st ++ [u])
                  (spamdeletelist st) (processednum st) in
  if negb (noreport self) then
    if dryrun self then
      emit (LogInfo "Skipping report because of --dryrun") ;;; ret listed
    else
      r <-- popen P (sasave self) body ;;
      match r with
      | SpawnError => raise OSError
      | CommError =>
          emit (LogException "Error communicating with {}!") ;;; ret st
      | Exited out _ =>
          body <-- crnlify_bytes out ;;
          try_except_imap
            (ISBGImap.append L P (spaminbox self) None body ;;; ret listed)
            (emit (LogException "IMAP append fail. Ignoring this message.") ;;;
             ret st)
      end
  else
    if dryrun self then
      emit (LogInfo "Skipping copy to spambox because of --dryrun") ;;; ret listed
    else
      ISBGImap.copy L P u (spaminbox self) ;;; ret listed.

(** What an iteration does with the score and the exit code. *)
Definition act (self : isbg) (u body score : string) (code : Z) (st : loopst)
    : M loopst :=
  (if String.eqb score ("0/0" ++ nl)
   then errorexit "spamc -> spamd error - aborting" exitcodespamc
   else ret tt) ;;;
  if code =? 0 then ret st
  else
    above <--
      match deletehigherthan self with
      | None => ret false
      | Some threshold =>
          match py_float L (before_slash score) with
          | None => raise ValueError
          | Some x => ret (float_gt x threshold)
          end
      end ;;
    if (above : bool)
    then ret (LoopSt (newpastuids st) (spamlist st) (spamdeletelist st ++ [u])
                (processednum st))
    else report self u body st.

(** One iteration of the main loop; the flag says [break]. *)
Definition loop_body (self : isbg) (u : string) (st : loopst) : M (bool * loopst) :=
  body <-- ISBGImap.getmessage L P u ;;
  let st := LoopSt (newpastuids st ++ [u]) (spamlist st) (spamdeletelist st)
              (processednum st) in
  let body := match unwrap L body with
              | Some (first :: _) => first
              | _ => body
              end in
  f <-- classify self body st ;;
  match f with
  | Break => ret (true, st)
  | Continue => ret (false, st)
  | Scored score code st' =>
      st'' <-- act self u body score code st' ;; ret (false, st'')
  end.

Fixpoint loop (self : isbg) (uids : list string) (st : loopst) : M loopst :=
  match uids with
  | [] => ret st
  | u :: rest =>
      r <-- loop_body self u st ;;
      if (r.1 : bool) then ret r.2 else loop self rest r.2
  end.

(** Everything before the main loop: the folders, the folder identity, the
    search, the seen uids and the filter. *)
Definition candidates (self : isbg) : M (Z * list string * pyval * list string) :=
  try_except_imap
    (ISBGImap.select L P (spaminbox self) true)
    (emit (LogException "Could not select spam inbox, aborting SA processing.") ;;;
     raise ISBGImapError) ;;;
  ISBGImap.select L P (imapinbox self) true ;;;
  uidvalidity <-- ISBGImap.get_uidvalidity L P (imapinbox self) ;;
  res <-- ISBGImap.search P "SMALLER" [pretty (maxsize self)] ;;
  inboxuids <-- match res.2 with
                | [] => raise IndexError
                | IStr s :: _ => ret (py_split s)
                | _ :: _ => raise AttributeError
                end ;;
  origpastuids <-- pastuid_read self uidvalidity "inbox" ;;
  uids <-- unseen inboxuids origpastuids ;;
  let uids := if negb (partialrun self =? 0)
              then py_slice_to (partialrun self) uids
              else uids in
  ret (uidvalidity, inboxuids, origpastuids, uids).

(** Marking the originals once the seen uids are written. The call for the
    delete list passes four arguments to [store], which takes three: Python
    raises TypeError at the call. The uids the flag loop appends to
    [newpastuids] are never read again. *)
Definition mark (self : isbg) (st : loopst) (numspam spamdeleted : Z) : M unit :=
  if negb (numspam =? 0) || negb (spamdeleted =? 0) then
    if dryrun self then
      emit (LogInfo "Skipping labelling/expunging of mails because of --dryrun")
    else
      ISBGImap.select L P (imapinbox self) true ;;;
      (if 0 <? Z.of_nat (length (spamflags self))
       then for_each (spamlist st) (λ u,
              ISBGImap.store L P u (spamflagscmd self) (FlagList (spamflags self)) ;;;
              ret tt)
       else ret tt) ;;;
      (if delete self && gmail self
       then for_each (spamlist st) (λ u,
              ISBGImap.copy L P u "[Gmail]/Trash" ;;; ret tt)
       else ret tt) ;;;
      for_each (spamdeletelist st) (λ u,
        if gmail self
        then ISBGImap.copy L P u "[Gmail]/Trash" ;;; ret tt
        else raise TypeError) ;;;
      (if expunge self then ISBGImap.expunge L P ;;; ret tt else ret tt)
  else ret tt.

(** The run up to and including the write of the seen uids. *)
Definition scan (self : isbg) : M (Z * list string * pyval * list string * loopst) :=
  c <-- candidates self ;;
  let '(uidvalidity, _, origpastuids, uids) := c in
  st <-- loop self uids (LoopSt [] [] [] 0) ;;
  pastuid_write self uidvalidity origpastuids (pystr <$> newpastuids st) "inbox" ;;;
  ret (c, st).

(** Returns [(numspam, nummsg, spamdeleted)]. *)
Definition spamassassin (self : isbg) : M (Z * Z * Z) :=
  r <-- scan self ;;
  let '(_, _, _, uids, st) := r in
  let nummsg := Z.of_nat (length uids) in
  let spamdeleted := Z.of_nat (length (spamdeletelist st)) in
  let numspam := Z.of_nat (length (spamlist st)) + spamdeleted in
  mark self st numspam spamdeleted ;;;
  ret (numspam, nummsg, spamdeleted).

End Methods.

(** *** The password obfuscation: [getpw] and [setpw]

    [hash] is indexed as a sequence of integers and [pw] and [data] as
    text; [passwordhashlen] is the attribute of that name. *)

(** [chr(c)]: a code point up to 0x10FFFF. *)
Definition chr (c : N) : outcome N :=
  if (c <=? 1114111)%N then Ret c else Raise ValueError.

Fixpoint getpw_loop (n : nat) (data hash : list N) : outcome (list N) :=
  match n with
  | O => Ret []
  | S n' =>
      match data, hash with
      | [], _ => Raise IndexError
      | _ :: _, [] => Raise IndexError
      | d :: data', h :: hash' =>
          let c := N.lxor d h in
          if (c =? 0)%N then Ret []
          else
            match chr c with
            | Ret ch =>
                match getpw_loop n' data' hash' with
                | Ret res => Ret (ch :: res)
                | Raise e => Raise e
                | SysExit x => SysExit x
                end
            | Raise e => Raise e
            | SysExit x => SysExit x
            end
      end
  end.

Definition getpw (passwordhashlen : nat) (data hash : list N) : outcome (list N) :=
  getpw_loop passwordhashlen data hash.

(** [[chr(x) for x in res]] *)
Fixpoint chr_all (res : list N) : outcome (list N) :=
  match res with
  | [] => Ret []
  | x :: res' =>
      match chr x with
      | Ret ch =>
          match chr_all res' with
          | Ret l => Ret (ch :: l)
          | Raise e => Raise e
          | SysExit c => SysExit c
          end
      | Raise e => Raise e
      | SysExit c => SysExit c
      end
  end.

(** The loop [res[i] = chr(ord(res[i]) ^ ord(pw[i]))] over the indices of
    [pw]. *)
Fixpoint setpw_loop (pw res : list N) : outcome (list N) :=
  match pw with
  | [] => Ret res
  | p :: pw' =>
      match res with
      | [] => Raise IndexError
      | r :: res' =>
          match chr (N.lxor r p) with
          | Ret ch =>
              match setpw_loop pw' res' with
              | Ret l => Ret (ch :: l)
              | Raise e => Raise e
              | SysExit c => SysExit c
              end
          | Raise e => Raise e
          | SysExit c => SysExit c
          end
      end
  end.

Definition setpw (passwordhashlen : nat) (pw hash : list N) : outcome (list N) :=
  if (passwordhashlen <? length pw)%nat then Raise ValueError
  else
    match chr_all hash with
    | Ret res => setpw_loop pw res
    | Raise e => Raise e
    | SysExit c => SysExit c
    end.

(** *** Teaching: [spamlearn] *)

Definition alreadylearnt : string := "Message was already un/learned".

(** One entry of the list [learns]. *)
Record learntype := LearnType {
  lt_inbox : option string;
  lt_learntype : string;
  lt_moveto : option string
}.

(** The state of the loop over the messages of one learn folder. *)
Record learnst := LearnSt {
  learnt_uids : list Z;
  n_learnt : Z
}.

(** [n in c] for an [int] [n]; [None] is Python's TypeError. The keys of a
    loaded JSON object are strings. *)
Definition py_contains_int (c : pyval) (n : Z) : option bool :=
  match c with
  | PList l => Some (existsb (λ v, py_eq_int v n) l)
  | PDict _ => Some false
  | PAtom _ => None
  end.

Definition pyint (n : Z) : pyval := PAtom (AInt n).

Section Learning.
Context (L : pylib) (P : peers).
(** [out.strip()] on the decoded output of the teaching process. *)
Context (py_strip : string → string).

Definition learns (self : isbg) : list learntype :=
  [ LearnType (learnspambox self) "spam" None;
    LearnType (learnhambox self) "ham" (movehamto self) ].

(** [[u for u in uids if int(u) not in origpastuids]] *)
Fixpoint unlearnt (uids : list string) (origpastuids : pyval) : M (list string) :=
  match uids with
  | [] => ret []
  | u :: rest =>
      match py_int L u with
      | None => raise ValueError
      | Some n =>
          match py_contains_int origpastuids n with
          | None => raise TypeError
          | Some seen =>
              uids' <-- unlearnt rest origpastuids ;;
              ret (if seen then uids' else u :: uids')
          end
      end
  end.

(** The output and exit code of the teaching process, faked in a dry run;
    [None] is the [continue] after a failed exchange. *)
Definition teach (self : isbg) (lt : learntype) (body : string)
    : M (option (string * Z)) :=
  if dryrun self then ret (Some (alreadylearnt, 0))
  else
    r <-- popen P ["spamc"; "--learntype=" ++ lt_learntype lt] body ;;
    match r with
    | SpawnError => raise OSError
    | CommError => emit (LogException "spamc error for mail {}") ;;; ret None
    | Exited out code => ret (Some (out, code))
    end.

(** What becomes of a learnt message. *)
Definition dispose (self : isbg) (lt : learntype) (u : string) : M unit :=
  if negb (dryrun self) then
    if learnthendestroy self then
      if gmail self
      then ISBGImap.copy L P u "[Gmail]/Trash" ;;; ret tt
      else ISBGImap.store L P u (spamflagscmd self) (FlagStr "(\Deleted)") ;;; ret tt
    else
      match lt_moveto lt with
      | Some mailbox => ISBGImap.copy L P u mailbox ;;; ret tt
      | None =>
          if learnthenflag self
          then ISBGImap.store L P u (spamflagscmd self) (FlagStr "(\Flagged)") ;;;
               ret tt
          else ret tt
      end
  else ret tt.

Definition learn_body (self : isbg) (lt : learntype) (u : string) (st : learnst)
    : M learnst :=
  body <-- ISBGImap.getmessage L P u ;;
  let body := match unwrap L body with
              | Some (first :: _) => first
              | _ => body
              end in
  t <-- teach self lt body ;;
  match t with
  | None => ret st
  | Some (out, code) =>
      (if (code =? 69) || (code =? 74)
       then errorexit "spamd is misconfigured (use --allow-tell)" exitcodeflags
       else ret tt) ;;;
      let n := if String.eqb (py_strip out) alreadylearnt
               then n_learnt st else n_learnt st + 1 in
      id <-- match py_int L u with
             | Some id => ret id
             | None => raise ValueError
             end ;;
      dispose self lt u ;;;
      ret (LearnSt (learnt_uids st ++ [id]) n)
  end.

Fixpoint learn_loop (self : isbg) (lt : learntype) (uids : list string)
    (st : learnst) : M learnst :=
  match uids with
  | [] => ret st
  | u :: rest =>
      st' <-- learn_body self lt u st ;;
      learn_loop self lt rest st'
  end.

(** The start of one turn of the loop over [learns], for the folder
    [inbox]: the folder identity, the seen uids, the search and the filter. *)
Definition learn_candidates (self : isbg) (lt : learntype) (inbox : string)
    : M (Z * pyval * list string * list string) :=
  uidvalidity <-- ISBGImap.get_uidvalidity L P inbox ;;
  origpastuids <-- pastuid_read self uidvalidity (lt_learntype lt) ;;
  ISBGImap.select L P inbox true ;;;
  res <-- (if learnunflagged self then ISBGImap.search P "UNFLAGGED" []
           else if learnflagged self then ISBGImap.search P "(FLAGGED)" []
           else ISBGImap.search P "ALL" []) ;;
  found <-- match res.2 with
            | [] => raise IndexError
            | IStr s :: _ => ret (py_split s)
            | _ :: _ => raise AttributeError
            end ;;
  uids <-- unlearnt found origpastuids ;;
  ret (uidvalidity, origpastuids, found, uids).

(** One turn up to and including the write of the seen uids. *)
Definition learn_pass (self : isbg) (lt : learntype) (inbox : string)
    : M (Z * pyval * list string * list string * learnst) :=
  c <-- learn_candidates self lt inbox ;;
  let '(uidvalidity, origpastuids, _, uids) := c in
  st <-- learn_loop self lt uids (LearnSt [] 0) ;;
  pastuid_write L self uidvalidity origpastuids (pyint <$> learnt_uids st)
    (lt_learntype lt) ;;;
  ret (c, st).

(** One turn of the loop over [learns]: the pair [(n_tolearn, n_learnt)] of
    one folder. An unset or empty folder name is skipped. *)
Definition learn_folder (self : isbg) (lt : learntype) : M (Z * Z) :=
  match lt_inbox lt with
  | None => ret (0, 0)
  | Some inbox =>
      if String.eqb inbox "" then ret (0, 0)
      else
        r <-- learn_pass self lt inbox ;;
        let '(_, _, _, uids, st) := r in
        ret (Z.of_nat (length uids), n_learnt st)
  end.

Fixpoint learn_all (self : isbg) (todo : list learntype) : M (list (Z * Z)) :=
  match todo with
  | [] => ret []
  | lt :: todo' =>
      r <-- learn_folder self lt ;;
      result <-- learn_all self todo' ;;
      ret (r :: result)
  end.

Definition spamlearn (self : isbg) : M (list (Z * Z)) :=
  learn_all self (learns self).

End Learning.

End ISBG.

(** ** Vocabulary of the properties *)

(** A computation that sends no FETCH and leaves the disk alone, however it
    ends. *)
Definition quiet {A} (m : M A) : Prop :=
  ∀ w r w', m w = (r, w') → fs w' = fs w ∧ fetches (trace w') = fetches (trace w).

(** A computation that does not touch the world at all. *)
Definition pure {A} (m : M A) : Prop :=
  ∀ w r w', m w = (r, w') → w' = w.

(** The STORE commands of a history. *)
Definition stores (history : list event) : list event :=
  List.filter (λ e, match e with ImapStore _ _ _ => true | _ => false end) history.

(** The warnings logged in a history. *)
Definition warnings (history : list event) : list event :=
  List.filter (λ e, match e with LogWarning _ => true | _ => false end) history.

(** A computation whose every step, however it ends, adds to the history
    only events that [allowed] accepts. *)
Definition emits {A} (allowed : event → bool) (m : M A) : Prop :=
  ∀ w r w', m w = (r, w') →
    ∃ added, trace w' = (trace w ++ added)%list ∧ forallb allowed added = true.

(** The events that change nothing on the server and start no process:
    selecting, asking for the status, searching, fetching, and what goes to
    the log or to stderr. *)
Definition read_only (e : event) : bool :=
  match e with
  | ImapSelect _ _ | ImapStatus _ | ImapSearch _ _ | ImapFetch _
  | LogInfo _ | LogWarning _ | LogException _ | Stderr _ => true
  | ImapAppend _ _ _ | ImapCopy _ _ | ImapStore _ _ _ | ImapExpunge
  | Spawn _ _ => false
  end.

(** A computation that, however it ends, leaves every file alone except
    possibly those [mine] accepts. *)
Definition writes_only {A} (mine : string → Prop) (m : M A) : Prop :=
  ∀ w r w' path, m w = (r, w') → ¬ mine path → fs w' !! path = fs w !! path.

(** The track file of [self] for [folder]. *)
Definition track_file (self : ISBG.isbg) (folder : string) (path : string) : Prop :=
  ∃ name, ISBG.pastuidsfile self = Some name ∧ path = name ++ folder.

(** Every line feed of [text] comes after a carriage return; [after_cr]
    says whether a line feed may come first. *)
Fixpoint no_bare_lf (after_cr : bool) (text : string) : bool :=
  match text with
  | EmptyString => true
  | String c text' =>
      (if Ascii.eqb c "010"%char then after_cr else true)
      && no_bare_lf (Ascii.eqb c "013"%char) text'
  end.

(** A track file as [pastuid_write] leaves it: a JSON object with an
    integer [uidvalidity] and a duplicate-free list of atoms as [uids]. *)
Definition well_formed_track (f : file) : Prop :=
  ∃ uidvalidity members,
    f = Json (PDict [("uidvalidity", PAtom (AInt uidvalidity));
                     ("uids", PList (PAtom <$> members))])
    ∧ NoDup members.

(** Whether the integer [n] equals a member of the list [seen]. *)
Definition int_seen_in (seen : list pyval) (n : Z) : bool :=
  existsb (λ v, ISBG.py_eq_int v n) seen.

(** A learn folder that is unset or has the empty name. *)
Definition no_folder (inbox : option string) : Prop :=
  inbox = None ∨ inbox = Some "".

(** Whether the string [u] equals a member of the list [seen]. *)
Definition seen_in (seen : list pyval) (u : string) : bool :=
  existsb (λ v, ISBG.py_eq_str v u) seen.

(** ** A concrete library, server and classifier

    Used to run the code on explicit inputs. The numbers are plain decimal
    literals, on which the rational read here is the value Python's [float]
    and [int] give for the integers used below. *)

Module Concrete.

Definition is_digit (c : ascii) : bool :=
  (48 <=? nat_of_ascii c)%nat && (nat_of_ascii c <=? 57)%nat.

(** The longest prefix of digits, and what follows it. *)
Fixpoint span_digits (s : string) : string * string :=
  match s with
  | String c s' =>
      if is_digit c
      then (String c (span_digits s').1, (span_digits s').2)
      else (EmptyString, s)
  | EmptyString => (EmptyString, EmptyString)
  end.

Fixpoint digits_value (acc : Z) (s : string) : Z :=
  match s with
  | String c s' => digits_value (10 * acc + Z.of_nat (nat_of_ascii c) - 48) s'
  | EmptyString => acc
  end.

Definition strip_prefix (p s : string) : option string :=
  if String.prefix p s
  then Some (String.substring (String.length p) (String.length s - String.length p) s)
  else None.

(** A match of [\d+(?:\.\d+)?] at the start of [s], after an optional minus
    sign when [signed]: the text matched and the rest. *)
Definition take_number (signed : bool) (s : string) : option (string * string) :=
  let '(sign, s1) := match s with
                     | String "-"%char s' => if signed then ("-", s') else ("", s)
                     | _ => ("", s)
                     end in
  let '(whole, s2) := span_digits s1 in
  if String.eqb whole "" then None
  else
    match s2 with
    | String "."%char s3 =>
        let '(frac, s4) := span_digits s3 in
        if String.eqb frac "" then Some (sign ++ whole, s2)
        else Some (sign ++ whole ++ "." ++ frac, s4)
    | _ => Some (sign ++ whole, s2)
    end.

Definition score_at (s : string) : option (string * string) :=
  s1 ← strip_prefix "score=" s;
  n1 ← take_number true s1;
  s2 ← strip_prefix " required=" n1.2;
  n2 ← take_number false s2;
  Some (n1.1, n2.1).

(** The leftmost match of the score pattern. *)
Fixpoint search_score (s : string) : option (string * string) :=
  match score_at s with
  | Some groups => Some groups
  | None =>
      match s with
      | String _ s' => search_score s'
      | EmptyString => None
      end
  end.

Definition uidvalidity_at (s : string) : option Z :=
  s1 ← strip_prefix "UIDVALIDITY " s;
  let digits := (span_digits s1).1 in
  if String.eqb digits "" then None else Some (digits_value 0 digits).

Fixpoint search_uidvalidity (s : string) : option Z :=
  match uidvalidity_at s with
  | Some v => Some v
  | None =>
      match s with
      | String _ s' => search_uidvalidity s'
      | EmptyString => None
      end
  end.

(** A decimal literal, read exactly. *)
Definition decimal (s : string) : option Q :=
  match take_number true s with
  | Some (_, String _ _) | None => None
  | Some (_, EmptyString) =>
      let '(negative, s1) := match s with
                             | String "-"%char s' => (true, s')
                             | _ => (false, s)
                             end in
      let '(whole, s2) := span_digits s1 in
      let frac := match s2 with
                  | String _ s3 => s3
                  | EmptyString => EmptyString
                  end in
      let n := digits_value 0 (whole ++ frac) in
      Some (Qmake (if negative then - n else n)
                  (Z.to_pos (10 ^ Z.of_nat (String.length frac))))
  end.

Definition integer (s : string) : option Z :=
  match decimal s with
  | Some q => if (Qden q =? 1)%positive then Some (Qnum q) else None
  | None => None
  end.

#[global] Instance atom_eq_dec : EqDecision atom.
Proof. solve_decision. Defined.

(** [float(s)] on a decimal literal and on the two texts [nan] and [inf]. *)
Definition float_of (s : string) : option pyfloat :=
  if String.eqb s "nan" then Some NaN
  else if String.eqb s "inf" then Some PlusInf
  else Finite <$> decimal s.

Definition repr_float (x : pyfloat) : string :=
  match x with
  | Finite q => pretty (Qnum q) ++ "/" ++ pretty (Zpos (Qden q))
  | PlusInf => "inf"
  | MinusInf => "-inf"
  | NaN => "nan"
  end.

Definition lib : pylib := {|
  py_float := float_of;
  py_int := integer;
  py_repr := λ s, "'" ++ s ++ "'";
  py_repr_int := pretty;
  py_repr_float := repr_float;
  re_score := search_score;
  re_uidvalidity := search_uidvalidity;
  unwrap := λ _, None;
  set_iter := remove_dups;
  set_iter_elem := elem_of_remove_dups;
  set_iter_nodup := NoDup_remove_dups
|}.

(** A server holding the messages [uids] (the text of its SEARCH answer)
    under folder identity [uidvalidity]; a fetch of a uid in [gone] finds the
    message vanished and answers as imaplib does then, with [[None]]. *)
Definition server (uidvalidity uids : string) (gone : list string)
    (history : list event) : response :=
  match last history with
  | Some (ImapStatus mailbox) =>
      ("OK", [IStr (mailbox ++ " (UIDVALIDITY " ++ uidvalidity ++ ")")])
  | Some (ImapSearch _ _) => ("OK", [IStr uids])
  | Some (ImapFetch uid) =>
      if bool_decide (uid ∈ gone) then ("OK", [INone])
      else ("OK", [ITuple [uid ++ " (UID " ++ uid ++ " BODY[] {8}"; "mail " ++ uid];
                   IStr ")"])
  | Some (ImapSelect _ _) | Some (ImapAppend _ _ _) | Some (ImapCopy _ _)
  | Some (ImapStore _ _ _) | Some ImapExpunge => ("OK", [INone])
  | _ => ("BAD", [])
  end.

(** The classifier: the test command answers [verdict] on the body, the
    save command puts a header line before it. *)
Definition classifier (verdict : string → string * Z) (history : list event)
    : proc_result :=
  match last history with
  | Some (Spawn cmd input) =>
      if bool_decide (cmd = ["spamassassin"]) || bool_decide (cmd = ["spamc"])
      then Exited ("X-Spam-Flag: YES" ++ nl ++ input) 0
      else Exited (verdict input).1 (verdict input).2
  | _ => SpawnError
  end.

(** Every message is ham. *)
Definition all_ham (body : string) : string * Z := ("score=0.0 required=5.0", 0).

(** Message 101 is ham, 102 scores 5 of 10 and 103 scores 12 of 10. *)
Definition verdicts (body : string) : string * Z :=
  if String.eqb body "mail 102" then ("score=5 required=10", 1)
  else if String.eqb body "mail 103" then ("score=12 required=10", 1)
  else ("score=0 required=10", 0).

Definition empty_world : world := World ∅ [].

(** Messages 101, 102 and 103 with the verdicts above. *)
Definition scenario : peers :=
  Peers (server "42" "101 102 103" []) (classifier verdicts).

(** The same inbox, all ham, where message 102 vanishes before its fetch. *)
Definition vanishing : peers :=
  Peers (server "42" "101 102 103" ["102"]) (classifier all_ham).

(** A server whose every answer is OK with an empty data list. *)
Definition hollow : peers := Peers (λ _, ("OK", [])) (classifier all_ham).

(** The test command cannot reach its backend for message 102. *)
Definition backend_down (body : string) : string * Z :=
  if String.eqb body "mail 102" then ("0/0" ++ nl, 1) else ("1.0/5.0" ++ nl, 0).

Definition unreachable : peers :=
  Peers (server "42" "101 102 103" []) (classifier backend_down).

(** The object of a run with [--spamc]. *)
Definition spamc_config : ISBG.isbg := {|
  ISBG.imapinbox := "INBOX";
  ISBG.spaminbox := "INBOX.spam";
  ISBG.learnspambox := None;
  ISBG.learnhambox := None;
  ISBG.noreport := false;
  ISBG.dryrun := false;
  ISBG.maxsize := 120000;
  ISBG.teachonly := false;
  ISBG.spamc := true;
  ISBG.gmail := false;
  ISBG.pastuidsfile := Some "/home/u/.isbg-track";
  ISBG.partialrun := 0;
  ISBG.movehamto := None;
  ISBG.delete := false;
  ISBG.deletehigherthan := None;
  ISBG.flag := false;
  ISBG.expunge := false;
  ISBG.learnflagged := false;
  ISBG.learnunflagged := false;
  ISBG.learnthendestroy := false;
  ISBG.learnthenflag := false;
  ISBG.satest := ["spamc"; "-c"];
  ISBG.sasave := ["spamc"];
  ISBG.spamflagscmd := "+FLAGS.SILENT";
  ISBG.spamflags := []
|}.

(** [s.strip()] for ASCII whitespace. *)
Fixpoint lstrip (s : string) : string :=
  match s with
  | String c s' => if is_space c then lstrip s' else s
  | EmptyString => EmptyString
  end.

Fixpoint rstrip (s : string) : string :=
  match s with
  | String c s' =>
      let r := rstrip s' in
      if String.eqb r "" && is_space c then EmptyString else String c r
  | EmptyString => EmptyString
  end.

Definition strip (s : string) : string := rstrip (lstrip s).

(** A teaching process that learns message 102 and knows the others. *)
Definition teacher (history : list event) : proc_result :=
  match last history with
  | Some (Spawn _ input) =>
      if String.eqb input "mail 102" then Exited ("Message successfully un/learned" ++ nl) 0
      else Exited ("Message was already un/learned" ++ nl) 0
  | _ => SpawnError
  end.

Definition school : peers := Peers (server "7" "101 102 103" []) teacher.

(** An object with the spam learn folder set. *)
Definition learn_config (dryrun : bool) : ISBG.isbg := {|
  ISBG.imapinbox := "INBOX";
  ISBG.spaminbox := "INBOX.spam";
  ISBG.learnspambox := Some "INBOX.learnspam";
  ISBG.learnhambox := None;
  ISBG.noreport := false;
  ISBG.dryrun := dryrun;
  ISBG.maxsize := 120000;
  ISBG.teachonly := false;
  ISBG.spamc := false;
  ISBG.gmail := false;
  ISBG.pastuidsfile := Some "/home/u/.isbg-track";
  ISBG.partialrun := 0;
  ISBG.movehamto := None;
  ISBG.delete := false;
  ISBG.deletehigherthan := None;
  ISBG.flag := false;
  ISBG.expunge := false;
  ISBG.learnflagged := false;
  ISBG.learnunflagged := false;
  ISBG.learnthendestroy := false;
  ISBG.learnthenflag := true;
  ISBG.satest := ["spamassassin"; "--exit-code"];
  ISBG.sasave := ["spamassassin"];
  ISBG.spamflagscmd := "+FLAGS.SILENT";
  ISBG.spamflags := []
|}.

(** A teaching process whose daemon does not allow telling: it fails on
    message 102 with exit code 69. *)
Definition untellable (history : list event) : proc_result :=
  match last history with
  | Some (Spawn _ input) =>
      if String.eqb input "mail 102" then Exited "" 69
      else Exited ("Message was already un/learned" ++ nl) 0
  | _ => SpawnError
  end.

Definition strict_school : peers := Peers (server "7" "101 102 103" []) untellable.

(** A server that refuses every command. *)
Definition refusing : peers := Peers (λ _, ("NO", [])) (classifier all_ham).

(** The command line [--partialrun abc]. *)
Definition bad_partialrun_opts : ISBG.opts := {|
  ISBG.o_deletehigherthan := None;
  ISBG.o_flag := false;
  ISBG.o_imapinbox := None;
  ISBG.o_learnspambox := None;
  ISBG.o_learnhambox := None;
  ISBG.o_dryrun := false;
  ISBG.o_delete := false;
  ISBG.o_gmail := false;
  ISBG.o_maxsize := None;
  ISBG.o_movehamto := None;
  ISBG.o_noreport := false;
  ISBG.o_spaminbox := None;
  ISBG.o_trackfile := None;
  ISBG.o_partialrun := Some "abc";
  ISBG.o_learnunflagged := false;
  ISBG.o_learnflagged := false;
  ISBG.o_learnthendestroy := false;
  ISBG.o_learnthenflag := false;
  ISBG.o_expunge := false;
  ISBG.o_teachonly := false;
  ISBG.o_spamc := false
|}.

(** The command line [--learnflagged --learnunflagged]. *)
Definition both_learn_opts : ISBG.opts := {|
  ISBG.o_deletehigherthan := None;
  ISBG.o_flag := false;
  ISBG.o_imapinbox := None;
  ISBG.o_learnspambox := None;
  ISBG.o_learnhambox := None;
  ISBG.o_dryrun := false;
  ISBG.o_delete := false;
  ISBG.o_gmail := false;
  ISBG.o_maxsize := None;
  ISBG.o_movehamto := None;
  ISBG.o_noreport := false;
  ISBG.o_spaminbox := None;
  ISBG.o_trackfile := None;
  ISBG.o_partialrun := None;
  ISBG.o_learnunflagged := true;
  ISBG.o_learnflagged := true;
  ISBG.o_learnthendestroy := false;
  ISBG.o_learnthenflag := false;
  ISBG.o_expunge := false;
  ISBG.o_teachonly := false;
  ISBG.o_spamc := false
|}.

(** Two, three and nine messages in the inbox under identity 42, none gone,
    and a classifier that finds them all ham. *)
Definition two_hams : peers := Peers (server "42" "101 102" []) (classifier all_ham).
Definition three_hams : peers := Peers (server "42" "101 102 103" []) (classifier all_ham).
Definition nine_hams : peers :=
  Peers (server "42" "1 2 3 4 5 6 7 8 9" []) (classifier all_ham).

(** A disk whose track file for the inbox was written under folder identity
    41 and lists uid 101. *)
Definition world_41 : world :=
  World {[ "/home/u/.isbg-trackinbox" :=
             Json (PDict [("uidvalidity", PAtom (AInt 41));
                          ("uids", PList [PAtom (AStr "101")])]) ]} [].

(** An [ISBG] object as [__init__] and the option processing leave it, with
    a track file; [deletehigherthan] is a finite score or unset. *)
Definition config (partialrun : Z) (dryrun gmail : bool)
    (deletehigherthan : option Q) (spamflags : list string) : ISBG.isbg := {|
  ISBG.imapinbox := "INBOX";
  ISBG.spaminbox := "INBOX.spam";
  ISBG.learnspambox := None;
  ISBG.learnhambox := None;
  ISBG.noreport := false;
  ISBG.dryrun := dryrun;
  ISBG.maxsize := 120000;
  ISBG.teachonly := false;
  ISBG.spamc := false;
  ISBG.gmail := gmail;
  ISBG.pastuidsfile := Some "/home/u/.isbg-track";
  ISBG.partialrun := partialrun;
  ISBG.movehamto := None;
  ISBG.delete := false;
  ISBG.deletehigherthan := Finite <$> deletehigherthan;
  ISBG.flag := false;
  ISBG.expunge := false;
  ISBG.learnflagged := false;
  ISBG.learnunflagged := false;
  ISBG.learnthendestroy := false;
  ISBG.learnthenflag := false;
  ISBG.satest := ["spamassassin"; "--exit-code"];
  ISBG.sasave := ["spamassassin"];
  ISBG.spamflagscmd := "+FLAGS.SILENT";
  ISBG.spamflags := spamflags
|}.

(** The same object with [--noreport]. *)
Definition without_report (self : ISBG.isbg) : ISBG.isbg := {|
  ISBG.imapinbox := ISBG.imapinbox self;
  ISBG.spaminbox := ISBG.spaminbox self;
  ISBG.learnspambox := ISBG.learnspambox self;
  ISBG.learnhambox := ISBG.learnhambox self;
  ISBG.noreport := true;
  ISBG.dryrun := ISBG.dryrun self;
  ISBG.maxsize := ISBG.maxsize self;
  ISBG.teachonly := ISBG.teachonly self;
  ISBG.spamc := ISBG.spamc self;
  ISBG.gmail := ISBG.gmail self;
  ISBG.pastuidsfile := ISBG.pastuidsfile self;
  ISBG.partialrun := ISBG.partialrun self;
  ISBG.movehamto := ISBG.movehamto self;
  ISBG.delete := ISBG.delete self;
  ISBG.deletehigherthan := ISBG.deletehigherthan self;
  ISBG.flag := ISBG.flag self;
  ISBG.expunge := ISBG.expunge self;
  ISBG.learnflagged := ISBG.learnflagged self;
  ISBG.learnunflagged := ISBG.learnunflagged self;
  ISBG.learnthendestroy := ISBG.learnthendestroy self;
  ISBG.learnthenflag := ISBG.learnthenflag self;
  ISBG.satest := ISBG.satest self;
  ISBG.sasave := ISBG.sasave self;
  ISBG.spamflagscmd := ISBG.spamflagscmd self;
  ISBG.spamflags := ISBG.spamflags self
|}.

(** A server whose every completion is BAD. *)
Definition broken : peers := Peers (λ _, ("BAD", [])) (classifier all_ham).

(** The command line [--deletehigherthan nan]. *)
Definition nan_score_opts : ISBG.opts := {|
  ISBG.o_deletehigherthan := Some "nan";
  ISBG.o_flag := false;
  ISBG.o_imapinbox := None;
  ISBG.o_learnspambox := None;
  ISBG.o_learnhambox := None;
  ISBG.o_dryrun := false;
  ISBG.o_delete := false;
  ISBG.o_gmail := false;
  ISBG.o_maxsize := None;
  ISBG.o_movehamto := None;
  ISBG.o_noreport := false;
  ISBG.o_spaminbox := None;
  ISBG.o_trackfile := None;
  ISBG.o_partialrun := Some "3";
  ISBG.o_learnunflagged := false;
  ISBG.o_learnflagged := false;
  ISBG.o_learnthendestroy := false;
  ISBG.o_learnthenflag := false;
  ISBG.o_expunge := false;
  ISBG.o_teachonly := false;
  ISBG.o_spamc := false
|}.

End Concrete.

(** * Properties *)

Import ISBG.

(** ** The monad *)

Lemma bind_ret_inv {A B} (m : M A) (k : A → M B) (w w' : world) (b : B) :
  bind m k w = (Ret b, w') →
  ∃ a w1, m w = (Ret a, w1) ∧ k a w1 = (Ret b, w').
Proof.
  unfold bind. destruct (m w) as [[a | e | c] w1]; intros H; try discriminate.
  eauto.
Qed.

Lemma bind_ret_eq {A B} (m : M A) (k : A → M B) (w w1 : world) (a : A) :
  m w = (Ret a, w1) → bind m k w = k a w1.
Proof. unfold bind. intros ->. reflexivity. Qed.

Ltac inv_bind H :=
  let a := fresh "a" in
  let w := fresh "w" in
  let Hm := fresh "Hm" in
  apply bind_ret_inv in H as (a & w & Hm & H).

Ltac inv_ret H :=
  unfold ret, raise, sys_exit in H; try discriminate H;
  injection H as H; subst.

(** ** Seen uids on disk *)

Lemma unseen_empty (inboxuids : list string) (w : world) :
  unseen inboxuids (PList []) w = (Ret inboxuids, w).
Proof.
  induction inboxuids as [| u rest IH]; [reflexivity |].
  cbn [unseen py_contains existsb]. by rewrite (bind_ret_eq _ _ _ _ _ IH).
Qed.

Lemma py_eq_int_false (v : pyval) (n : Z) :
  v ≠ PAtom (AInt n) → py_eq_int v n = false.
Proof.
  destruct v as [[| z | s] | l | d]; try reflexivity.
  intros Hne. cbn. apply Z.eqb_neq. congruence.
Qed.

Lemma mapM_hashable_atoms (l : list atom) : mapM hashable (PAtom <$> l) = Some l.
Proof.
  apply mapM_Some. induction l as [| a l IH]; constructor; [reflexivity | exact IH].
Qed.

Lemma mapM_hashable_inv (l : list pyval) (members : list atom) :
  mapM hashable l = Some members → l = PAtom <$> members.
Proof.
  intros H%mapM_Some. induction H as [| v a l k Hv _ IH]; [reflexivity |].
  destruct v; try discriminate. cbn in Hv. injection Hv as ->. by rewrite IH.
Qed.

(** What a read finds in a file that records the identity it is asked for. *)
Lemma pastuid_read_current (self : isbg) (uidvalidity : Z) (folder name : string)
    (uids : pyval) (w : world) :
  pastuidsfile self = Some name →
  fs w !! (name ++ folder) =
    Some (Json (PDict [("uidvalidity", PAtom (AInt uidvalidity)); ("uids", uids)])) →
  pastuid_read self uidvalidity folder w = (Ret uids, w).
Proof.
  intros Hname Hfile. unfold pastuid_read, try_except, bind, read_file.
  rewrite Hname, Hfile. cbn. by rewrite Z.eqb_refl.
Qed.

(** C3: when the track file is missing, cannot be parsed, or records a
    uidvalidity other than the one passed, [pastuid_read] returns the empty
    list without raising, and the seen-filter then keeps every uid of the
    inbox: all of them are candidates again. *)
Theorem pastuid_read_stale (self : isbg) (uidvalidity : Z) (folder name : string)
    (w : world) :
  pastuidsfile self = Some name →
  fs w !! (name ++ folder) = None
  ∨ fs w !! (name ++ folder) = Some Unparsable
  ∨ (∃ d v, fs w !! (name ++ folder) = Some (Json (PDict d))
            ∧ dict_get d "uidvalidity" = Some v
            ∧ v ≠ PAtom (AInt uidvalidity)) →
  pastuid_read self uidvalidity folder w = (Ret (PList []), w)
  ∧ ∀ inboxuids, unseen inboxuids (PList []) w = (Ret inboxuids, w).
Proof.
  intros Hname Hfile. split; [| intros; apply unseen_empty].
  unfold pastuid_read, try_except, bind, read_file. rewrite Hname.
  destruct Hfile as [-> | [-> | (d & v & -> & Hget & Hne)]]; try reflexivity.
  cbn. rewrite Hget. cbn. by rewrite (py_eq_int_false _ _ Hne).
Qed.

Lemma pastuid_read_stale_witness :
  pastuid_read (Concrete.config 0 false false None []) 42 "inbox" Concrete.world_41
    = (Ret (PList []), Concrete.world_41)
  ∧ ∀ inboxuids,
      unseen inboxuids (PList []) Concrete.world_41 = (Ret inboxuids, Concrete.world_41).
Proof.
  apply (pastuid_read_stale _ 42 "inbox" "/home/u/.isbg-track").
  - reflexivity.
  - right; right.
    exists [("uidvalidity", PAtom (AInt 41)); ("uids", PList [PAtom (AStr "101")])],
           (PAtom (AInt 41)).
    split; [vm_compute; reflexivity | split; [reflexivity | discriminate]].
Defined.

(** C2: for every role folder and all lists of original and of newly seen
    uids, [pastuid_write] followed by [pastuid_read] with the same
    uidvalidity returns a list whose elements are exactly those of the two
    lists together. *)
Theorem pastuid_write_read (L : pylib) (self : isbg) (uidvalidity : Z)
    (folder name : string) (origpastuids newpastuids : list atom) (w : world) :
  pastuidsfile self = Some name →
  ∃ w1 pastuids,
    pastuid_write L self uidvalidity (PList (PAtom <$> origpastuids))
      (PAtom <$> newpastuids) folder w = (Ret tt, w1)
    ∧ pastuid_read self uidvalidity folder w1 = (Ret (PList (PAtom <$> pastuids)), w1)
    ∧ ∀ x, x ∈ pastuids ↔ x ∈ origpastuids ∨ x ∈ newpastuids.
Proof.
  intros Hname.
  eexists _, (set_iter L (newpastuids ++ origpastuids)).
  split; [| split].
  - unfold pastuid_write, bind, write_file. rewrite Hname. cbn.
    rewrite <- fmap_app, mapM_hashable_atoms. reflexivity.
  - apply (pastuid_read_current _ _ _ name); [exact Hname |].
    cbn. apply lookup_insert_eq.
  - intros x. rewrite set_iter_elem, elem_of_app. tauto.
Qed.

Lemma pastuid_write_read_witness :
  ∃ w1 pastuids,
    pastuid_write Concrete.lib (Concrete.config 0 false false None []) 42
      (PList (PAtom <$> [AStr "101"; AStr "102"])) (PAtom <$> [AStr "102"; AStr "103"])
      "inbox" Concrete.world_41 = (Ret tt, w1)
    ∧ pastuid_read (Concrete.config 0 false false None []) 42 "inbox" w1
        = (Ret (PList (PAtom <$> pastuids)), w1)
    ∧ ∀ x, x ∈ pastuids ↔ x ∈ [AStr "101"; AStr "102"] ∨ x ∈ [AStr "102"; AStr "103"].
Proof.
  apply (pastuid_write_read Concrete.lib _ 42 "inbox" "/home/u/.isbg-track").
  reflexivity.
Defined.

(** ** Commands that send no FETCH and leave the disk alone *)

Lemma fetches_snoc (history : list event) (e : event) :
  fetches (history ++ [e]) = (fetches history ++ fetches [e])%list.
Proof. unfold fetches. apply omap_app. Qed.

Lemma quiet_ret {A} (a : A) : quiet (ret a).
Proof. intros w r w' [= <- <-]. done. Qed.

Lemma quiet_raise {A} (e : exn) : quiet (@raise A e).
Proof. intros w r w' [= <- <-]. done. Qed.

Lemma quiet_sys_exit {A} (c : Z) : quiet (@sys_exit A c).
Proof. intros w r w' [= <- <-]. done. Qed.

Lemma quiet_bind {A B} (m : M A) (k : A → M B) :
  quiet m → (∀ a, quiet (k a)) → quiet (bind m k).
Proof.
  intros Hm Hk w r w'. unfold bind.
  destruct (m w) as [[a | e | c] w1] eqn:E; apply Hm in E as [E1 E2].
  - intros [H1 H2]%Hk. split; congruence.
  - intros [= <- <-]. done.
  - intros [= <- <-]. done.
Qed.

Lemma quiet_try_except_imap {A} (m handler : M A) :
  quiet m → quiet handler → quiet (try_except_imap m handler).
Proof.
  intros Hm Hh w r w'. unfold try_except_imap.
  destruct (m w) as [[a | [] | c] w1] eqn:E; apply Hm in E as [E1 E2];
    try (intros [= <- <-]; done).
  intros [H1 H2]%Hh. split; congruence.
Qed.

Lemma quiet_emit (e : event) : fetches [e] = [] → quiet (emit e).
Proof.
  intros He w r w' [= <- <-]. cbn. rewrite fetches_snoc, He. by rewrite app_nil_r.
Qed.

Lemma quiet_imap_call (P : peers) (e : event) :
  fetches [e] = [] → quiet (imap_call P e).
Proof.
  intros He w r w' [= <- <-]. cbn. rewrite fetches_snoc, He. by rewrite app_nil_r.
Qed.

Lemma quiet_popen (P : peers) (cmd : list string) (input : string) :
  quiet (popen P cmd input).
Proof. intros w r w' [= <- <-]. cbn. rewrite fetches_snoc. by rewrite app_nil_r. Qed.

Lemma quiet_errorexit {A} (msg : string) (code : Z) : quiet (@errorexit A msg code).
Proof.
  unfold errorexit. repeat (apply quiet_bind; [by apply quiet_emit | intros _]).
  case_match; [apply quiet_raise | apply quiet_sys_exit].
Qed.

Ltac quiet_step :=
  first
    [ match goal with H : _ |- quiet _ => apply H end
    | apply quiet_ret | apply quiet_raise | apply quiet_sys_exit
    | apply quiet_errorexit | apply quiet_popen
    | apply quiet_emit; reflexivity
    | apply quiet_imap_call; reflexivity
    | apply quiet_try_except_imap
    | apply quiet_bind; [| intros ?]
    | match goal with
      | |- quiet (if ?b then _ else _) => destruct b
      | |- quiet (match ?x with _ => _ end) => destruct x
      end ].

Ltac quiet_auto := repeat quiet_step.

Lemma quiet_assertok (L : pylib) (res : response) (args0 : string) :
  quiet (ISBGImap._assertok L res args0).
Proof. unfold ISBGImap._assertok. quiet_auto. Qed.

Lemma quiet_select (L : pylib) (P : peers) (mailbox : string) (readonly : bool) :
  quiet (ISBGImap.select L P mailbox readonly).
Proof. unfold ISBGImap.select. pose proof (quiet_assertok L). quiet_auto. Qed.

Lemma quiet_copy (L : pylib) (P : peers) (uid mailbox : string) :
  quiet (ISBGImap.copy L P uid mailbox).
Proof. unfold ISBGImap.copy. pose proof (quiet_assertok L). quiet_auto. Qed.

Lemma quiet_store (L : pylib) (P : peers) (uid command : string) (flags : flagsarg) :
  quiet (ISBGImap.store L P uid command flags).
Proof.
  unfold ISBGImap.store, ISBGImap._imapflags. pose proof (quiet_assertok L).
  quiet_auto.
Qed.

Lemma quiet_append (L : pylib) (P : peers) (mailbox : string)
    (flags : option flagsarg) (message : string) :
  quiet (ISBGImap.append L P mailbox flags message).
Proof.
  unfold ISBGImap.append, ISBGImap._imapflags. pose proof (quiet_assertok L).
  quiet_auto.
Qed.

Lemma quiet_expunge (L : pylib) (P : peers) : quiet (ISBGImap.expunge L P).
Proof. unfold ISBGImap.expunge. pose proof (quiet_assertok L). quiet_auto. Qed.

Lemma quiet_get_uidvalidity (L : pylib) (P : peers) (mailbox : string) :
  quiet (ISBGImap.get_uidvalidity L P mailbox).
Proof. unfold ISBGImap.get_uidvalidity. pose proof (quiet_assertok L). quiet_auto. Qed.

Lemma quiet_search (P : peers) (criterion : string) (args : list string) :
  quiet (ISBGImap.search P criterion args).
Proof. unfold ISBGImap.search. quiet_auto. Qed.

Lemma quiet_classify (L : pylib) (P : peers) (self : isbg) (body : string)
    (st : loopst) :
  quiet (classify L P self body st).
Proof. unfold classify. quiet_auto. Qed.

Lemma quiet_report (L : pylib) (P : peers) (self : isbg) (u body : string)
    (st : loopst) :
  quiet (report L P self u body st).
Proof.
  unfold report. pose proof (quiet_append L P). pose proof (quiet_copy L P).
  quiet_auto.
Qed.

Lemma quiet_act (L : pylib) (P : peers) (self : isbg) (u body score : string)
    (code : Z) (st : loopst) :
  quiet (act L P self u body score code st).
Proof. unfold act. pose proof (quiet_report L P). quiet_auto. Qed.

Lemma quiet_for_each {A} (l : list A) (f : A → M unit) :
  (∀ x, quiet (f x)) → quiet (for_each l f).
Proof. intros Hf. induction l as [| x l IH]; cbn [for_each]; quiet_auto. Qed.

Lemma quiet_mark (L : pylib) (P : peers) (self : isbg) (st : loopst)
    (numspam spamdeleted : Z) :
  quiet (mark L P self st numspam spamdeleted).
Proof.
  unfold mark.
  pose proof (quiet_select L P). pose proof (quiet_copy L P).
  pose proof (quiet_store L P). pose proof (quiet_expunge L P).
  repeat first [ apply quiet_for_each; intros ? | quiet_step ].
Qed.

(** ** Reading runs backwards *)

Lemma ret_inv {A} (a b : A) (w w' : world) : ret a w = (Ret b, w') → a = b ∧ w = w'.
Proof. intros [= -> ->]. done. Qed.

Lemma errorexit_never_returns {A} (msg : string) (code : Z) (w w' : world) (a : A) :
  errorexit msg code w ≠ (Ret a, w').
Proof. unfold errorexit, bind, emit. cbn. case_match; discriminate. Qed.

Lemma try_except_imap_ret_inv {A} (m handler : M A) (w w' : world) (a : A) :
  try_except_imap m handler w = (Ret a, w') →
  m w = (Ret a, w')
  ∨ ∃ w1, m w = (Raise ISBGImapError, w1) ∧ handler w1 = (Ret a, w').
Proof.
  unfold try_except_imap. destruct (m w) as [[b | [] | c] w1]; intros H;
    try discriminate; eauto.
Qed.

Ltac inv_run :=
  repeat match goal with
    | H : bind _ _ _ = (Ret _, _) |- _ =>
        apply bind_ret_inv in H as (? & ? & ? & ?)
    | H : ret _ _ = (Ret _, _) |- _ => apply ret_inv in H as [? ?]; simplify_eq
    | H : raise _ _ = (Ret _, _) |- _ => discriminate H
    | H : sys_exit _ _ = (Ret _, _) |- _ => discriminate H
    | H : errorexit _ _ _ = (Ret _, _) |- _ =>
        exfalso; exact (errorexit_never_returns _ _ _ _ _ H)
    | H : emit _ _ = (Ret _, _) |- _ => clear H
    | H : (if ?b then _ else _) _ = (Ret _, _) |- _ => destruct b eqn:?
    | H : (match ?x with _ => _ end) _ = (Ret _, _) |- _ => destruct x eqn:?
    end.

Lemma pure_quiet {A} (m : M A) : pure m → quiet m.
Proof. intros Hm w r w' ->%Hm. done. Qed.

Lemma pastuid_read_total (self : isbg) (uidvalidity : Z) (folder : string) (w : world) :
  ∃ pastuids, pastuid_read self uidvalidity folder w = (Ret pastuids, w).
Proof.
  unfold pastuid_read, try_except, bind, read_file, py_getitem, ret, raise.
  repeat case_match; simplify_eq; eauto.
Qed.

Lemma pure_pastuid_read (self : isbg) (uidvalidity : Z) (folder : string) :
  pure (pastuid_read self uidvalidity folder).
Proof.
  intros w r w' H. destruct (pastuid_read_total self uidvalidity folder w) as [v Hv].
  congruence.
Qed.

(** On a list of seen uids the filter is a plain list filter. *)
Lemma unseen_list (inboxuids : list string) (seen : list pyval) (w : world) :
  unseen inboxuids (PList seen) w
    = (Ret (List.filter (λ u, negb (seen_in seen u)) inboxuids), w).
Proof.
  induction inboxuids as [| u rest IH]; [reflexivity |].
  cbn [unseen py_contains List.filter]. rewrite (bind_ret_eq _ _ _ _ _ IH).
  fold (seen_in seen u). by destruct (seen_in seen u).
Qed.

Lemma pure_unseen (inboxuids : list string) (origpastuids : pyval) :
  pure (unseen inboxuids origpastuids).
Proof.
  induction inboxuids as [| u rest IH]; intros w r w'; cbn [unseen].
  - intros [= <- <-]. done.
  - destruct (py_contains origpastuids u); [| intros [= <- <-]; done].
    unfold bind. destruct (unseen rest origpastuids w) as [[a | e | c] w1] eqn:E;
      apply IH in E as ->; intros [= <- <-]; done.
Qed.

Lemma quiet_candidates (L : pylib) (P : peers) (self : isbg) :
  quiet (candidates L P self).
Proof.
  unfold candidates.
  pose proof (quiet_select L P). pose proof (quiet_get_uidvalidity L P).
  pose proof (quiet_search P).
  pose proof (λ uv f, pure_quiet _ (pure_pastuid_read self uv f)).
  pose proof (λ l c, pure_quiet _ (pure_unseen l c)).
  quiet_auto.
Qed.

(** What a run of [candidates] that returns has done. *)
Lemma candidates_inv (L : pylib) (P : peers) (self : isbg) (w w' : world)
    (uidvalidity : Z) (inboxuids uids : list string) (origpastuids : pyval) :
  candidates L P self w = (Ret (uidvalidity, inboxuids, origpastuids, uids), w') →
  fs w' = fs w
  ∧ fetches (trace w') = fetches (trace w)
  ∧ pastuid_read self uidvalidity "inbox" w' = (Ret origpastuids, w')
  ∧ ∃ all, unseen inboxuids origpastuids w' = (Ret all, w')
           ∧ uids = if negb (partialrun self =? 0)
                    then py_slice_to (partialrun self) all
                    else all.
Proof.
  intros H. destruct (quiet_candidates L P self _ _ _ H) as [Hfs Hfetch].
  do 2 (split; [assumption |]). clear Hfs Hfetch.
  unfold candidates in H.
  repeat match goal with
    | H : bind _ _ _ = (Ret _, _) |- _ =>
        apply bind_ret_inv in H as (? & ? & ? & ?)
    end.
  match goal with H : ret _ _ = _ |- _ => apply ret_inv in H as [? ?]; simplify_eq end.
  repeat match goal with
    | H : pastuid_read _ _ _ _ = _ |- _ =>
        pose proof (pure_pastuid_read _ _ _ _ _ _ H); subst; revert H
    | H : unseen _ _ _ = _ |- _ =>
        pose proof (pure_unseen _ _ _ _ _ H); subst; revert H
    end.
  intros Hunseen Hread. split; [exact Hread |]. eauto.
Qed.

(** ** The main loop *)

Lemma getmessage_effect (L : pylib) (P : peers) (u : string) (w w' : world)
    (r : outcome string) :
  ISBGImap.getmessage L P u w = (r, w') →
  fs w' = fs w ∧ fetches (trace w') = (fetches (trace w) ++ [u])%list.
Proof.
  unfold ISBGImap.getmessage. unfold bind at 1. intros H.
  assert (Hq : ∀ res, quiet (ISBGImap._assertok L res "uid fetch" ;;;
                             match ISBGImap.fetch_body res with
                             | Some (ISBGImap.Literal body) => ret body
                             | Some (ISBGImap.Octet _) => raise TypeError
                             | None => raise AttributeError
                             end)).
  { intros res. pose proof (quiet_assertok L). quiet_auto. }
  destruct (imap_call P (ImapFetch u) w) as [[res | e | c] w1] eqn:Hcall;
    injection Hcall as _ <-.
  - apply Hq in H as [H1 H2]. cbn in H1, H2. by rewrite fetches_snoc in H2.
  - injection H as _ <-. cbn. by rewrite fetches_snoc.
  - injection H as _ <-. cbn. by rewrite fetches_snoc.
Qed.

Lemma classify_ret (L : pylib) (P : peers) (self : isbg) (body : string)
    (st : loopst) (w w' : world) (f : flow) :
  classify L P self body st w = (Ret f, w') →
  match f with
  | Scored _ _ st' =>
      newpastuids st' = newpastuids st ∧ spamlist st' = spamlist st
      ∧ spamdeletelist st' = spamdeletelist st
  | Continue => True
  | Break => dryrun self = true
  end.
Proof. unfold classify. intros H. inv_run; done. Qed.

Lemma report_ret (L : pylib) (P : peers) (self : isbg) (u body : string)
    (st st' : loopst) (w w' : world) :
  report L P self u body st w = (Ret st', w') →
  newpastuids st' = newpastuids st ∧ spamdeletelist st' = spamdeletelist st
  ∧ (st' = st ∨ spamlist st' = (spamlist st ++ [u])%list).
Proof.
  unfold report, crnlify_bytes. intros H. inv_run; cbn; by eauto.
Qed.

Lemma act_ret (L : pylib) (P : peers) (self : isbg) (u body score : string)
    (code : Z) (st st' : loopst) (w w' : world) :
  act L P self u body score code st w = (Ret st', w') →
  newpastuids st' = newpastuids st.
Proof.
  unfold act. intros H. inv_run; try done;
    match goal with H : report _ _ _ _ _ _ _ = _ |- _ =>
      by apply report_ret in H as (? & _) end.
Qed.

Lemma loop_body_effect (L : pylib) (P : peers) (self : isbg) (u : string)
    (st : loopst) (w w' : world) (r : outcome (bool * loopst)) :
  loop_body L P self u st w = (r, w') →
  fs w' = fs w
  ∧ fetches (trace w') = (fetches (trace w) ++ [u])%list
  ∧ ∀ b st', r = Ret (b, st') →
      newpastuids st' = (newpastuids st ++ [u])%list
      ∧ (dryrun self = false → b = false).
Proof.
  unfold loop_body. unfold bind at 1.
  destruct (ISBGImap.getmessage L P u w) as [[body | e | c] w1] eqn:Hget;
    apply getmessage_effect in Hget as [Hfs Hfetch];
    try (intros [= <- <-]; split; [done |]; split; [done |]; intros ?? [=]).
  cbn zeta. intros H.
  assert (Hq : ∀ body' st1,
             quiet (f <-- classify L P self body' st1 ;;
                    match f with
                    | Break => ret (true, st1)
                    | Continue => ret (false, st1)
                    | Scored score code st' =>
                        st'' <-- act L P self u body' score code st' ;;
                        ret (false, st'')
                    end)).
  { intros. pose proof (quiet_classify L P). pose proof (quiet_act L P). quiet_auto. }
  destruct (Hq _ _ _ _ _ H) as [H1 H2].
  split; [congruence |]. split; [congruence |].
  intros b st' ->. inv_run.
  - match goal with H : classify _ _ _ _ _ _ = _ |- _ =>
      apply classify_ret in H as (Hn & _) end.
    match goal with H : act _ _ _ _ _ _ _ _ _ = _ |- _ =>
      apply act_ret in H; rewrite H end.
    split; [| done]. rewrite Hn. reflexivity.
  - done.
  - match goal with H : classify _ _ _ _ _ _ = _ |- _ => apply classify_ret in H end.
    split; [done | congruence].
Qed.

(** The loop fetches a prefix of its candidates and, when it ends, has
    recorded exactly what it fetched; outside a dry run it goes through all
    of them. *)
Lemma loop_effect (L : pylib) (P : peers) (self : isbg) (uids : list string) :
  ∀ (st : loopst) (w w' : world) (r : outcome loopst),
    loop L P self uids st w = (r, w') →
    fs w' = fs w
    ∧ ∃ fetched,
        fetched `prefix_of` uids
        ∧ fetches (trace w') = (fetches (trace w) ++ fetched)%list
        ∧ ∀ st', r = Ret st' →
            newpastuids st' = (newpastuids st ++ fetched)%list
            ∧ (dryrun self = false → fetched = uids).
Proof.
  induction uids as [| u rest IH]; intros st w w' r; cbn [loop].
  - intros [= <- <-]. split; [done |]. exists [].
    split; [apply prefix_nil |]. split; [by rewrite app_nil_r |].
    intros st' [= <-]. split; [by rewrite app_nil_r | done].
  - unfold bind.
    destruct (loop_body L P self u st w) as [[[b st1] | e | c] w1] eqn:Hbody;
      apply loop_body_effect in Hbody as (Hfs & Hfetch & Hst).
    + destruct (Hst b st1 eq_refl) as [Hn Hb]. cbn.
      destruct b.
      * intros [= <- <-]. split; [done |]. exists [u].
        split; [by exists rest |]. split; [done |].
        intros ? [= <-]. split; [done |]. intros Hd. by specialize (Hb Hd).
      * intros (Hfs' & fetched & Hpre & Hfetch' & Hst')%IH.
        split; [congruence |]. exists (u :: fetched).
        split; [by apply prefix_cons |].
        split; [rewrite Hfetch', Hfetch, <- app_assoc; done |].
        intros st' ->. destruct (Hst' st' eq_refl) as [Hn' Hall].
        split; [rewrite Hn', Hn, <- app_assoc; done |].
        intros Hd. by rewrite (Hall Hd).
    + intros [= <- <-]. split; [done |]. exists [u].
      split; [by exists rest |]. split; [done |]. intros ? [=].
    + intros [= <- <-]. split; [done |]. exists [u].
      split; [by exists rest |]. split; [done |]. intros ? [=].
Qed.

(** ** From one run to the next *)

Lemma py_eq_str_spec (v : pyval) (u : string) : py_eq_str v u = true ↔ v = pystr u.
Proof.
  unfold pystr. destruct v as [[| z | s] | l | d]; cbn; try (split; [done | congruence]).
  rewrite String.eqb_eq. split; congruence.
Qed.

Lemma seen_in_spec (seen : list pyval) (u : string) :
  seen_in seen u = true ↔ pystr u ∈ seen.
Proof.
  unfold seen_in. rewrite existsb_exists. setoid_rewrite py_eq_str_spec.
  setoid_rewrite <- list_elem_of_In. split; [by intros (v & Hv & ->) | eauto].
Qed.

Lemma elem_of_PAtom_fmap (a : atom) (l : list atom) : PAtom a ∈ PAtom <$> l ↔ a ∈ l.
Proof.
  rewrite list_elem_of_fmap. split; [by intros (y & [= ->] & Hy) | eauto].
Qed.

Lemma elem_of_pystr_fmap (u : string) (l : list string) : pystr u ∈ pystr <$> l ↔ u ∈ l.
Proof.
  rewrite list_elem_of_fmap. split; [by intros (y & [= ->] & Hy) | eauto].
Qed.

Lemma py_slice_to_subseteq {A} (n : Z) (l : list A) : py_slice_to n l ⊆ l.
Proof.
  unfold py_slice_to. intros x. case_match; intros Hx; by eapply subseteq_take.
Qed.

Lemma pastuid_write_inv (L : pylib) (self : isbg) (uidvalidity : Z)
    (origpastuids : pyval) (newpastuids : list pyval) (folder : string)
    (w w1 : world) :
  pastuid_write L self uidvalidity origpastuids newpastuids folder w = (Ret tt, w1) →
  ∃ name seen members,
    pastuidsfile self = Some name
    ∧ origpastuids = PList seen
    ∧ (newpastuids ++ seen)%list = PAtom <$> members
    ∧ trace w1 = trace w
    ∧ fs w1 !! (name ++ folder)
      = Some (Json (PDict [("uidvalidity", PAtom (AInt uidvalidity));
                           ("uids", PList (PAtom <$> set_iter L members))])).
Proof.
  unfold pastuid_write. destruct (pastuidsfile self) as [name |]; [| discriminate].
  intros H. unfold py_len, py_list_add, write_file in H. inv_run.
  all: repeat match goal with
         | H : (_, _) = (Ret _, _) |- _ => injection H as ? ?; subst
         | H : (λ _, _) _ = (Ret _, _) |- _ => injection H as ? ?; subst
         end.
  all: match goal with H : mapM hashable _ = Some _ |- _ =>
         apply mapM_hashable_inv in H end.
  all: eexists name, _, _; cbn; split; [done |]; split; [done |];
       split; [eassumption |]; split; [done |]; apply lookup_insert_eq.
Qed.

Lemma scan_inv (L : pylib) (P : peers) (self : isbg) (w0 w1 : world)
    (uidvalidity : Z) (inboxuids uids : list string) (origpastuids : pyval)
    (st : loopst) :
  scan L P self w0 = (Ret (uidvalidity, inboxuids, origpastuids, uids, st), w1) →
  ∃ wa wb,
    candidates L P self w0 = (Ret (uidvalidity, inboxuids, origpastuids, uids), wa)
    ∧ loop L P self uids (LoopSt [] [] [] 0) wa = (Ret st, wb)
    ∧ pastuid_write L self uidvalidity origpastuids (pystr <$> newpastuids st)
        "inbox" wb = (Ret tt, w1).
Proof.
  unfold scan. intros H.
  apply bind_ret_inv in H as ([[[uv inbox] orig] uids'] & wa & Hc & H).
  apply bind_ret_inv in H as (st' & wb & Hl & H).
  apply bind_ret_inv in H as ([] & wc & Hw & H).
  apply ret_inv in H as [? ?]. simplify_eq. eauto.
Qed.

Lemma filter_nil_all {A} (f : A → bool) (l : list A) :
  (∀ x, x ∈ l → f x = false) → List.filter f l = [].
Proof.
  induction l as [| x l IH]; intros H; [reflexivity |]. cbn.
  rewrite (H x) by apply list_elem_of_here. apply IH. intros y Hy. apply H.
  by apply list_elem_of_further.
Qed.

(** What two consecutive runs share: the first run got as far as writing
    its seen uids, the disk is as that write left it when the second run
    starts, and the second run finds the same folder identity. *)
Lemma consecutive_runs (L : pylib) (P : peers) (self : isbg) (w0 w1 w2 w3 : world)
    (uidvalidity : Z) (inbox1 inbox2 uids1 uids2 : list string)
    (orig1 orig2 : pyval) (st : loopst) :
  scan L P self w0 = (Ret (uidvalidity, inbox1, orig1, uids1, st), w1) →
  fs w2 = fs w1 →
  candidates L P self w2 = (Ret (uidvalidity, inbox2, orig2, uids2), w3) →
  ∃ seen1 seen2 all1,
    orig1 = PList seen1
    ∧ unseen inbox1 orig1 w0 = (Ret all1, w0)
    ∧ uids1 = (if negb (partialrun self =? 0)
               then py_slice_to (partialrun self) all1 else all1)
    ∧ fetches (trace w1) = (fetches (trace w0) ++ newpastuids st)%list
    ∧ (dryrun self = false → newpastuids st = uids1)
    ∧ orig2 = PList seen2
    ∧ (∀ u, seen_in seen2 u = true ↔ u ∈ newpastuids st ∨ seen_in seen1 u = true)
    ∧ uids2 = (if negb (partialrun self =? 0)
               then py_slice_to (partialrun self)
                      (List.filter (λ u, negb (seen_in seen2 u)) inbox2)
               else List.filter (λ u, negb (seen_in seen2 u)) inbox2).
Proof.
  intros (wa & wb & Hc1 & Hloop & Hwrite)%scan_inv Hfs Hc2.
  apply candidates_inv in Hc1 as (Hfsa & Hfa & Hread1 & all1 & Hall1 & Huids1).
  apply loop_effect in Hloop as (Hfsb & fetched & Hpre & Hfb & Hst).
  destruct (Hst st eq_refl) as [Hnew Hdone]. cbn in Hnew.
  apply pastuid_write_inv in Hwrite
    as (name & seen1 & members & Hname & -> & Hmem & Htr & Hfile).
  apply candidates_inv in Hc2 as (Hfs3 & _ & Hread2 & all2 & Hall2 & Huids2).
  rewrite (pastuid_read_current self uidvalidity "inbox" name _ w3 Hname) in Hread2
    by (rewrite Hfs3, Hfs; exact Hfile).
  injection Hread2 as <-. rewrite unseen_list in Hall2. injection Hall2 as <-.
  exists seen1, (PAtom <$> set_iter L members), all1.
  split; [done |].
  split. { rewrite unseen_list in Hall1 |- *. by injection Hall1 as <-. }
  split; [done |].
  split. { rewrite Htr, Hfb, Hfa, Hnew. done. }
  split. { intros Hd. rewrite Hnew. by apply Hdone. }
  split; [done |]. split; [| done].
  intros u. rewrite !seen_in_spec.
  change (pystr u) with (PAtom (AStr u)) at 1.
  rewrite elem_of_PAtom_fmap, set_iter_elem, <- elem_of_PAtom_fmap, <- Hmem, elem_of_app.
  change (PAtom (AStr u)) with (pystr u). by rewrite elem_of_pystr_fmap.
Qed.

(** C1, as amended: of two consecutive runs over the same folder, with no
    new message and the same uidvalidity, where the first got as far as
    writing its seen uids, every uid the first run fetched is recorded as seen
    and is excluded by the seen-filter of the second; and the second run has
    zero candidates when the first was neither capped by [partialrun] nor a
    dry run. *)
Theorem second_run_skips_seen (L : pylib) (P : peers) (self : isbg)
    (w0 w1 w2 w3 : world) (uidvalidity : Z) (inbox1 inbox2 uids1 uids2 : list string)
    (orig1 orig2 : pyval) (st : loopst) :
  scan L P self w0 = (Ret (uidvalidity, inbox1, orig1, uids1, st), w1) →
  fs w2 = fs w1 →
  candidates L P self w2 = (Ret (uidvalidity, inbox2, orig2, uids2), w3) →
  inbox2 ⊆ inbox1 →
  fetches (trace w1) = (fetches (trace w0) ++ newpastuids st)%list
  ∧ (∀ u, u ∈ newpastuids st → u ∉ uids2)
  ∧ (partialrun self = 0 → dryrun self = false → uids2 = []).
Proof.
  intros Hscan Hfs Hc2 Hsub.
  destruct (consecutive_runs _ _ _ _ _ _ _ _ _ _ _ _ _ _ _ Hscan Hfs Hc2)
    as (seen1 & seen2 & all1 & -> & Hall1 & Huids1 & Hfetch & Hdone & -> & Hseen & Huids2).
  split; [exact Hfetch |]. split.
  - intros u Hu Hin.
    assert (Hf : u ∈ List.filter (λ u, negb (seen_in seen2 u)) inbox2).
    { rewrite Huids2 in Hin. destruct (negb (partialrun self =? 0)); [| done].
      by apply py_slice_to_subseteq in Hin. }
    apply list_elem_of_In, filter_In in Hf as [_ Hf].
    assert (seen_in seen2 u = true) as Hs by (apply Hseen; by left).
    by rewrite Hs in Hf.
  - intros Hp Hd. rewrite Hp in Huids1, Huids2. cbn in Huids1, Huids2.
    rewrite Huids2. apply filter_nil_all. intros u Hu%Hsub.
    apply negb_false_iff, Hseen.
    destruct (seen_in seen1 u) eqn:Hs; [by right | left].
    rewrite (Hdone Hd), Huids1. rewrite unseen_list in Hall1. injection Hall1 as <-.
    apply list_elem_of_In, filter_In. split; [by apply list_elem_of_In |].
    by rewrite Hs.
Qed.

Lemma second_run_skips_seen_witness :
  ∃ w1 st seen w3,
    scan Concrete.lib Concrete.two_hams (Concrete.config 0 false false None [])
      Concrete.empty_world = (Ret (42, ["101"; "102"], PList [], ["101"; "102"], st), w1)
    ∧ candidates Concrete.lib Concrete.two_hams (Concrete.config 0 false false None [])
        w1 = (Ret (42, ["101"; "102"], seen, []), w3)
    ∧ fetches (trace w1) = (fetches (trace Concrete.empty_world) ++ newpastuids st)%list
    ∧ (∀ u, u ∈ newpastuids st → u ∉ @nil string)
    ∧ (0 = 0 → false = false → @nil string = []).
Proof.
  eexists _, _, _, _.
  split; [vm_compute; reflexivity |]. split; [vm_compute; reflexivity |].
  eapply (second_run_skips_seen Concrete.lib Concrete.two_hams
            (Concrete.config 0 false false None [])).
  - vm_compute; reflexivity.
  - reflexivity.
  - vm_compute; reflexivity.
  - done.
Defined.

(** C1 as stated fails under the partial-run cap: with [partialrun] 1 and
    two unseen hams, the first run returns having examined one message, and
    the second run, on the same mailbox and identity, still has a candidate. *)
Lemma idempotence_fails_under_partialrun :
  ∃ w1 w2 seen w3,
    spamassassin Concrete.lib Concrete.two_hams (Concrete.config 1 false false None [])
      Concrete.empty_world = (Ret (0, 1, 0), w1)
    ∧ spamassassin Concrete.lib Concrete.two_hams (Concrete.config 1 false false None [])
        w1 = (Ret (0, 1, 0), w2)
    ∧ candidates Concrete.lib Concrete.two_hams (Concrete.config 1 false false None [])
        w1 = (Ret (42, ["101"; "102"], seen, ["102"]), w3).
Proof.
  eexists _, _, _, _.
  repeat (split; [vm_compute; reflexivity |]). vm_compute; reflexivity.
Qed.

(** C6, as amended: in a run that is not a dry run, has [partialrun] set
    to N >= 1, finds M > N unseen candidates (the search listing no uid twice)
    and gets as far as writing its seen uids, exactly the first N candidates
    in mailbox order are fetched and recorded in the written seen uids; the
    other M - N are not recorded, and they are exactly what the seen-filter
    of the next run over the same inbox and uidvalidity lets through. *)
Theorem partial_run_cap (L : pylib) (P : peers) (self : isbg) (w0 w1 w2 w3 : world)
    (uidvalidity : Z) (inbox uids1 uids2 all : list string) (orig1 orig2 : pyval)
    (st : loopst) :
  scan L P self w0 = (Ret (uidvalidity, inbox, orig1, uids1, st), w1) →
  fs w2 = fs w1 →
  candidates L P self w2 = (Ret (uidvalidity, inbox, orig2, uids2), w3) →
  dryrun self = false →
  NoDup inbox →
  unseen inbox orig1 w0 = (Ret all, w0) →
  1 ≤ partialrun self < Z.of_nat (length all) →
  uids1 = take (Z.to_nat (partialrun self)) all
  ∧ fetches (trace w1)
    = (fetches (trace w0) ++ take (Z.to_nat (partialrun self)) all)%list
  ∧ newpastuids st = take (Z.to_nat (partialrun self)) all
  ∧ ∃ seen2 all2,
      pastuid_read self uidvalidity "inbox" w2 = (Ret (PList seen2), w2)
      ∧ (∀ u, u ∈ take (Z.to_nat (partialrun self)) all → seen_in seen2 u = true)
      ∧ (∀ u, u ∈ drop (Z.to_nat (partialrun self)) all → seen_in seen2 u = false)
      ∧ unseen inbox orig2 w3 = (Ret all2, w3)
      ∧ ∀ u, u ∈ all2 ↔ u ∈ drop (Z.to_nat (partialrun self)) all.
Proof.
  intros Hscan Hfs Hc2 Hd Hnodup Hall [Hn1 HnM].
  destruct (consecutive_runs _ _ _ _ _ _ _ _ _ _ _ _ _ _ _ Hscan Hfs Hc2)
    as (seen1 & seen2 & all1 & -> & Hall1 & Huids1 & Hfetch & Hdone & -> & Hseen & Huids2).
  rewrite Hall in Hall1. injection Hall1 as <-.
  rewrite unseen_list in Hall. injection Hall as Hall.
  assert (Hcap : uids1 = take (Z.to_nat (partialrun self)) all).
  { rewrite Huids1. destruct (partialrun self =? 0) eqn:E; [lia |]. cbn.
    unfold py_slice_to. destruct (0 <=? partialrun self) eqn:E'; [done | lia]. }
  assert (Hnd : NoDup all).
  { rewrite <- Hall. by apply NoDup_ListNoDup, List.NoDup_filter, NoDup_ListNoDup. }
  assert (Hdisj : ∀ u, u ∈ take (Z.to_nat (partialrun self)) all →
                       u ∉ drop (Z.to_nat (partialrun self)) all).
  { rewrite <- (take_drop (Z.to_nat (partialrun self)) all) in Hnd.
    apply NoDup_app in Hnd as (_ & Hnd & _). exact Hnd. }
  assert (Hunseen : ∀ u, u ∈ all → seen_in seen1 u = false ∧ u ∈ inbox).
  { intros u. rewrite <- Hall. intros [? ?%negb_true_iff]%list_elem_of_In%filter_In.
    split; [done | by apply list_elem_of_In]. }
  assert (Hseen2 : ∀ u, u ∈ drop (Z.to_nat (partialrun self)) all →
                        seen_in seen2 u = false).
  { intros u Hu. apply not_true_is_false. intros [Hnew | Hs]%Hseen.
    - rewrite (Hdone Hd), Hcap in Hnew. by apply (Hdisj u).
    - apply subseteq_drop, Hunseen in Hu as [Hu _]. congruence. }
  split; [exact Hcap |].
  split; [by rewrite Hfetch, (Hdone Hd), Hcap |].
  split; [by rewrite (Hdone Hd) |].
  apply candidates_inv in Hc2 as (Hfs3 & _ & Hread2 & all2 & Hall2 & _).
  exists seen2, all2.
  destruct (pastuid_read_total self uidvalidity "inbox" w2) as [v Hv].
  assert (v = PList seen2) as ->.
  { apply scan_inv in Hscan as (wa & wb & _ & _ & Hw).
    apply pastuid_write_inv in Hw as (name & ? & members & Hname & _ & _ & _ & Hfile).
    rewrite (pastuid_read_current self uidvalidity "inbox" name _ w2 Hname) in Hv
      by (rewrite Hfs; exact Hfile).
    rewrite (pastuid_read_current self uidvalidity "inbox" name _ w3 Hname) in Hread2
      by (rewrite Hfs3, Hfs; exact Hfile).
    congruence. }
  split; [exact Hv |].
  split. { intros u Hu. apply Hseen. left. by rewrite (Hdone Hd), Hcap. }
  split; [exact Hseen2 |]. split; [exact Hall2 |].
  rewrite unseen_list in Hall2. injection Hall2 as <-.
  intros u. rewrite list_elem_of_In, filter_In, <- list_elem_of_In, negb_true_iff. split.
  - intros [Hin Hs].
    assert (Hua : u ∈ all).
    { rewrite <- Hall. apply list_elem_of_In, filter_In.
      split; [by apply list_elem_of_In |]. apply negb_true_iff, not_true_is_false.
      intros Hs1. assert (seen_in seen2 u = true) by (apply Hseen; by right).
      congruence. }
    rewrite <- (take_drop (Z.to_nat (partialrun self)) all) in Hua.
    apply elem_of_app in Hua as [Hua | Hua]; [| done].
    assert (seen_in seen2 u = true)
      by (apply Hseen; left; by rewrite (Hdone Hd), Hcap).
    congruence.
  - intros Hu. split; [| by apply Hseen2].
    by apply subseteq_drop, Hunseen in Hu as [_ Hu].
Qed.

Lemma partial_run_cap_witness :
  ∃ w1 st seen w3,
    scan Concrete.lib Concrete.three_hams (Concrete.config 1 false false None [])
      Concrete.empty_world
      = (Ret (42, ["101"; "102"; "103"], PList [], ["101"], st), w1)
    ∧ candidates Concrete.lib Concrete.three_hams
        (Concrete.config 1 false false None []) w1
        = (Ret (42, ["101"; "102"; "103"], seen, ["102"]), w3)
    ∧ ["101"] = take (Z.to_nat 1) ["101"; "102"; "103"]
    ∧ fetches (trace w1)
      = (fetches (trace Concrete.empty_world)
         ++ take (Z.to_nat 1) ["101"; "102"; "103"])%list
    ∧ newpastuids st = take (Z.to_nat 1) ["101"; "102"; "103"]
    ∧ ∃ seen2 all2,
        pastuid_read (Concrete.config 1 false false None []) 42 "inbox" w1
          = (Ret (PList seen2), w1)
        ∧ (∀ u, u ∈ take (Z.to_nat 1) ["101"; "102"; "103"] → seen_in seen2 u = true)
        ∧ (∀ u, u ∈ drop (Z.to_nat 1) ["101"; "102"; "103"] → seen_in seen2 u = false)
        ∧ unseen ["101"; "102"; "103"] seen w3 = (Ret all2, w3)
        ∧ ∀ u, u ∈ all2 ↔ u ∈ drop (Z.to_nat 1) ["101"; "102"; "103"].
Proof.
  eexists _, _, _, _.
  split; [vm_compute; reflexivity |]. split; [vm_compute; reflexivity |].
  eapply (partial_run_cap Concrete.lib Concrete.three_hams
            (Concrete.config 1 false false None [])).
  - vm_compute; reflexivity.
  - reflexivity.
  - vm_compute; reflexivity.
  - reflexivity.
  - compute_done.
  - reflexivity.
  - cbn. lia.
Defined.

(** C6 as stated fails in a dry run: with [partialrun] 8 and nine unseen
    messages the run returns having counted eight candidates, but it fetched
    and recorded the first seven only; the eighth is not in the written seen
    uids and comes back as a candidate of the next run. *)
Lemma partial_run_cap_fails_in_dry_run :
  ∃ w1 w2 seen w3,
    spamassassin Concrete.lib Concrete.nine_hams (Concrete.config 8 true false None [])
      Concrete.empty_world = (Ret (1, 8, 0), w1)
    ∧ fetches (trace w1) = ["1"; "2"; "3"; "4"; "5"; "6"; "7"]
    ∧ pastuid_read (Concrete.config 8 true false None []) 42 "inbox" w1
      = (Ret (PList seen), w2)
    ∧ seen_in seen "8" = false
    ∧ candidates Concrete.lib Concrete.nine_hams (Concrete.config 8 true false None [])
        w1 = (Ret (42, ["1"; "2"; "3"; "4"; "5"; "6"; "7"; "8"; "9"], PList seen,
                   ["8"; "9"]), w3).
Proof.
  eexists _, _, _, _.
  repeat (split; [vm_compute; reflexivity |]). vm_compute; reflexivity.
Qed.

(** ** The decision on one message *)

(** What [imap_call] gives for each answer of the server. *)
Lemma imap_call_answer (P : peers) (e : event) (w : world) :
  imap_call P e w
  = (if String.eqb (imap_server P (trace w ++ [e])).1 "OK"
        || String.eqb (imap_server P (trace w ++ [e])).1 "NO"
     then Ret (imap_server P (trace w ++ [e])) else Raise IMAP4Error,
     World (fs w) (trace w ++ [e])).
Proof. reflexivity. Qed.

Lemma imap_call_ok (P : peers) (e : event) (w : world) :
  (imap_server P (trace w ++ [e])).1 = "OK" →
  imap_call P e w = (Ret (imap_server P (trace w ++ [e])), World (fs w) (trace w ++ [e])).
Proof. intros H. rewrite imap_call_answer, H. reflexivity. Qed.

Lemma imap_call_no (P : peers) (e : event) (w : world) :
  (imap_server P (trace w ++ [e])).1 = "NO" →
  imap_call P e w = (Ret (imap_server P (trace w ++ [e])), World (fs w) (trace w ++ [e])).
Proof. intros H. rewrite imap_call_answer, H. reflexivity. Qed.

Lemma imap_call_error (P : peers) (e : event) (w : world) :
  (imap_server P (trace w ++ [e])).1 ≠ "OK" →
  (imap_server P (trace w ++ [e])).1 ≠ "NO" →
  imap_call P e w = (Raise IMAP4Error, World (fs w) (trace w ++ [e])).
Proof.
  intros Hok%String.eqb_neq Hno%String.eqb_neq. by rewrite imap_call_answer, Hok, Hno.
Qed.

Lemma assertok_outcome (L : pylib) (res : response) (args0 : string) (w : world) :
  py_str_in "fetch" args0 = false →
  ISBGImap._assertok L res args0 w
  = (if String.eqb res.1 "OK" then Ret tt else Raise ISBGImapError, w).
Proof.
  unfold ISBGImap._assertok. intros ->. unfold bind, ret, raise.
  by destruct (String.eqb res.1 "OK").
Qed.

(** A COPY the server accepts. *)
Lemma copy_accepted (L : pylib) (P : peers) (u mailbox : string) (w : world) :
  (imap_server P (trace w ++ [ImapCopy u mailbox])).1 = "OK" →
  ISBGImap.copy L P u mailbox w
  = (Ret (imap_server P (trace w ++ [ImapCopy u mailbox])),
     World (fs w) (trace w ++ [ImapCopy u mailbox])).
Proof.
  intros Hok. unfold ISBGImap.copy, bind. rewrite (imap_call_ok _ _ _ Hok).
  rewrite assertok_outcome by reflexivity. cbn [trace]. by rewrite Hok.
Qed.

(** A COPY the server refuses. *)
Lemma copy_refused (L : pylib) (P : peers) (u mailbox : string) (w : world) :
  (imap_server P (trace w ++ [ImapCopy u mailbox])).1 = "NO" →
  ISBGImap.copy L P u mailbox w
  = (Raise ISBGImapError, World (fs w) (trace w ++ [ImapCopy u mailbox])).
Proof.
  intros Hno. unfold ISBGImap.copy, bind. rewrite (imap_call_no _ _ _ Hno).
  rewrite assertok_outcome by reflexivity. cbn [trace]. by rewrite Hno.
Qed.

(** How the report step ends, case by case. *)
Lemma report_dry (L : pylib) (P : peers) (self : isbg) (u body : string)
    (st : loopst) (w : world) :
  dryrun self = true →
  ∃ msg, report L P self u body st w
         = (Ret (LoopSt (newpastuids st) (spamlist st ++ [u]) (spamdeletelist st)
                   (processednum st)),
            World (fs w) (trace w ++ [LogInfo msg])).
Proof.
  intros Hd. unfold report. rewrite Hd. destruct (noreport self); eexists; reflexivity.
Qed.

Lemma report_copies (L : pylib) (P : peers) (self : isbg) (u body : string)
    (st : loopst) (w : world) :
  noreport self = true →
  dryrun self = false →
  (imap_server P (trace w ++ [ImapCopy u (spaminbox self)])).1 = "OK" →
  report L P self u body st w
  = (Ret (LoopSt (newpastuids st) (spamlist st ++ [u]) (spamdeletelist st)
            (processednum st)),
     World (fs w) (trace w ++ [ImapCopy u (spaminbox self)])).
Proof.
  intros Hn Hd Hok. unfold report. rewrite Hn, Hd. cbn [negb].
  unfold bind. by rewrite (copy_accepted L P _ _ _ Hok).
Qed.

Lemma report_save (L : pylib) (P : peers) (self : isbg) (u body : string)
    (st : loopst) (w : world) :
  noreport self = false →
  dryrun self = false →
  report L P self u body st w
  = match run_process P (trace w ++ [Spawn (sasave self) body]) with
    | SpawnError =>
        (Raise OSError, World (fs w) (trace w ++ [Spawn (sasave self) body]))
    | CommError =>
        (Ret st, World (fs w) (trace w ++ [Spawn (sasave self) body;
                                           LogException "Error communicating with {}!"]))
    | Exited _ _ =>
        (Raise TypeError, World (fs w) (trace w ++ [Spawn (sasave self) body]))
    end.
Proof.
  intros Hn Hd. unfold report. rewrite Hn, Hd. cbn [negb].
  unfold bind at 1. unfold popen. cbn beta iota zeta. cbn [trace].
  destruct (run_process P _) as [| | out c]; try reflexivity.
  unfold bind, emit. cbn. by rewrite <- app_assoc.
Qed.

Lemma Qgtb_spec (x y : Q) : Qgtb x y = true ↔ (y < x)%Q.
Proof.
  unfold Qgtb. rewrite negb_true_iff, <- not_true_iff_false, Qle_bool_iff.
  split; [apply Qnot_le_lt | apply Qlt_not_le].
Qed.

(** Equal floats are not ordered. *)
Lemma float_eq_not_gt (x y : pyfloat) : float_eq x y = true → float_gt x y = false.
Proof.
  destruct x as [a | | |], y as [b | | |]; cbn; try done.
  intros Heq%Qeq_bool_iff. apply not_true_iff_false. rewrite Qgtb_spec, Heq.
  apply Qlt_irrefl.
Qed.

(** What [act] does with a spam whose score can be read. *)
Lemma act_spam (L : pylib) (P : peers) (self : isbg) (u body score : string)
    (code : Z) (st : loopst) (w : world) (x threshold : pyfloat) :
  code ≠ 0 →
  score ≠ "0/0" ++ nl →
  deletehigherthan self = Some threshold →
  py_float L (before_slash score) = Some x →
  act L P self u body score code st w
  = if float_gt x threshold
    then (Ret (LoopSt (newpastuids st) (spamlist st) (spamdeletelist st ++ [u])
                 (processednum st)), w)
    else report L P self u body st w.
Proof.
  intros Hcode Hscore Hthr Hx.
  unfold act. apply String.eqb_neq in Hscore. rewrite Hscore.
  apply Z.eqb_neq in Hcode. unfold bind at 1. cbn. rewrite Hcode, Hthr, Hx.
  unfold bind. cbn. by destruct (float_gt x threshold).
Qed.

(** C5: the comparison with [deletehigherthan] is strict, so a spam whose
    parsed score equals the threshold is kept off the delete list and handed
    to the report step, while a strictly greater score, and only that, puts
    it on the delete list. In a dry run the tie message is listed; with
    [--noreport] it is copied to the spam folder and listed. With the report
    on, which is the default, it is neither appended nor listed: once the
    save process has answered, [crnlify] is called on [bytes] and raises
    TypeError before any APPEND. *)
Theorem tie_report_raises (L : pylib) (P : peers) (self : isbg)
    (u body score : string) (code : Z) (st : loopst) (w : world)
    (x threshold : pyfloat) :
  code ≠ 0 →
  score ≠ "0/0" ++ nl →
  deletehigherthan self = Some threshold →
  py_float L (before_slash score) = Some x →
  (float_gt x threshold = true →
     act L P self u body score code st w
     = (Ret (LoopSt (newpastuids st) (spamlist st) (spamdeletelist st ++ [u])
               (processednum st)), w))
  ∧ (float_eq x threshold = true →
     act L P self u body score code st w = report L P self u body st w
     ∧ (dryrun self = true →
        ∃ msg, act L P self u body score code st w
               = (Ret (LoopSt (newpastuids st) (spamlist st ++ [u])
                         (spamdeletelist st) (processednum st)),
                  World (fs w) (trace w ++ [LogInfo msg])))
     ∧ (noreport self = true → dryrun self = false →
        (imap_server P (trace w ++ [ImapCopy u (spaminbox self)])).1 = "OK" →
        act L P self u body score code st w
        = (Ret (LoopSt (newpastuids st) (spamlist st ++ [u]) (spamdeletelist st)
                  (processednum st)),
           World (fs w) (trace w ++ [ImapCopy u (spaminbox self)])))
     ∧ (noreport self = false → dryrun self = false →
        ∀ out returncode,
          run_process P (trace w ++ [Spawn (sasave self) body])
            = Exited out returncode →
          act L P self u body score code st w
          = (Raise TypeError,
             World (fs w) (trace w ++ [Spawn (sasave self) body]))))
  ∧ (∀ st' w', act L P self u body score code st w = (Ret st', w') →
       (spamdeletelist st' = (spamdeletelist st ++ [u])%list
        ↔ float_gt x threshold = true)).
Proof.
  intros Hcode Hscore Hthr Hx.
  pose proof (act_spam L P self u body score code st w x threshold
                Hcode Hscore Hthr Hx) as Hact.
  split; [| split].
  - intros Hgt. by rewrite Hact, Hgt.
  - intros Htie%float_eq_not_gt. rewrite Htie in Hact. rewrite Hact.
    split; [done |]. split; [| split].
    + by apply report_dry.
    + by apply report_copies.
    + intros Hn Hd out rc Hproc. by rewrite report_save, Hproc.
  - intros st' w'. rewrite Hact. destruct (float_gt x threshold).
    + intros [= <- <-]. done.
    + intros Hr. apply report_ret in Hr as (_ & -> & _). split; [| done].
      intros Habs. apply (f_equal length) in Habs. rewrite length_app in Habs.
      cbn in Habs. lia.
Qed.

Lemma tie_report_raises_witness :
  act Concrete.lib Concrete.scenario (Concrete.config 0 false false (Some 5%Q) [])
    "102" "mail 102" ("5/10" ++ nl) 1 (LoopSt ["102"] [] [] 0) Concrete.empty_world
  = (Raise TypeError,
     World (fs Concrete.empty_world)
       (trace Concrete.empty_world ++ [Spawn ["spamassassin"] "mail 102"])).
Proof.
  destruct (tie_report_raises Concrete.lib Concrete.scenario
              (Concrete.config 0 false false (Some 5%Q) []) "102" "mail 102"
              ("5/10" ++ nl) 1 (LoopSt ["102"] [] [] 0) Concrete.empty_world
              (Finite 5) (Finite 5)) as (_ & Htie & _).
  - lia.
  - discriminate.
  - reflexivity.
  - reflexivity.
  - destruct (Htie eq_refl) as (_ & _ & _ & Hreport).
    apply (Hreport eq_refl eq_refl ("X-Spam-Flag: YES" ++ nl ++ "mail 102") 0).
    reflexivity.
Defined.

(** ** Fatal classifier output *)

Lemma bind_exit_eq {A B} (m : M A) (k : A → M B) (w w1 : world) (c : Z) :
  m w = (SysExit c, w1) → bind m k w = (SysExit c, w1).
Proof. unfold bind. intros ->. reflexivity. Qed.

(** Outside a dry run the loop never breaks: a list of candidates is gone
    through piece by piece. *)
Lemma loop_app (L : pylib) (P : peers) (self : isbg) (pre rest : list string) :
  dryrun self = false →
  ∀ (st st1 : loopst) (w w1 : world),
    loop L P self pre st w = (Ret st1, w1) →
    loop L P self (pre ++ rest) st w = loop L P self rest st1 w1.
Proof.
  intros Hd. induction pre as [| u pre IH]; intros st st1 w w1; cbn [loop app].
  - intros [= <- <-]. done.
  - intros H. apply bind_ret_inv in H as ([b st'] & w' & Hbody & H).
    rewrite (bind_ret_eq _ _ _ _ _ Hbody).
    apply loop_body_effect in Hbody as (_ & _ & Hb).
    destruct (Hb b st' eq_refl) as [_ Hfalse]. rewrite (Hfalse Hd) in H |- *.
    cbn in H |- *. by apply IH.
Qed.

(** C7: when the test process answers a candidate with the score text
    ["0/0\n"], the run ends there with exit status 12, whatever the exit code
    of the process: the candidates after it are not fetched and no seen uid
    is written. *)
Theorem degenerate_score_aborts (L : pylib) (P : peers) (self : isbg)
    (w0 wa wb wc : world) (uidvalidity : Z) (inboxuids pre post : list string)
    (origpastuids : pyval) (u body out : string) (code : Z) (st : loopst) :
  dryrun self = false →
  candidates L P self w0
    = (Ret (uidvalidity, inboxuids, origpastuids, (pre ++ u :: post)%list), wa) →
  loop L P self pre (LoopSt [] [] [] 0) wa = (Ret st, wb) →
  ISBGImap.getmessage L P u wb = (Ret body, wc) →
  run_process P (trace wc ++ [Spawn (satest self)
                                match unwrap L body with
                                | Some (first :: _) => first
                                | _ => body
                                end])%list
    = Exited out code →
  read_score L self out = Some ("0/0" ++ nl) →
  ∃ w', spamassassin L P self w0 = (SysExit 12, w')
        ∧ fetches (trace w') = (fetches (trace w0) ++ pre ++ [u])%list
        ∧ fs w' = fs w0.
Proof.
  intros Hd Hc Hpre Hget Hproc Hscore.
  set (body' := match unwrap L body with Some (first :: _) => first | _ => body end) in *.
  set (w' := World (fs wc)
               (trace wc ++ [Spawn (satest self) body';
                             Stderr "spamc -> spamd error - aborting";
                             Stderr "
Use --help to see valid options and arguments
"])%list).
  assert (Hbody : loop_body L P self u st wb = (SysExit 12, w')).
  { unfold loop_body. rewrite (bind_ret_eq _ _ _ _ _ Hget). cbn zeta. fold body'.
    unfold classify. rewrite Hd. unfold bind at 1. unfold bind at 1.
    unfold popen. cbn beta iota zeta. cbn [trace]. rewrite Hproc, Hscore.
    apply bind_exit_eq. unfold act. rewrite String.eqb_refl.
    apply bind_exit_eq. unfold errorexit, exitcodespamc, bind, emit, sys_exit. cbn.
    unfold w'. rewrite <- !app_assoc. reflexivity. }
  exists w'. split; [| split].
  - unfold spamassassin. apply bind_exit_eq. unfold scan.
    rewrite (bind_ret_eq _ _ _ _ _ Hc). cbn beta iota. apply bind_exit_eq.
    rewrite (loop_app L P self pre (u :: post) Hd _ _ _ _ Hpre). cbn [loop].
    by apply bind_exit_eq.
  - apply candidates_inv in Hc as (_ & Hfa & _).
    apply loop_effect in Hpre as (_ & fetched & _ & Hfb & Hst).
    destruct (Hst st eq_refl) as [_ Hall]. rewrite (Hall Hd) in Hfb.
    apply getmessage_effect in Hget as [_ Hfc].
    unfold w'. cbn. unfold fetches in *. rewrite omap_app. cbn.
    rewrite app_nil_r, Hfc, Hfb, Hfa, <- app_assoc. done.
  - apply candidates_inv in Hc as (Hfa & _).
    apply loop_effect in Hpre as (Hfb & _).
    apply getmessage_effect in Hget as [Hfc _]. cbn. congruence.
Qed.

Lemma degenerate_score_aborts_witness :
  ∃ w', spamassassin Concrete.lib Concrete.unreachable Concrete.spamc_config
          Concrete.empty_world = (SysExit 12, w')
        ∧ fetches (trace w')
          = (fetches (trace Concrete.empty_world) ++ ["101"] ++ ["102"])%list
        ∧ fs w' = fs Concrete.empty_world.
Proof.
  eapply (degenerate_score_aborts Concrete.lib Concrete.unreachable
            Concrete.spamc_config Concrete.empty_world _ _ _ _ _ ["101"] ["103"]
            _ "102").
  - reflexivity.
  - vm_compute; reflexivity.
  - vm_compute; reflexivity.
  - vm_compute; reflexivity.
  - vm_compute; reflexivity.
  - reflexivity.
Defined.

(** ** The counters and the marking of the originals *)

(** A run that returns reports the number of candidates left by the filter
    and the cap, the length of the two lists together, and the length of the
    delete list. *)
Lemma spamassassin_counters (L : pylib) (P : peers) (self : isbg) (w w' : world)
    (numspam nummsg spamdeleted : Z) :
  spamassassin L P self w = (Ret (numspam, nummsg, spamdeleted), w') →
  ∃ uidvalidity inboxuids origpastuids uids st w1,
    scan L P self w = (Ret (uidvalidity, inboxuids, origpastuids, uids, st), w1)
    ∧ nummsg = Z.of_nat (length uids)
    ∧ spamdeleted = Z.of_nat (length (spamdeletelist st))
    ∧ numspam = Z.of_nat (length (spamlist st)) + Z.of_nat (length (spamdeletelist st)).
Proof.
  unfold spamassassin. intros H.
  apply bind_ret_inv in H as ([[[[uv inbox] orig] uids] st] & w1 & Hscan & H).
  apply bind_ret_inv in H as ([] & w2 & _ & H).
  apply ret_inv in H as [[= <- <- <-] _].
  by exists uv, inbox, orig, uids, st, w1.
Qed.

(** C4 at its scenario: candidates 101, 102 and 103, nothing seen before,
    101 ham, 102 spam with 5/10, 103 spam with 12/10, [deletehigherthan] 10.
    With the default settings the run raises TypeError at message 102, in
    [crnlify] on the answer of the save process: nothing is appended, 103 is
    never fetched, no seen uid is written and no counters are returned. With
    [--noreport] the loop and the write of the seen uids go through, and the
    run raises TypeError at the [store] call for the delete list. Only with
    [--noreport] in gmail mode does the run return spam 2, total 3,
    deleted 1; 103 is then copied to the trash and never to the spam
    folder. *)
Theorem scenario_counters :
  (∃ w, spamassassin Concrete.lib Concrete.scenario
          (Concrete.config 0 false false (Some 10%Q) []) Concrete.empty_world
        = (Raise TypeError, w)
        ∧ trace w
          = [ImapSelect "INBOX.spam" true; ImapSelect "INBOX" true;
             ImapStatus "INBOX"; ImapSearch "SMALLER" ["120000"];
             ImapFetch "101"; Spawn ["spamassassin"; "--exit-code"] "mail 101";
             ImapFetch "102"; Spawn ["spamassassin"; "--exit-code"] "mail 102";
             Spawn ["spamassassin"] "mail 102"]
        ∧ fs w = ∅)
  ∧ (∃ w, spamassassin Concrete.lib Concrete.scenario
            (Concrete.without_report (Concrete.config 0 false false (Some 10%Q) []))
            Concrete.empty_world
          = (Raise TypeError, w)
          ∧ trace w
            = [ImapSelect "INBOX.spam" true; ImapSelect "INBOX" true;
               ImapStatus "INBOX"; ImapSearch "SMALLER" ["120000"];
               ImapFetch "101"; Spawn ["spamassassin"; "--exit-code"] "mail 101";
               ImapFetch "102"; Spawn ["spamassassin"; "--exit-code"] "mail 102";
               ImapCopy "102" "INBOX.spam";
               ImapFetch "103"; Spawn ["spamassassin"; "--exit-code"] "mail 103";
               ImapSelect "INBOX" true])
  ∧ (∃ w, spamassassin Concrete.lib Concrete.scenario
            (Concrete.without_report (Concrete.config 0 false true (Some 10%Q) []))
            Concrete.empty_world
          = (Ret (2, 3, 1), w)
          ∧ trace w
            = [ImapSelect "INBOX.spam" true; ImapSelect "INBOX" true;
               ImapStatus "INBOX"; ImapSearch "SMALLER" ["120000"];
               ImapFetch "101"; Spawn ["spamassassin"; "--exit-code"] "mail 101";
               ImapFetch "102"; Spawn ["spamassassin"; "--exit-code"] "mail 102";
               ImapCopy "102" "INBOX.spam";
               ImapFetch "103"; Spawn ["spamassassin"; "--exit-code"] "mail 103";
               ImapSelect "INBOX" true; ImapCopy "103" "[Gmail]/Trash"]).
Proof.
  split; [| split].
  - eexists. split; [| split]; vm_compute; reflexivity.
  - eexists. split; vm_compute; reflexivity.
  - eexists. split; vm_compute; reflexivity.
Qed.

(** C8 on two runs that reach the marking step, both with [--noreport]:
    with the flag set [\Flagged] and the spams 102 and 103 on the spam list,
    and with 103 on the delete list outside gmail mode. Both write the seen
    uids, re-select the inbox and then raise, NameError in [_imapflags] and
    TypeError at the four-argument call of [store]; no STORE command reaches
    the server and nothing is expunged. *)
Theorem marking_raises :
  (∃ w, spamassassin Concrete.lib Concrete.scenario
          (Concrete.without_report (Concrete.config 0 false false None ["\Flagged"]))
          Concrete.empty_world
        = (Raise NameError, w)
        ∧ trace w
          = [ImapSelect "INBOX.spam" true; ImapSelect "INBOX" true;
             ImapStatus "INBOX"; ImapSearch "SMALLER" ["120000"];
             ImapFetch "101"; Spawn ["spamassassin"; "--exit-code"] "mail 101";
             ImapFetch "102"; Spawn ["spamassassin"; "--exit-code"] "mail 102";
             ImapCopy "102" "INBOX.spam";
             ImapFetch "103"; Spawn ["spamassassin"; "--exit-code"] "mail 103";
             ImapCopy "103" "INBOX.spam";
             ImapSelect "INBOX" true]
        ∧ stores (trace w) = [])
  ∧ (∃ w, spamassassin Concrete.lib Concrete.scenario
            (Concrete.without_report (Concrete.config 0 false false (Some 10%Q) []))
            Concrete.empty_world
          = (Raise TypeError, w)
          ∧ last (trace w) = Some (ImapSelect "INBOX" true)
          ∧ stores (trace w) = []).
Proof.
  split; eexists; (split; [| split]); vm_compute; reflexivity.
Qed.

(** C9: [set_learning_opts] refuses the two switches together, but
    [parse_args], which is what the command line goes through, stores both
    without a check and returns. *)
Theorem parse_args_accepts_both :
  set_learning_opts init true true false false Concrete.empty_world
    = (Raise ValueError, Concrete.empty_world)
  ∧ ∃ self, parse_args Concrete.lib init (Ret Concrete.both_learn_opts)
              Concrete.empty_world
            = (Ret self, Concrete.empty_world)
            ∧ learnflagged self = true
            ∧ learnunflagged self = true.
Proof.
  split; [reflexivity |]. eexists. split; [vm_compute; reflexivity |]. done.
Qed.

(** C10: when message 102 has vanished, imaplib answers its fetch with
    [("OK", [None])]; [getmessage] raises (TypeError out of [shorten], and
    AttributeError out of the handler when the data list is empty), and so
    does the run: message 103 is never fetched, no warning is logged and no
    seen uid is written. *)
Theorem vanished_message_aborts :
  (ISBGImap.getmessage Concrete.lib Concrete.vanishing "102" Concrete.empty_world).1
    = Raise TypeError
  ∧ (ISBGImap.getmessage Concrete.lib Concrete.hollow "102" Concrete.empty_world).1
    = Raise AttributeError
  ∧ ∃ w, spamassassin Concrete.lib Concrete.vanishing
           (Concrete.config 0 false false None []) Concrete.empty_world
         = (Raise TypeError, w)
         ∧ fetches (trace w) = ["101"; "102"]
         ∧ warnings (trace w) = []
         ∧ fs w = ∅.
Proof.
  split; [vm_compute; reflexivity |]. split; [vm_compute; reflexivity |].
  eexists. split; [vm_compute; reflexivity |].
  split; [vm_compute; reflexivity |]. split; vm_compute; reflexivity.
Qed.

(** * Further properties of the code *)

(** ** [crnlify] *)

Lemma crnl_sub_cr (rest : string) :
  crnl_sub (String "013" rest) = String "013" (crnl_sub rest).
Proof. destruct rest as [| n rest]; reflexivity. Qed.

Lemma crnl_sub_match (c : ascii) (rest : string) :
  c ≠ "013"%char →
  crnl_sub (String c (String "010" rest))
    = String c (String "013" (String "010" (crnl_sub rest))).
Proof. intros Hc%Ascii.eqb_neq. cbn [crnl_sub]. rewrite Hc. reflexivity. Qed.

Lemma crnl_sub_other (c n : ascii) (rest : string) :
  n ≠ "010"%char →
  crnl_sub (String c (String n rest)) = String c (crnl_sub (String n rest)).
Proof.
  intros Hn%Ascii.eqb_neq. cbn [crnl_sub]. rewrite Hn, andb_false_r. reflexivity.
Qed.

Lemma crnl_sub_head (n : ascii) (rest : string) :
  ∃ t, crnl_sub (String n rest) = String n t.
Proof.
  destruct rest as [| m rest]; [by eexists |]. cbn [crnl_sub].
  destruct (_ && _); by eexists.
Qed.

(** A text without bare line feeds is left as it is by one pass. *)
Lemma crnl_sub_fixed (text : string) :
  ∀ after_cr, no_bare_lf after_cr text = true → crnl_sub text = text.
Proof.
  induction text as [| c text IH]; intros b H; [reflexivity |].
  cbn [no_bare_lf] in H. apply andb_true_iff in H as [_ H].
  destruct text as [| n rest]; [reflexivity |].
  destruct (Ascii.eqb_spec n "010"%char) as [-> | Hn].
  - cbn [no_bare_lf] in H. apply andb_true_iff in H as [Hc H']. cbn in Hc.
    apply Ascii.eqb_eq in Hc as ->. rewrite crnl_sub_cr. f_equal.
    apply (IH true). cbn [no_bare_lf]. by rewrite H'.
  - rewrite crnl_sub_other by done. f_equal. by apply (IH (Ascii.eqb c "013"%char)).
Qed.

Lemma no_bare_lf_cr (b : bool) (t : string) :
  no_bare_lf b (String "013" t) = no_bare_lf true t.
Proof. reflexivity. Qed.

Lemma no_bare_lf_lf (b : bool) (t : string) :
  no_bare_lf b (String "010" t) = b && no_bare_lf false t.
Proof. reflexivity. Qed.

Lemma no_bare_lf_other (b : bool) (c : ascii) (t : string) :
  c ≠ "010"%char → c ≠ "013"%char →
  no_bare_lf b (String c t) = no_bare_lf false t.
Proof.
  intros H1%Ascii.eqb_neq H2%Ascii.eqb_neq. cbn [no_bare_lf]. by rewrite H1, H2.
Qed.

(** A character that is no carriage return, before text that may start
    with a line feed only if the character is allowed to. *)
Lemma no_bare_lf_cons (b : bool) (c : ascii) (t : string) :
  c ≠ "013"%char →
  (c = "010"%char → b = true) →
  no_bare_lf false t = true →
  no_bare_lf b (String c t) = true.
Proof.
  intros Hcr Hlf Ht. destruct (Ascii.eqb_spec c "010"%char) as [-> | Hc].
  - rewrite no_bare_lf_lf, Ht, Hlf by done. reflexivity.
  - by rewrite no_bare_lf_other.
Qed.

(** The second pass over what the first made of a text. *)
Lemma crnl_twice_match (c : ascii) (rest : string) :
  c ≠ "013"%char →
  crnl_sub (crnl_sub (String c (String "010" rest)))
    = String c (String "013" (crnl_sub (String "010" (crnl_sub rest)))).
Proof.
  intros Hc. rewrite (crnl_sub_match c) by done.
  rewrite (crnl_sub_other c "013") by done. by rewrite crnl_sub_cr.
Qed.

Lemma crnl_twice_other (c m : ascii) (rest : string) :
  c = "013"%char ∨ m ≠ "010"%char →
  crnl_sub (crnl_sub (String c (String m rest)))
    = String c (crnl_sub (crnl_sub (String m rest))).
Proof.
  destruct (crnl_sub_head m rest) as [t Ht].
  destruct (Ascii.eqb_spec c "013"%char) as [-> | Hc].
  - intros _. by rewrite !crnl_sub_cr.
  - intros [? | Hm]; [done |]. rewrite (crnl_sub_other c m) by done.
    rewrite Ht. rewrite (crnl_sub_other c m) by done. reflexivity.
Qed.

(** The second pass started on a line feed put before the first pass's
    output. *)
Lemma crnl_after_lf_other (c : ascii) (rest : string) :
  c ≠ "010"%char →
  crnl_sub (String "010" (crnl_sub (String c rest)))
    = String "010" (crnl_sub (crnl_sub (String c rest))).
Proof.
  intros Hc. destruct (crnl_sub_head c rest) as [t Ht]. rewrite Ht.
  by rewrite (crnl_sub_other "010" c).
Qed.

Lemma crnl_after_lf_match (rest : string) :
  crnl_sub (String "010" (crnl_sub (String "010" (String "010" rest))))
    = String "010" (String "013" (String "010" (String "013"
        (crnl_sub (String "010" (crnl_sub rest)))))).
Proof.
  rewrite (crnl_sub_match "010" rest) by done.
  rewrite (crnl_sub_match "010") by done. by rewrite crnl_sub_cr.
Qed.

Lemma crnl_after_lf_single (m : ascii) (rest : string) :
  m ≠ "010"%char →
  crnl_sub (String "010" (crnl_sub (String "010" (String m rest))))
    = String "010" (String "013" (String "010"
        (crnl_sub (crnl_sub (String m rest))))).
Proof.
  intros Hm. rewrite (crnl_sub_other "010" m) by done.
  by rewrite (crnl_sub_match "010") by done.
Qed.

(** Two passes: what holds of [crnl_sub (crnl_sub s)], and of the second
    pass started on a line feed that the first pass has put after a carriage
    return. *)
Lemma crnl_twice (n : nat) :
  ∀ s, (String.length s ≤ n)%nat →
    no_bare_lf true (crnl_sub (crnl_sub s)) = true
    ∧ (String.get 0 s ≠ Some "010"%char →
       no_bare_lf false (crnl_sub (crnl_sub s)) = true)
    ∧ no_bare_lf true (crnl_sub (String "010" (crnl_sub s))) = true.
Proof.
  induction n as [| n IH]; intros s Hlen.
  { destruct s; [by repeat split | cbn in Hlen; lia]. }
  destruct s as [| c [| m rest]].
  - by repeat split.
  - change (crnl_sub (String c "")) with (String c "").
    destruct (Ascii.eqb_spec c "010"%char) as [-> | Hc].
    + split; [reflexivity |]. split; [intros H; by destruct H | reflexivity].
    + rewrite (crnl_sub_other "010" c) by done.
      change (crnl_sub (String c "")) with (String c "").
      destruct (Ascii.eqb_spec c "013"%char) as [-> | Hc']; [by repeat split |].
      rewrite no_bare_lf_lf, !no_bare_lf_other by done. by repeat split.
  - cbn in Hlen.
    destruct (IH rest ltac:(lia)) as (_ & _ & IHh).
    destruct (IH (String m rest) ltac:(cbn; lia)) as (IHa & IHb & _).
    assert (Hm0 : m ≠ "010"%char → String.get 0 (String m rest) ≠ Some "010"%char)
      by (intros Hm [=]; done).
    destruct (Ascii.eqb_spec c "013"%char) as [-> | Hc].
    { (* a carriage return is copied *)
      rewrite crnl_twice_other by (by left). rewrite !no_bare_lf_cr.
      split; [exact IHa |]. split; [intros _; exact IHa |].
      rewrite crnl_after_lf_other by done. rewrite crnl_twice_other by (by left).
      rewrite no_bare_lf_lf, no_bare_lf_cr. exact IHa. }
    destruct (Ascii.eqb_spec m "010"%char) as [-> | Hm].
    + (* the first pass inserts a carriage return after [c] *)
      rewrite crnl_twice_match by done.
      assert (Hg : ∀ b, (c = "010"%char → b = true) →
                        no_bare_lf b (String c (String "013"
                          (crnl_sub (String "010" (crnl_sub rest))))) = true).
      { intros b Hb. destruct (Ascii.eqb_spec c "010"%char) as [-> | Hc'].
        - by rewrite no_bare_lf_lf, no_bare_lf_cr, IHh, Hb.
        - by rewrite no_bare_lf_other, no_bare_lf_cr. }
      split; [by apply Hg |].
      split; [intros Hp; apply Hg; intros ->; by destruct Hp |].
      destruct (Ascii.eqb_spec c "010"%char) as [-> | Hc'].
      * rewrite crnl_after_lf_match.
        by rewrite no_bare_lf_lf, no_bare_lf_cr, no_bare_lf_lf, no_bare_lf_cr.
      * rewrite crnl_after_lf_other by done. rewrite crnl_twice_match by done.
        rewrite no_bare_lf_lf. by apply Hg.
    + (* nothing to insert: [c] is copied *)
      specialize (IHb (Hm0 Hm)).
      rewrite crnl_twice_other by (by right).
      split; [by apply no_bare_lf_cons |].
      split; [intros Hp; apply no_bare_lf_cons; try done; intros ->; by destruct Hp |].
      destruct (Ascii.eqb_spec c "010"%char) as [-> | Hc'].
      * rewrite crnl_after_lf_single by done.
        by rewrite no_bare_lf_lf, no_bare_lf_cr, no_bare_lf_lf.
      * rewrite crnl_after_lf_other by done. rewrite crnl_twice_other by (by right).
        rewrite no_bare_lf_lf. by apply no_bare_lf_cons.
Qed.

Lemma no_bare_lf_get (text : string) :
  ∀ after_cr i, no_bare_lf after_cr text = true →
    String.get (S i) text = Some "010"%char → String.get i text = Some "013"%char.
Proof.
  induction text as [| c text IH]; intros b i H; [discriminate |].
  cbn [no_bare_lf] in H. apply andb_true_iff in H as [_ H].
  destruct i as [| i].
  - cbn. destruct text as [| n rest]; [discriminate |]. intros [= ->].
    cbn in H. apply andb_true_iff in H as [Hc%Ascii.eqb_eq _]. by rewrite Hc.
  - intros Hget. apply (IH _ i H). exact Hget.
Qed.

Lemma no_bare_lf_of_get (text : string) :
  ∀ after_cr,
    (after_cr = true ∨ String.get 0 text ≠ Some "010"%char) →
    (∀ i, String.get (S i) text = Some "010"%char →
          String.get i text = Some "013"%char) →
    no_bare_lf after_cr text = true.
Proof.
  induction text as [| c text IH]; intros b Hb H; [reflexivity |].
  cbn [no_bare_lf]. apply andb_true_iff. split.
  - destruct (Ascii.eqb_spec c "010"%char) as [-> | Hc]; [| done].
    destruct Hb as [-> | Hb]; [done | by destruct Hb].
  - apply IH.
    + destruct (Ascii.eqb_spec c "013"%char) as [-> | Hc]; [by left | right].
      intros Hget. specialize (H 0%nat Hget). cbn in H. congruence.
    + intros i Hi. exact (H (S i) Hi).
Qed.

(** X1: in the text [crnlify] returns, every line feed that is not the
    very first character comes right after a carriage return. *)
Theorem crnlify_no_bare_lf (text : string) (i : nat) :
  String.get (S i) (crnlify text) = Some "010"%char →
  String.get i (crnlify text) = Some "013"%char.
Proof.
  apply (no_bare_lf_get _ true). unfold crnlify.
  by destruct (crnl_twice (String.length text) text) as (H & _).
Qed.

Lemma crnlify_no_bare_lf_witness :
  String.get 1 (crnlify ("a" ++ nl ++ "b")) = Some "013"%char.
Proof. apply crnlify_no_bare_lf. reflexivity. Defined.

(** X2: [crnlify] changes a text exactly when some line feed of it, other
    than a first character, lacks its carriage return; applying it a second
    time changes nothing. *)
Theorem crnlify_fixed_points (text : string) :
  (crnlify text = text
   ↔ ∀ i, String.get (S i) text = Some "010"%char →
          String.get i text = Some "013"%char)
  ∧ crnlify (crnlify text) = crnlify text.
Proof.
  assert (Hfix : ∀ t, no_bare_lf true t = true → crnlify t = t).
  { intros t Ht. unfold crnlify. by rewrite !(crnl_sub_fixed t true Ht). }
  split; [split |].
  - intros <- i. apply crnlify_no_bare_lf.
  - intros H. apply Hfix, no_bare_lf_of_get; [by left | exact H].
  - apply Hfix. unfold crnlify.
    by destruct (crnl_twice (String.length text) text) as (H & _).
Qed.

(** ** The password file *)

Lemma format_02x_byte (n : N) :
  (n < 256)%N →
  ∃ a b high low,
    format_02x n = String a (String b EmptyString)
    ∧ hexdigit a = Ret high ∧ hexdigit b = Ret low
    ∧ (16 * high + low)%N = n.
Proof.
  intros Hn.
  assert (Hall : forallb (λ k,
            match format_02x k with
            | String a (String b EmptyString) =>
                match hexdigit a, hexdigit b with
                | Ret high, Ret low => (16 * high + low =? k)%N
                | _, _ => false
                end
            | _ => false
            end) (N.of_nat <$> seq 0 256) = true) by (vm_compute; reflexivity).
  rewrite forallb_forall in Hall.
  specialize (Hall n). rewrite <- list_elem_of_In in Hall.
  assert (Hin : n ∈ N.of_nat <$> seq 0 256).
  { apply list_elem_of_fmap. exists (N.to_nat n). split; [lia |].
    apply elem_of_seq. lia. }
  specialize (Hall Hin).
  destruct (format_02x n) as [| a [| b [| ? ?]]]; try discriminate.
  destruct (hexdigit a) as [high | |] eqn:Ha; try discriminate.
  destruct (hexdigit b) as [low | |] eqn:Hb; try discriminate.
  apply N.eqb_eq in Hall. exists a, b, high, low. by repeat split.
Qed.

(** X3: [dehexof] undoes [hexof] on every text whose characters are below
    256. *)
Theorem dehexof_hexof (x : list N) :
  Forall (λ c, (c < 256)%N) x → dehexof (hexof x) = Ret x.
Proof.
  induction 1 as [| c x Hc _ IH]; [reflexivity |].
  destruct (format_02x_byte c Hc) as (a & b & high & low & Hf & Ha & Hb & Hv).
  cbn [hexof]. rewrite Hf.
  change (dehexof (String a (String b (hexof x))) = Ret (c :: x)).
  cbn [dehexof]. by rewrite Ha, Hb, IH, Hv.
Qed.

Lemma dehexof_hexof_witness : dehexof (hexof [104; 105; 255]%N) = Ret [104; 105; 255]%N.
Proof. apply dehexof_hexof. repeat constructor. Defined.

(** X4: when [dehexof] returns, its input has exactly two characters for
    each character of the result: text of odd length never decodes. *)
Theorem dehexof_length (x : string) (res : list N) :
  dehexof x = Ret res → String.length x = (2 * length res)%nat.
Proof.
  revert res. assert (H : ∀ n x, (String.length x ≤ n)%nat →
    ∀ res, dehexof x = Ret res → String.length x = (2 * length res)%nat).
  { induction n as [| n IH]; intros [| a [| b rest]] Hlen res; cbn in Hlen; try lia.
    - by intros [= <-].
    - by intros [= <-].
    - cbn [dehexof]. by destruct (hexdigit a).
    - cbn [dehexof]. destruct (hexdigit a) as [high | |]; try discriminate.
      destruct (hexdigit b) as [low | |]; try discriminate.
      destruct (dehexof rest) as [r | |] eqn:E; try discriminate.
      intros [= <-]. cbn. rewrite (IH rest ltac:(lia) r E). lia. }
  intros res. by apply (H (String.length x)).
Qed.

Lemma dehexof_length_witness : String.length "686900" = (2 * length [104; 105; 0]%N)%nat.
Proof. apply dehexof_length. reflexivity. Defined.

Lemma lxor_low_byte (h p : N) :
  (h < 256)%N → (N.lxor h p / 256 = p / 256)%N.
Proof.
  intros Hh. change 256%N with (2 ^ 8)%N.
  rewrite <- !N.shiftr_div_pow2, N.shiftr_lxor, (N.shiftr_div_pow2 h).
  rewrite (N.div_small h) by done. apply N.lxor_0_l.
Qed.

Lemma lxor_code_point (h p : N) :
  (h < 256)%N → (p ≤ 1114111)%N → (N.lxor h p ≤ 1114111)%N.
Proof.
  intros Hh Hp. pose proof (lxor_low_byte h p Hh) as Hdiv.
  pose proof (N.div_mod (N.lxor h p) 256 ltac:(done)) as Hx.
  pose proof (N.mod_lt (N.lxor h p) 256 ltac:(done)).
  pose proof (N.div_mod p 256 ltac:(done)) as Hq.
  pose proof (N.mod_lt p 256 ltac:(done)).
  rewrite Hdiv in Hx. clear Hdiv.
  generalize dependent (N.lxor h p `mod` 256)%N.
  generalize dependent (p `mod` 256)%N. generalize dependent (p `div` 256)%N.
  generalize dependent (N.lxor h p). intros. lia.
Qed.

Lemma lxor_byte (h p : N) : (h < 256)%N → (p < 256)%N → (N.lxor h p < 256)%N.
Proof.
  intros Hh Hp. pose proof (lxor_low_byte h p Hh) as Hdiv.
  rewrite (N.div_small p) in Hdiv by done.
  pose proof (N.div_mod (N.lxor h p) 256 ltac:(done)) as Hx.
  pose proof (N.mod_lt (N.lxor h p) 256 ltac:(done)).
  rewrite Hdiv in Hx. clear Hdiv.
  generalize dependent (N.lxor h p `mod` 256)%N.
  generalize dependent (N.lxor h p). intros. lia.
Qed.

Lemma lxor_twice (h p : N) : N.lxor (N.lxor h p) h = p.
Proof.
  rewrite (N.lxor_comm h p), N.lxor_assoc, N.lxor_nilpotent. apply N.lxor_0_r.
Qed.

Lemma chr_all_bytes (hash : list N) :
  Forall (λ h, (h < 256)%N) hash → chr_all hash = Ret hash.
Proof.
  induction 1 as [| h hash Hh _ IH]; [reflexivity |].
  cbn [chr_all]. unfold chr. rewrite IH.
  destruct (N.leb_spec h 1114111); [reflexivity | lia].
Qed.

Lemma pw_loops (pw : list N) :
  ∀ (n : nat) (hash : list N),
    (length pw ≤ n ≤ length hash)%nat →
    Forall (λ h, (h < 256)%N) hash →
    Forall (λ p, (0 < p ≤ 1114111)%N) pw →
    ∃ data,
      setpw_loop pw hash = Ret data
      ∧ getpw_loop n data hash = Ret pw
      ∧ (Forall (λ p, (p < 256)%N) pw → Forall (λ d, (d < 256)%N) data).
Proof.
  induction pw as [| p pw IH]; intros n hash [Hlen Hn] Hhash Hpw.
  - exists hash. split; [reflexivity |]. split; [| done].
    destruct n as [| n]; [reflexivity |].
    destruct hash as [| h hash]; [cbn in Hn; lia |].
    cbn [getpw_loop]. by rewrite N.lxor_nilpotent.
  - destruct n as [| n]; [cbn in Hlen; lia |].
    destruct hash as [| h hash]; [cbn in Hn; lia |].
    apply Forall_cons in Hhash as [Hh Hhash]. apply Forall_cons in Hpw as [Hp Hpw].
    destruct (IH n hash) as (data & Hset & Hget & Hbytes);
      [cbn in Hlen, Hn; lia | done | done |].
    exists (N.lxor h p :: data). split; [| split].
    + cbn [setpw_loop]. unfold chr. rewrite Hset.
      pose proof (lxor_code_point h p Hh ltac:(lia)).
      destruct (N.leb_spec (N.lxor h p) 1114111); [reflexivity | lia].
    + cbn [getpw_loop]. rewrite lxor_twice. unfold chr. rewrite Hget.
      destruct (N.eqb_spec p 0); [lia |].
      destruct (N.leb_spec p 1114111); [reflexivity | lia].
    + intros [Hp' Hpw']%Forall_cons. constructor; [by apply lxor_byte | by apply Hbytes].
Qed.

(** X5: [getpw] undoes [setpw] for every password that is no longer than
    [passwordhashlen] and has no NUL character, when the hash is a sequence
    of at least [passwordhashlen] bytes. *)
Theorem getpw_setpw (passwordhashlen : nat) (pw hash : list N) :
  (length pw ≤ passwordhashlen ≤ length hash)%nat →
  Forall (λ h, (h < 256)%N) hash →
  Forall (λ p, (0 < p ≤ 1114111)%N) pw →
  ∃ data, setpw passwordhashlen pw hash = Ret data
          ∧ getpw passwordhashlen data hash = Ret pw.
Proof.
  intros Hlen Hhash Hpw.
  destruct (pw_loops pw passwordhashlen hash Hlen Hhash Hpw) as (data & Hset & Hget & _).
  exists data. split; [| exact Hget].
  unfold setpw. destruct (Nat.ltb_spec passwordhashlen (length pw)); [lia |].
  by rewrite chr_all_bytes.
Qed.

Lemma getpw_setpw_witness :
  ∃ data, setpw 4 [104; 105]%N [7; 200; 13; 99]%N = Ret data
          ∧ getpw 4 data [7; 200; 13; 99]%N = Ret [104; 105]%N.
Proof.
  apply getpw_setpw.
  - cbn. lia.
  - repeat constructor; lia.
  - repeat constructor; lia.
Defined.

(** X6: the password file round trip. For a password of characters 1 to
    255, at most [passwordhashlen] long, what [setpw] returns goes through
    [hexof] and [dehexof] unchanged and [getpw] gives the password back. *)
Theorem password_file_round_trip (passwordhashlen : nat) (pw hash : list N) :
  (length pw ≤ passwordhashlen ≤ length hash)%nat →
  Forall (λ h, (h < 256)%N) hash →
  Forall (λ p, (0 < p < 256)%N) pw →
  ∃ data, setpw passwordhashlen pw hash = Ret data
          ∧ dehexof (hexof data) = Ret data
          ∧ getpw passwordhashlen data hash = Ret pw.
Proof.
  intros Hlen Hhash Hpw.
  assert (Hpw1 : Forall (λ p, (0 < p ≤ 1114111)%N) pw)
    by (eapply Forall_impl; [exact Hpw | cbn; lia]).
  assert (Hpw2 : Forall (λ p, (p < 256)%N) pw)
    by (eapply Forall_impl; [exact Hpw | cbn; lia]).
  destruct (pw_loops pw passwordhashlen hash Hlen Hhash Hpw1)
    as (data & Hset & Hget & Hbytes).
  exists data. split; [| split; [| exact Hget]].
  - unfold setpw. destruct (Nat.ltb_spec passwordhashlen (length pw)); [lia |].
    by rewrite chr_all_bytes.
  - apply dehexof_hexof.
    assert (Hdata : ∀ pw' hash' data',
              setpw_loop pw' hash' = Ret data' →
              Forall (λ h, (h < 256)%N) hash' → Forall (λ p, (p < 256)%N) pw' →
              Forall (λ d, (d < 256)%N) data').
    { induction pw' as [| p pw' IH]; intros [| h hash'] data'; cbn [setpw_loop];
        try (intros [= <-]; done); try discriminate.
      unfold chr. destruct (N.leb_spec (N.lxor h p) 1114111); [| discriminate].
      destruct (setpw_loop pw' hash') as [l | |] eqn:E; try discriminate.
      intros [= <-] [Hh Hhs]%Forall_cons [Hp Hps]%Forall_cons.
      constructor; [by apply lxor_byte | by eapply IH]. }
    by eapply Hdata.
Qed.

Lemma password_file_round_trip_witness :
  ∃ data, setpw 4 [104; 105]%N [7; 200; 13; 99]%N = Ret data
          ∧ dehexof (hexof data) = Ret data
          ∧ getpw 4 data [7; 200; 13; 99]%N = Ret [104; 105]%N.
Proof.
  apply password_file_round_trip.
  - cbn. lia.
  - repeat constructor; lia.
  - repeat constructor; lia.
Defined.

(** ** What a computation adds to the history *)

Lemma emits_ret {A} (allowed : event → bool) (a : A) : emits allowed (ret a).
Proof. intros w r w' [= <- <-]. exists []. by rewrite app_nil_r. Qed.

Lemma emits_raise {A} (allowed : event → bool) (e : exn) : emits allowed (@raise A e).
Proof. intros w r w' [= <- <-]. exists []. by rewrite app_nil_r. Qed.

Lemma emits_sys_exit {A} (allowed : event → bool) (c : Z) :
  emits allowed (@sys_exit A c).
Proof. intros w r w' [= <- <-]. exists []. by rewrite app_nil_r. Qed.

Lemma emits_pure {A} (allowed : event → bool) (m : M A) : pure m → emits allowed m.
Proof. intros Hm w r w' ->%Hm. exists []. by rewrite app_nil_r. Qed.

Lemma emits_bind {A B} (allowed : event → bool) (m : M A) (k : A → M B) :
  emits allowed m → (∀ a, emits allowed (k a)) → emits allowed (bind m k).
Proof.
  intros Hm Hk w r w'. unfold bind.
  destruct (m w) as [[a | e | c] w1] eqn:E; apply Hm in E as (l1 & E1 & H1).
  - intros (l2 & E2 & H2)%Hk. exists (l1 ++ l2)%list.
    rewrite E2, E1, <- app_assoc, forallb_app, H1, H2. done.
  - intros [= <- <-]. eauto.
  - intros [= <- <-]. eauto.
Qed.

Lemma emits_try_except_imap {A} (allowed : event → bool) (m handler : M A) :
  emits allowed m → emits allowed handler → emits allowed (try_except_imap m handler).
Proof.
  intros Hm Hh w r w'. unfold try_except_imap.
  destruct (m w) as [[a | [] | c] w1] eqn:E; apply Hm in E as (l1 & E1 & H1);
    try (intros [= <- <-]; by eauto).
  intros (l2 & E2 & H2)%Hh. exists (l1 ++ l2)%list.
  rewrite E2, E1, <- app_assoc, forallb_app, H1, H2. done.
Qed.

Lemma emits_emit (allowed : event → bool) (e : event) :
  allowed e = true → emits allowed (emit e).
Proof. intros He w r w' [= <- <-]. exists [e]. cbn. by rewrite He. Qed.

Lemma emits_imap_call (allowed : event → bool) (P : peers) (e : event) :
  allowed e = true → emits allowed (imap_call P e).
Proof. intros He w r w' [= <- <-]. exists [e]. cbn. by rewrite He. Qed.

Lemma emits_popen (allowed : event → bool) (P : peers) (cmd : list string)
    (input : string) :
  allowed (Spawn cmd input) = true → emits allowed (popen P cmd input).
Proof. intros He w r w' [= <- <-]. exists [Spawn cmd input]. cbn. by rewrite He. Qed.

Lemma emits_errorexit {A} (allowed : event → bool) (msg : string) (code : Z) :
  (∀ text, allowed (Stderr text) = true) → emits allowed (@errorexit A msg code).
Proof.
  intros Hs. unfold errorexit.
  repeat (apply emits_bind; [by apply emits_emit | intros _]).
  case_match; [apply emits_raise | apply emits_sys_exit].
Qed.

Lemma emits_for_each {A} (allowed : event → bool) (l : list A) (f : A → M unit) :
  (∀ x, emits allowed (f x)) → emits allowed (for_each l f).
Proof.
  intros Hf. induction l as [| x l IH]; cbn [for_each]; [apply emits_ret |].
  apply emits_bind; [apply Hf | intros _; exact IH].
Qed.

Ltac emits_step :=
  first
    [ match goal with H : _ |- emits _ _ => apply H end
    | apply emits_ret | apply emits_raise | apply emits_sys_exit
    | apply emits_errorexit; reflexivity
    | apply emits_emit; reflexivity
    | apply emits_imap_call; reflexivity
    | apply emits_popen; reflexivity
    | apply emits_try_except_imap
    | apply emits_bind; [| intros ?]
    | match goal with
      | |- emits _ (if ?b then _ else _) => destruct b
      | |- emits _ (match ?x with _ => _ end) => destruct x
      end ].

Ltac emits_auto := repeat emits_step.

Lemma pastuid_write_trace (L : pylib) (self : isbg) (uidvalidity : Z)
    (origpastuids : pyval) (newpastuids : list pyval) (folder : string)
    (w w' : world) (r : outcome unit) :
  pastuid_write L self uidvalidity origpastuids newpastuids folder w = (r, w') →
  trace w' = trace w
  ∧ ∀ path, ¬ track_file self folder path → fs w' !! path = fs w !! path.
Proof.
  unfold pastuid_write, track_file.
  destruct (pastuidsfile self) as [name |]; [| intros [= <- <-]; done].
  unfold bind, write_file, py_len, py_list_add, ret, raise.
  intros H.
  assert (Hfs : ∀ f path, ¬ (∃ name0, Some name = Some name0 ∧ path = name0 ++ folder) →
                  (<[name ++ folder := f]> (fs w)) !! path = fs w !! path).
  { intros f path Hp. apply lookup_insert_ne. intros <-. apply Hp. eauto. }
  repeat case_match; simplify_eq; cbn; (split; [done |]); intros path Hp;
    rewrite ?lookup_insert_ne; try done;
    try (intros <-; apply Hp; eauto).
Qed.

Lemma emits_pastuid_write (allowed : event → bool) (L : pylib) (self : isbg)
    (uidvalidity : Z) (origpastuids : pyval) (newpastuids : list pyval)
    (folder : string) :
  emits allowed (pastuid_write L self uidvalidity origpastuids newpastuids folder).
Proof.
  intros w r w' [Ht _]%pastuid_write_trace. exists []. by rewrite app_nil_r.
Qed.

Lemma emits_getmessage (L : pylib) (P : peers) (u : string) :
  emits read_only (ISBGImap.getmessage L P u).
Proof. unfold ISBGImap.getmessage, ISBGImap._assertok. emits_auto. Qed.

Lemma emits_select (L : pylib) (P : peers) (mailbox : string) (readonly : bool) :
  emits read_only (ISBGImap.select L P mailbox readonly).
Proof. unfold ISBGImap.select, ISBGImap._assertok. emits_auto. Qed.

Lemma emits_get_uidvalidity (L : pylib) (P : peers) (mailbox : string) :
  emits read_only (ISBGImap.get_uidvalidity L P mailbox).
Proof. unfold ISBGImap.get_uidvalidity, ISBGImap._assertok. emits_auto. Qed.

Lemma emits_candidates (L : pylib) (P : peers) (self : isbg) :
  emits read_only (candidates L P self).
Proof.
  unfold candidates, ISBGImap.search.
  pose proof (emits_select L P). pose proof (emits_get_uidvalidity L P).
  pose proof (λ uv f, emits_pure read_only _ (pure_pastuid_read self uv f)).
  pose proof (λ l c, emits_pure read_only _ (pure_unseen l c)).
  emits_auto.
Qed.

Lemma emits_loop_dry (L : pylib) (P : peers) (self : isbg) (uids : list string) :
  dryrun self = true →
  ∀ st, emits read_only (loop L P self uids st).
Proof.
  intros Hd. induction uids as [| u rest IH]; intros st; cbn [loop]; [apply emits_ret |].
  apply emits_bind; [| intros [[] st']; [apply emits_ret | apply IH]].
  unfold loop_body, classify, act, report. rewrite Hd.
  pose proof (emits_getmessage L P). emits_auto.
Qed.

(** X7: a dry run of [spamassassin] changes nothing on the server and starts
    no process: whatever the server answers and however the run ends, it
    sends only SELECT, STATUS, SEARCH and FETCH (no APPEND, COPY, STORE or
    EXPUNGE) and spawns no classifier. *)
Theorem dry_run_is_read_only (L : pylib) (P : peers) (self : isbg) :
  dryrun self = true → emits read_only (spamassassin L P self).
Proof.
  intros Hd. unfold spamassassin, scan, mark. rewrite Hd.
  pose proof (emits_candidates L P).
  pose proof (λ uids, emits_loop_dry L P self uids Hd).
  pose proof (emits_pastuid_write read_only L self).
  apply emits_bind; [| intros [[[[? ?] ?] ?] ?]; emits_auto].
  apply emits_bind; [by auto | intros [[[? ?] ?] ?]]. emits_auto.
Qed.

Lemma dry_run_is_read_only_witness :
  emits read_only
    (spamassassin Concrete.lib Concrete.scenario
       (Concrete.config 0 true false (Some 10%Q) ["\Flagged"])).
Proof. apply dry_run_is_read_only. reflexivity. Defined.

(** ** Which files a run touches *)

Lemma writes_only_of_fs {A} (mine : string → Prop) (m : M A) :
  (∀ w r w', m w = (r, w') → fs w' = fs w) → writes_only mine m.
Proof. intros H w r w' path Hm _. by rewrite (H _ _ _ Hm). Qed.

Lemma writes_only_quiet {A} (mine : string → Prop) (m : M A) :
  quiet m → writes_only mine m.
Proof. intros H. apply writes_only_of_fs. intros w r w' Hm. by apply H in Hm as [? _]. Qed.

Lemma writes_only_bind {A B} (mine : string → Prop) (m : M A) (k : A → M B) :
  writes_only mine m → (∀ a, writes_only mine (k a)) → writes_only mine (bind m k).
Proof.
  intros Hm Hk w r w' path. unfold bind.
  destruct (m w) as [[a | e | c] w1] eqn:E.
  - intros H Hp. rewrite (Hk a _ _ _ _ H Hp). by apply (Hm _ _ _ _ E).
  - intros [= <- <-] Hp. by apply (Hm _ _ _ _ E).
  - intros [= <- <-] Hp. by apply (Hm _ _ _ _ E).
Qed.

Lemma writes_only_weaken {A} (mine mine' : string → Prop) (m : M A) :
  (∀ path, mine path → mine' path) → writes_only mine m → writes_only mine' m.
Proof. intros Hsub Hm w r w' path H Hp. apply (Hm _ _ _ _ H). intros ?. by apply Hp, Hsub. Qed.

Lemma writes_only_pastuid_write (L : pylib) (self : isbg) (uidvalidity : Z)
    (origpastuids : pyval) (newpastuids : list pyval) (folder : string) :
  writes_only (track_file self folder)
    (pastuid_write L self uidvalidity origpastuids newpastuids folder).
Proof. intros w r w' path [_ H]%pastuid_write_trace Hp. by apply H. Qed.

(** X8: [spamassassin] touches no file but the track file of the inbox,
    however it ends: the seen uids of the learn folders, and everything else
    on disk, are as before. *)
Theorem spamassassin_writes_inbox_track_only (L : pylib) (P : peers) (self : isbg) :
  writes_only (track_file self "inbox") (spamassassin L P self).
Proof.
  unfold spamassassin, scan.
  apply writes_only_bind.
  - apply writes_only_bind; [apply writes_only_quiet, quiet_candidates |].
    intros [[[uv inbox] orig] uids].
    apply writes_only_bind.
    { apply writes_only_of_fs. intros w r w' H. by apply loop_effect in H as [? _]. }
    intros st. apply writes_only_bind; [apply writes_only_pastuid_write |].
    intros _. apply writes_only_quiet, quiet_ret.
  - intros [[[[uv inbox] orig] uids] st].
    apply writes_only_bind; [apply writes_only_quiet, quiet_mark |].
    intros _. apply writes_only_quiet, quiet_ret.
Qed.

(** ** The counters *)

Lemma act_counts (L : pylib) (P : peers) (self : isbg) (u body score : string)
    (code : Z) (st st' : loopst) (w w' : world) :
  act L P self u body score code st w = (Ret st', w') →
  (length (spamlist st') + length (spamdeletelist st')
   ≤ length (spamlist st) + length (spamdeletelist st) + 1)%nat.
Proof.
  unfold act. intros H. inv_run; cbn; try lia.
  - rewrite length_app. cbn. lia.
  - match goal with H : report _ _ _ _ _ _ _ = _ |- _ =>
      apply report_ret in H as (_ & -> & [-> | ->]) end;
      [lia | rewrite length_app; cbn; lia].
  - match goal with H : report _ _ _ _ _ _ _ = _ |- _ =>
      apply report_ret in H as (_ & -> & [-> | ->]) end;
      [lia | rewrite length_app; cbn; lia].
Qed.

Lemma loop_counts (L : pylib) (P : peers) (self : isbg) (uids : list string) :
  ∀ (st st' : loopst) (w w' : world),
    loop L P self uids st w = (Ret st', w') →
    (length (spamlist st') + length (spamdeletelist st')
     ≤ length (spamlist st) + length (spamdeletelist st) + length uids)%nat.
Proof.
  induction uids as [| u rest IH]; intros st st' w w'; cbn [loop].
  - intros [= <- <-]. lia.
  - intros H. apply bind_ret_inv in H as ([b st1] & w1 & Hbody & H).
    assert (Hone : (length (spamlist st1) + length (spamdeletelist st1)
                    ≤ length (spamlist st) + length (spamdeletelist st) + 1)%nat).
    { unfold loop_body in Hbody. inv_run; cbn; try lia.
      - match goal with H : classify _ _ _ _ _ _ = _ |- _ =>
          apply classify_ret in H as (_ & Hs & Hd) end.
        match goal with H : act _ _ _ _ _ _ _ _ _ = _ |- _ =>
          apply act_counts in H; rewrite Hs, Hd in H; cbn in H end.
        lia. }
    cbn in H. destruct b.
    + apply ret_inv in H as [<- _]. cbn [length]. lia.
    + apply IH in H. cbn [length]. lia.
Qed.

(** X9: the counters a run of [spamassassin] returns are ordered:
    0 <= spamdeleted <= numspam <= nummsg. *)
Theorem spamassassin_counters_ordered (L : pylib) (P : peers) (self : isbg)
    (w w' : world) (numspam nummsg spamdeleted : Z) :
  spamassassin L P self w = (Ret (numspam, nummsg, spamdeleted), w') →
  0 ≤ spamdeleted ≤ numspam ∧ numspam ≤ nummsg.
Proof.
  intros (uv & inbox & orig & uids & st & w1 & Hscan & -> & -> & ->)%spamassassin_counters.
  apply scan_inv in Hscan as (wa & wb & _ & Hloop & _).
  apply loop_counts in Hloop. cbn in Hloop. lia.
Qed.

Lemma spamassassin_counters_ordered_witness : 0 ≤ 1 ≤ 2 ∧ 2 ≤ 3.
Proof.
  eapply (spamassassin_counters_ordered Concrete.lib Concrete.scenario
            (Concrete.without_report (Concrete.config 0 false true (Some 10%Q) []))
            Concrete.empty_world).
  vm_compute; reflexivity.
Defined.

(** ** Refusals by the server *)

Lemma bind_raise_eq {A B} (m : M A) (k : A → M B) (w w1 : world) (e : exn) :
  m w = (Raise e, w1) → bind m k w = (Raise e, w1).
Proof. unfold bind. intros ->. reflexivity. Qed.

(** A select the server refuses, and one on which imaplib raises. *)
Lemma select_refused (L : pylib) (P : peers) (mailbox : string) (readonly : bool)
    (w : world) :
  (imap_server P (trace w ++ [ImapSelect mailbox readonly])).1 = "NO" →
  ISBGImap.select L P mailbox readonly w
    = (Raise ISBGImapError, World (fs w) (trace w ++ [ImapSelect mailbox readonly])).
Proof.
  intros Hno. unfold ISBGImap.select. unfold bind at 1.
  rewrite (imap_call_no _ _ _ Hno). apply bind_raise_eq.
  rewrite assertok_outcome by reflexivity. cbn [trace]. by rewrite Hno.
Qed.

Lemma select_error (L : pylib) (P : peers) (mailbox : string) (readonly : bool)
    (w : world) :
  (imap_server P (trace w ++ [ImapSelect mailbox readonly])).1 ≠ "OK" →
  (imap_server P (trace w ++ [ImapSelect mailbox readonly])).1 ≠ "NO" →
  ISBGImap.select L P mailbox readonly w
    = (Raise IMAP4Error, World (fs w) (trace w ++ [ImapSelect mailbox readonly])).
Proof.
  intros Hok Hno. unfold ISBGImap.select. apply bind_raise_eq.
  by apply imap_call_error.
Qed.

(** X10: when the server refuses the select of the spam folder with NO,
    [spamassassin] stops at once with ISBGImapError and the failure is
    logged. When imaplib itself raises on that select (a BAD completion, a
    lost connection), its error is not caught by [except ISBGImapError]: it
    leaves the run as it is and nothing is logged. Either way nothing is
    searched or fetched and no file is written. *)
Theorem missing_spam_folder_aborts (L : pylib) (P : peers) (self : isbg) (w : world) :
  ((imap_server P (trace w ++ [ImapSelect (spaminbox self) true])).1 = "NO" →
   spamassassin L P self w
   = (Raise ISBGImapError,
      World (fs w)
        (trace w ++ [ImapSelect (spaminbox self) true;
                     LogException "Could not select spam inbox, aborting SA processing."])))
  ∧ ((imap_server P (trace w ++ [ImapSelect (spaminbox self) true])).1 ≠ "OK" →
     (imap_server P (trace w ++ [ImapSelect (spaminbox self) true])).1 ≠ "NO" →
     spamassassin L P self w
     = (Raise IMAP4Error,
        World (fs w) (trace w ++ [ImapSelect (spaminbox self) true]))).
Proof.
  split.
  - intros Hno. unfold spamassassin, scan, candidates.
    do 3 apply bind_raise_eq. unfold try_except_imap.
    rewrite (select_refused L P _ _ _ Hno). unfold bind, emit, raise. cbn.
    by rewrite <- app_assoc.
  - intros Hok Hno. unfold spamassassin, scan, candidates.
    do 3 apply bind_raise_eq. unfold try_except_imap.
    by rewrite (select_error L P _ _ _ Hok Hno).
Qed.

Lemma missing_spam_folder_aborts_witness :
  spamassassin Concrete.lib Concrete.refusing (Concrete.config 0 false false None [])
    Concrete.empty_world
  = (Raise ISBGImapError,
     World (fs Concrete.empty_world)
       (trace Concrete.empty_world ++
        [ImapSelect "INBOX.spam" true;
         LogException "Could not select spam inbox, aborting SA processing."]))
  ∧ spamassassin Concrete.lib Concrete.broken (Concrete.config 0 false false None [])
      Concrete.empty_world
    = (Raise IMAP4Error,
       World (fs Concrete.empty_world)
         (trace Concrete.empty_world ++ [ImapSelect "INBOX.spam" true])).
Proof.
  split.
  - apply (proj1 (missing_spam_folder_aborts Concrete.lib Concrete.refusing
                    (Concrete.config 0 false false None []) Concrete.empty_world)).
    reflexivity.
  - apply (proj2 (missing_spam_folder_aborts Concrete.lib Concrete.broken
                    (Concrete.config 0 false false None []) Concrete.empty_world)).
    + discriminate.
    + discriminate.
Defined.

(** X11: what the report step does with a spam outside a dry run. With the
    report on it never sends an APPEND and never lists the message: it
    returns only when the save process cannot be talked to, which is logged
    and leaves the lists as they were, and once the save process has
    answered it raises TypeError. With [--noreport] a COPY the server
    refuses raises ISBGImapError out of the run. *)
Theorem report_failures (L : pylib) (P : peers) (self : isbg) (u body : string)
    (st : loopst) (w : world) :
  dryrun self = false →
  (noreport self = false →
   ∀ r w', report L P self u body st w = (r, w') →
     (∃ added, trace w' = (trace w ++ added)%list
               ∧ ∀ mailbox flags message, ImapAppend mailbox flags message ∉ added)
     ∧ (∀ st', r = Ret st' →
          st' = st
          ∧ last (trace w') = Some (LogException "Error communicating with {}!"))
     ∧ (∀ out returncode,
          run_process P (trace w ++ [Spawn (sasave self) body]) = Exited out returncode →
          r = Raise TypeError))
  ∧ (noreport self = true →
     (imap_server P (trace w ++ [ImapCopy u (spaminbox self)])).1 = "NO" →
     report L P self u body st w
       = (Raise ISBGImapError,
          World (fs w) (trace w ++ [ImapCopy u (spaminbox self)]))).
Proof.
  intros Hd. split.
  - intros Hnr r w'. rewrite (report_save L P self u body st w Hnr Hd).
    destruct (run_process P _) as [| | out code]; intros [= <- <-]; cbn [trace].
    + split; [| split; [intros ? [=] | intros ?? [=]]].
      eexists. split; [done |]. intros ??? Hin.
      apply list_elem_of_singleton in Hin. discriminate.
    + split; [| split; [| intros ?? [=]]].
      * eexists. split; [done |]. intros ??? Hin.
        apply elem_of_cons in Hin as [? | Hin]; [discriminate |].
        apply list_elem_of_singleton in Hin. discriminate.
      * intros ? [= <-]. split; [done |].
        change (trace w ++ [Spawn (sasave self) body;
                            LogException "Error communicating with {}!"])%list
          with (trace w ++ [Spawn (sasave self) body]
                        ++ [LogException "Error communicating with {}!"])%list.
        rewrite app_assoc. apply last_snoc.
    + split; [| split; [intros ? [=] | done]].
      eexists. split; [done |]. intros ??? Hin.
      apply list_elem_of_singleton in Hin. discriminate.
  - intros Hnr Hno. unfold report. rewrite Hnr, Hd. cbn [negb].
    apply bind_raise_eq. by apply copy_refused.
Qed.

Lemma report_failures_witness :
  (report Concrete.lib Concrete.scenario (Concrete.config 0 false false None [])
     "102" "mail 102" (LoopSt ["102"] [] [] 0) Concrete.empty_world).1
  = Raise TypeError
  ∧ report Concrete.lib Concrete.refusing
      (Concrete.without_report (Concrete.config 0 false false None []))
      "102" "mail 102" (LoopSt ["102"] [] [] 0) Concrete.empty_world
    = (Raise ISBGImapError,
       World (fs Concrete.empty_world)
         (trace Concrete.empty_world ++ [ImapCopy "102" "INBOX.spam"])).
Proof.
  split.
  - destruct (report_failures Concrete.lib Concrete.scenario
                (Concrete.config 0 false false None []) "102" "mail 102"
                (LoopSt ["102"] [] [] 0) Concrete.empty_world eq_refl) as [Hsave _].
    destruct (Hsave eq_refl _ _ (surjective_pairing _)) as (_ & _ & Hraise).
    apply (Hraise ("X-Spam-Flag: YES" ++ nl ++ "mail 102") 0). reflexivity.
  - destruct (report_failures Concrete.lib Concrete.refusing
                (Concrete.without_report (Concrete.config 0 false false None []))
                "102" "mail 102" (LoopSt ["102"] [] [] 0) Concrete.empty_world eq_refl)
      as [_ Hcopy].
    apply Hcopy; reflexivity.
Defined.

(** ** The track file over many runs *)

(** X12: a track file that is missing, unparsable, or as an earlier
    [pastuid_write] left it never makes the next read-then-write fail, for
    whatever uidvalidity and newly seen uids, and is left well formed again:
    an integer uidvalidity and a duplicate-free list of uids. *)
Theorem track_file_stays_well_formed (L : pylib) (self : isbg) (uidvalidity : Z)
    (folder name : string) (newpastuids : list atom) (w : world) :
  pastuidsfile self = Some name →
  fs w !! (name ++ folder) = None
  ∨ fs w !! (name ++ folder) = Some Unparsable
  ∨ (∃ f, fs w !! (name ++ folder) = Some f ∧ well_formed_track f) →
  ∃ origpastuids w1 f,
    pastuid_read self uidvalidity folder w = (Ret origpastuids, w)
    ∧ pastuid_write L self uidvalidity origpastuids (PAtom <$> newpastuids) folder w
      = (Ret tt, w1)
    ∧ fs w1 !! (name ++ folder) = Some f
    ∧ well_formed_track f.
Proof.
  intros Hname Hfile.
  assert (Hread : ∃ members,
            pastuid_read self uidvalidity folder w = (Ret (PList (PAtom <$> members)), w)).
  { destruct Hfile as [Hf | [Hf | (f & Hf & uv & members & -> & _)]].
    - exists []. apply (pastuid_read_stale self uidvalidity folder name w Hname). by left.
    - exists []. apply (pastuid_read_stale self uidvalidity folder name w Hname).
      right. by left.
    - destruct (decide (uv = uidvalidity)) as [-> | Hne].
      + exists members. by apply (pastuid_read_current self uidvalidity folder name).
      + exists []. apply (pastuid_read_stale self uidvalidity folder name w Hname).
        right. right. eexists _, _. split; [exact Hf |]. split; [reflexivity |].
        congruence. }
  destruct Hread as [members Hread].
  eexists _, _, _. split; [exact Hread |].
  split; [| split].
  - unfold pastuid_write, bind, write_file. rewrite Hname. cbn.
    rewrite <- fmap_app, mapM_hashable_atoms. reflexivity.
  - cbn. apply lookup_insert_eq.
  - eexists _, _. split; [reflexivity |]. apply set_iter_nodup.
Qed.

Lemma track_file_stays_well_formed_witness :
  ∃ origpastuids w1 f,
    pastuid_read (Concrete.config 0 false false None []) 41 "inbox" Concrete.world_41
      = (Ret origpastuids, Concrete.world_41)
    ∧ pastuid_write Concrete.lib (Concrete.config 0 false false None []) 41
        origpastuids (PAtom <$> [AStr "101"; AStr "102"]) "inbox" Concrete.world_41
      = (Ret tt, w1)
    ∧ fs w1 !! ("/home/u/.isbg-track" ++ "inbox") = Some f
    ∧ well_formed_track f.
Proof.
  apply (track_file_stays_well_formed Concrete.lib _ 41 "inbox" "/home/u/.isbg-track").
  - reflexivity.
  - right. right. eexists. split; [vm_compute; reflexivity |].
    exists 41, [AStr "101"]. split; [reflexivity |]. repeat constructor. set_solver.
Defined.

(** ** The dry run *)

Lemma act_processednum (L : pylib) (P : peers) (self : isbg) (u body score : string)
    (code : Z) (st st' : loopst) (w w' : world) :
  act L P self u body score code st w = (Ret st', w') →
  processednum st' = processednum st.
Proof.
  unfold act. intros H. inv_run; try done;
    match goal with H : report _ _ _ _ _ _ _ = _ |- _ =>
      unfold report in H; inv_run; try done end.
  all: match goal with H : try_except_imap _ _ _ = _ |- _ =>
         apply try_except_imap_ret_inv in H as [H | (? & _ & H)]; inv_run; done end.
Qed.

Lemma loop_dry (L : pylib) (P : peers) (self : isbg) (uids : list string) :
  dryrun self = true →
  ∀ (st st' : loopst) (w w' : world),
    0 ≤ processednum st ≤ 6 →
    loop L P self uids st w = (Ret st', w') →
    newpastuids st'
    = (newpastuids st ++ take (Z.to_nat (7 - processednum st)) uids)%list.
Proof.
  intros Hd. induction uids as [| u rest IH]; intros st st' w w' Hk; cbn [loop].
  - intros [= <- <-]. by rewrite take_nil, app_nil_r.
  - intros H. apply bind_ret_inv in H as ([b st1] & w1 & Hbody & H).
    replace (Z.to_nat (7 - processednum st)) with (S (Z.to_nat (6 - processednum st)))
      by lia.
    cbn [take]. unfold loop_body in Hbody.
    apply bind_ret_inv in Hbody as (body & wg & _ & Hbody). cbn zeta in Hbody.
    apply bind_ret_inv in Hbody as (f & wc & Hc & Hbody).
    unfold classify in Hc. rewrite Hd in Hc. unfold processmax, fakespammax in Hc.
    cbn [processednum newpastuids spamlist spamdeletelist] in Hc.
    destruct (5 <? processednum st) eqn:Hbreak.
    + apply ret_inv in Hc as [<- <-]. apply ret_inv in Hbody as [[= <- <-] <-].
      cbn in H. apply ret_inv in H as [<- _]. cbn.
      replace (Z.to_nat (6 - processednum st)) with 0%nat by lia. by rewrite take_0.
    + assert (∃ score code, f = Scored score code
                (LoopSt (newpastuids st ++ [u]) (spamlist st) (spamdeletelist st)
                   (processednum st + 1))) as (score & code & ->).
      { destruct (processednum st <? 1); inv_run; eauto. }
      apply bind_ret_inv in Hbody as (st2 & wa & Hact & Hbody).
      apply ret_inv in Hbody as [[= <- <-] <-]. cbn in H.
      pose proof (act_ret _ _ _ _ _ _ _ _ _ _ _ Hact) as Hn.
      pose proof (act_processednum _ _ _ _ _ _ _ _ _ _ _ Hact) as Hp.
      cbn in Hn, Hp. apply Z.ltb_ge in Hbreak.
      apply (IH st2 st' wa w' ltac:(lia)) in H. rewrite H, Hn, Hp, <- app_assoc. cbn.
      do 3 f_equal. lia.
Qed.

(** X13: a dry run stops after seven messages and still writes them to the
    track file. When a dry run of [scan] returns, it has fetched exactly the
    first seven candidates (all of them if there are fewer), and each of them
    is among the seen uids that a later run reads back. *)
Theorem dry_run_records_seven (L : pylib) (P : peers) (self : isbg) (w w' : world)
    (uidvalidity : Z) (inboxuids uids : list string) (origpastuids : pyval)
    (st : loopst) :
  dryrun self = true →
  scan L P self w = (Ret (uidvalidity, inboxuids, origpastuids, uids, st), w') →
  fetches (trace w') = (fetches (trace w) ++ take 7 uids)%list
  ∧ ∃ seen, pastuid_read self uidvalidity "inbox" w' = (Ret (PList seen), w')
            ∧ ∀ u, u ∈ take 7 uids → seen_in seen u = true.
Proof.
  intros Hd (wa & wb & Hc & Hloop & Hwrite)%scan_inv.
  pose proof Hloop as Hnew. apply (loop_dry L P self uids Hd) in Hnew; [| cbn; lia].
  cbn in Hnew. change (Z.to_nat (7 - 0)) with 7%nat in Hnew.
  apply candidates_inv in Hc as (_ & Hfa & _).
  apply loop_effect in Hloop as (_ & fetched & _ & Hfb & Hst).
  destruct (Hst st eq_refl) as [Hnew' _]. cbn in Hnew'.
  apply pastuid_write_inv in Hwrite
    as (name & seen1 & members & Hname & -> & Hmem & Htr & Hfile).
  split. { rewrite Htr, Hfb, Hfa, <- Hnew', Hnew. done. }
  eexists. split; [by apply (pastuid_read_current self uidvalidity "inbox" name) |].
  intros u Hu. apply seen_in_spec. change (pystr u) with (PAtom (AStr u)).
  rewrite elem_of_PAtom_fmap, set_iter_elem, <- elem_of_PAtom_fmap, <- Hmem, elem_of_app.
  left. change (PAtom (AStr u)) with (pystr u). rewrite elem_of_pystr_fmap.
  by rewrite Hnew.
Qed.

Lemma dry_run_records_seven_witness :
  ∃ w' st orig,
    scan Concrete.lib Concrete.nine_hams (Concrete.config 0 true false None [])
      Concrete.empty_world
    = (Ret (42, ["1"; "2"; "3"; "4"; "5"; "6"; "7"; "8"; "9"], orig,
            ["1"; "2"; "3"; "4"; "5"; "6"; "7"; "8"; "9"], st), w')
    ∧ fetches (trace w')
      = (fetches (trace Concrete.empty_world)
         ++ take 7 ["1"; "2"; "3"; "4"; "5"; "6"; "7"; "8"; "9"])%list
    ∧ ∃ seen, pastuid_read (Concrete.config 0 true false None []) 42 "inbox" w'
              = (Ret (PList seen), w')
              ∧ ∀ u, u ∈ take 7 ["1"; "2"; "3"; "4"; "5"; "6"; "7"; "8"; "9"] →
                     seen_in seen u = true.
Proof.
  eexists _, _, _. split; [vm_compute; reflexivity |].
  eapply (dry_run_records_seven Concrete.lib Concrete.nine_hams
            (Concrete.config 0 true false None [])).
  - reflexivity.
  - vm_compute; reflexivity.
Defined.

(** ** The option processing *)

(** X14: however [parse_args] ends, it ends in one of four ways. It
    returns, having written nothing, and then [docopt] had returned. It
    exits with status 10: [docopt] raised, or a score, size or partial-run
    number is too small, or a score or size is no number. It exits with the
    status of [docopt]'s own exit, which [except Exception] does not catch.
    Or it raises ValueError, which happens only for a [--partialrun] that is
    no number. *)
Theorem parse_args_endings (L : pylib) (self : isbg) (docopt : outcome opts)
    (w w' : world) (r : outcome isbg) :
  parse_args L self docopt w = (r, w') →
  match r with
  | Ret _ => w' = w ∧ ∃ o, docopt = Ret o
  | SysExit code => code = 10 ∨ docopt = SysExit code
  | Raise e =>
      e = ValueError
      ∧ ∃ o s, docopt = Ret o ∧ o_partialrun o = Some s ∧ py_int L s = None
  end.
Proof.
  unfold parse_args, bind, errorexit, exitcodeflags, bind, emit, ret, raise, sys_exit.
  cbn. intros H. repeat case_match; simplify_eq; eauto 10.
Qed.

Lemma parse_args_endings_witness :
  ValueError = ValueError
  ∧ ∃ o s, Ret Concrete.bad_partialrun_opts = Ret o
           ∧ o_partialrun o = Some s
           ∧ py_int Concrete.lib s = None.
Proof.
  apply (parse_args_endings Concrete.lib init (Ret Concrete.bad_partialrun_opts)
           Concrete.empty_world Concrete.empty_world (Raise ValueError)).
  reflexivity.
Defined.

(** A float that is not below one. *)
Lemma float_not_below_one (x : pyfloat) :
  float_lt x (Finite 1) = false →
  x = NaN ∨ x = PlusInf ∨ ∃ q, x = Finite q ∧ (1 <= q)%Q.
Proof.
  destruct x as [q | | |]; cbn; try discriminate; eauto.
  intros H. right; right. exists q. split; [done |]. apply Qnot_lt_le.
  apply not_true_iff_false in H. by rewrite Qgtb_spec in H.
Qed.

(** X15: the numbers [parse_args] lets through. If the object had a size
    limit of at least 1 and a partial-run count of at least 0, the object
    returned has them too, and a [--partialrun] given on the command line is
    at least 1. A [--deletehigherthan] score is at least 1 or positive
    infinity, or else it is NaN, which passes the check because [nan < 1] is
    false. *)
Theorem parse_args_ranges (L : pylib) (self self' : isbg) (docopt : outcome opts)
    (w w' : world) :
  1 ≤ maxsize self →
  0 ≤ partialrun self →
  parse_args L self docopt w = (Ret self', w') →
  ∃ o, docopt = Ret o
       ∧ 1 ≤ maxsize self'
       ∧ 0 ≤ partialrun self'
       ∧ (is_Some (o_partialrun o) → 1 ≤ partialrun self')
       ∧ (∀ x, deletehigherthan self' = Some x →
            x = NaN ∨ x = PlusInf ∨ ∃ q, x = Finite q ∧ (1 <= q)%Q)
       ∧ (is_Some (o_deletehigherthan o) ↔ is_Some (deletehigherthan self')).
Proof.
  intros Hm Hp H. unfold parse_args in H.
  apply bind_ret_inv in H as (o & w0 & Ho & H).
  assert (docopt = Ret o) as ->.
  { destruct docopt as [o' | e | c]; inv_run; done. }
  exists o. split; [done |]. clear Ho.
  apply bind_ret_inv in H as (dht & w1 & Hdht & H).
  apply bind_ret_inv in H as (ms & w2 & Hms & H).
  apply bind_ret_inv in H as (pr & w3 & Hpr & H).
  apply ret_inv in H as [<- _]. cbn.
  assert (1 ≤ ms) by (clear Hdht Hpr; inv_run; lia).
  assert (0 ≤ pr ∧ (is_Some (o_partialrun o) → 1 ≤ pr)).
  { clear Hdht Hms. inv_run; (split; [lia |]);
      first [intros _; lia | by intros [? [=]]]. }
  assert ((∀ x, dht = Some x → x = NaN ∨ x = PlusInf ∨ ∃ q, x = Finite q ∧ (1 <= q)%Q)
          ∧ (is_Some (o_deletehigherthan o) ↔ is_Some dht)).
  { clear Hms Hpr. inv_run.
    - split; [| by split; eauto]. intros x [= <-]. by apply float_not_below_one.
    - split; [discriminate |]. split; by intros [? [=]]. }
  tauto.
Qed.

Lemma parse_args_ranges_witness :
  ∃ self', parse_args Concrete.lib init (Ret Concrete.nan_score_opts)
             Concrete.empty_world
           = (Ret self', Concrete.empty_world)
           ∧ deletehigherthan self' = Some NaN
           ∧ ∃ o, Ret Concrete.nan_score_opts = Ret o
                  ∧ 1 ≤ maxsize self'
                  ∧ 0 ≤ partialrun self'
                  ∧ (is_Some (o_partialrun o) → 1 ≤ partialrun self')
                  ∧ (∀ x, deletehigherthan self' = Some x →
                       x = NaN ∨ x = PlusInf ∨ ∃ q, x = Finite q ∧ (1 <= q)%Q)
                  ∧ (is_Some (o_deletehigherthan o)
                     ↔ is_Some (deletehigherthan self')).
Proof.
  eexists. split; [vm_compute; reflexivity |]. split; [reflexivity |].
  eapply (parse_args_ranges Concrete.lib init _ (Ret Concrete.nan_score_opts)
            Concrete.empty_world Concrete.empty_world).
  - cbn. lia.
  - cbn. lia.
  - vm_compute; reflexivity.
Defined.

(** ** Shortening for the log *)

Lemma str_take_length (n : nat) (s : string) : (String.length (str_take n s) ≤ n)%nat.
Proof.
  revert s. induction n as [| n IH]; intros [| c s]; cbn; try lia.
  specialize (IH s). lia.
Qed.

Lemma string_length_app (a b : string) :
  String.length (a ++ b) = (String.length a + String.length b)%nat.
Proof. induction a as [| c a IH]; [reflexivity |]. cbn. by rewrite <- IH. Qed.

(** X16: [truncate] never returns more than [length] characters, for a
    limit of at least three, and returns a text that fits as it is. *)
Theorem truncate_fits (L : pylib) (inp : string) (length : Z) :
  3 ≤ length →
  Z.of_nat (String.length (truncate L inp length)) ≤ length
  ∧ (Z.of_nat (String.length inp) ≤ length → truncate L inp length = inp).
Proof.
  intros Hl. unfold truncate.
  destruct (Z.ltb_spec length (Z.of_nat (String.length inp))) as [Hlong | Hfits].
  - split; [| lia]. rewrite string_length_app. cbn.
    unfold py_str_slice_to. destruct (Z.leb_spec 0 (length - 3)); [| lia].
    pose proof (str_take_length (Z.to_nat (length - 3)) (py_repr L inp)). lia.
  - by split.
Qed.

Lemma truncate_fits_witness :
  Z.of_nat (String.length (truncate Concrete.lib "a rather long answer" 10)) ≤ 10
  ∧ (Z.of_nat (String.length "a rather long answer") ≤ 10 →
     truncate Concrete.lib "a rather long answer" 10 = "a rather long answer").
Proof. apply truncate_fits. lia. Defined.

(** ** Teaching: [spamlearn] *)

Lemma quiet_teach (P : peers) (self : isbg) (lt : learntype) (body : string) :
  quiet (teach P self lt body).
Proof. unfold teach. quiet_auto. Qed.

Lemma quiet_dispose (L : pylib) (P : peers) (self : isbg) (lt : learntype) (u : string) :
  quiet (dispose L P self lt u).
Proof.
  unfold dispose. pose proof (quiet_copy L P). pose proof (quiet_store L P). quiet_auto.
Qed.

Lemma teach_ret (P : peers) (self : isbg) (lt : learntype) (body : string)
    (w w' : world) (t : option (string * Z)) :
  teach P self lt body w = (Ret t, w') →
  (dryrun self = true → t = Some (alreadylearnt, 0))
  ∧ (t = None → dryrun self = false).
Proof. unfold teach. intros H. inv_run; done. Qed.

Lemma pure_unlearnt (L : pylib) (uids : list string) (origpastuids : pyval) :
  pure (unlearnt L uids origpastuids).
Proof.
  induction uids as [| u rest IH]; intros w r w'; cbn [unlearnt].
  - intros [= <- <-]. done.
  - destruct (py_int L u); [| intros [= <- <-]; done].
    destruct (py_contains_int origpastuids z); [| intros [= <- <-]; done].
    unfold bind. destruct (unlearnt L rest origpastuids w) as [[a | e | c] w1] eqn:E;
      apply IH in E as ->; intros [= <- <-]; done.
Qed.

(** What the filter of the learn folders lets through. *)
Lemma unlearnt_spec (L : pylib) (found : list string) (seen : list pyval) :
  ∀ (uids : list string) (w w' : world),
    unlearnt L found (PList seen) w = (Ret uids, w') →
    (∀ u, u ∈ uids → u ∈ found ∧ ∃ n, py_int L u = Some n ∧ int_seen_in seen n = false)
    ∧ (∀ u, u ∈ found →
         ∃ n, py_int L u = Some n ∧ (int_seen_in seen n = true ∨ u ∈ uids)).
Proof.
  induction found as [| v rest IH]; intros uids w w'; cbn [unlearnt].
  - intros [= <- <-]. split; intros u Hu; by apply elem_of_nil in Hu.
  - destruct (py_int L v) as [n |] eqn:Hn; [| discriminate]. cbn [py_contains_int].
    fold (int_seen_in seen n). intros H.
    apply bind_ret_inv in H as (uids' & w1 & Hrest & H).
    apply ret_inv in H as [<- _]. apply IH in Hrest as [IH1 IH2]. split.
    + intros u Hu. destruct (int_seen_in seen n) eqn:Hs.
      * destruct (IH1 u Hu) as [? ?]. split; [by right | done].
      * apply elem_of_cons in Hu as [-> | Hu].
        -- split; [by left | eauto].
        -- destruct (IH1 u Hu) as [? ?]. split; [by right | done].
    + intros u [-> | Hu]%elem_of_cons.
      * exists n. split; [done |]. destruct (int_seen_in seen n); [by left | right].
        by left.
      * destruct (IH2 u Hu) as (m & Hm & [Hs | Hin]); exists m; (split; [done |]).
        -- by left.
        -- right. destruct (int_seen_in seen n); [done | by right].
Qed.

Lemma learn_body_effect (L : pylib) (P : peers) (py_strip : string → string)
    (self : isbg) (lt : learntype) (u : string) (st : learnst) (w w' : world)
    (r : outcome learnst) :
  learn_body L P py_strip self lt u st w = (r, w') →
  fs w' = fs w
  ∧ fetches (trace w') = (fetches (trace w) ++ [u])%list
  ∧ ∀ st', r = Ret st' →
      n_learnt st ≤ n_learnt st' ≤ n_learnt st + 1
      ∧ ((learnt_uids st' = learnt_uids st ∧ dryrun self = false)
         ∨ ∃ id, py_int L u = Some id
                 ∧ learnt_uids st' = (learnt_uids st ++ [id])%list).
Proof.
  unfold learn_body. unfold bind at 1.
  destruct (ISBGImap.getmessage L P u w) as [[body | e | c] w1] eqn:Hget;
    apply getmessage_effect in Hget as [Hfs Hfetch];
    try (intros [= <- <-]; split; [done |]; split; [done |]; intros ? [=]).
  cbn zeta. intros H.
  assert (Hq : ∀ body',
             quiet (t <-- teach P self lt body' ;;
                    match t with
                    | None => ret st
                    | Some (out, code) =>
                        (if (code =? 69) || (code =? 74)
                         then errorexit "spamd is misconfigured (use --allow-tell)"
                                exitcodeflags
                         else ret tt) ;;;
                        id <-- match py_int L u with
                               | Some id => ret id
                               | None => raise ValueError
                               end ;;
                        dispose L P self lt u ;;;
                        ret (LearnSt (learnt_uids st ++ [id])
                               (if String.eqb (py_strip out) alreadylearnt
                                then n_learnt st else n_learnt st + 1))
                    end)).
  { intros. pose proof (quiet_teach P). pose proof (quiet_dispose L P). quiet_auto. }
  destruct (Hq _ _ _ _ H) as [H1 H2].
  split; [congruence |]. split; [congruence |].
  intros st' ->. apply bind_ret_inv in H as (t & wt & Ht & H).
  apply teach_ret in Ht as [_ Hnone].
  destruct t as [[out code] |].
  - inv_run; cbn; (split; [case_match; lia |]); right; eauto.
  - apply ret_inv in H as [<- _]. split; [lia |]. left. by split; [| apply Hnone].
Qed.

Lemma learn_body_dry (L : pylib) (P : peers) (py_strip : string → string)
    (self : isbg) (lt : learntype) (u : string) (st st' : learnst) (w w' : world) :
  dryrun self = true →
  py_strip alreadylearnt = alreadylearnt →
  learn_body L P py_strip self lt u st w = (Ret st', w') →
  n_learnt st' = n_learnt st
  ∧ ∃ id, py_int L u = Some id ∧ learnt_uids st' = (learnt_uids st ++ [id])%list.
Proof.
  intros Hd Hstrip H. unfold learn_body in H.
  apply bind_ret_inv in H as (body & wg & _ & H). cbn zeta in H.
  apply bind_ret_inv in H as (t & wt & Ht & H).
  apply teach_ret in Ht as [Hdry _]. rewrite (Hdry Hd) in H.
  inv_run. cbn. rewrite Hstrip, String.eqb_refl. eauto.
Qed.

Lemma learn_loop_effect (L : pylib) (P : peers) (py_strip : string → string)
    (self : isbg) (lt : learntype) (uids : list string) :
  ∀ (st : learnst) (w w' : world) (r : outcome learnst),
    learn_loop L P py_strip self lt uids st w = (r, w') →
    fs w' = fs w
    ∧ ∃ fetched,
        fetched `prefix_of` uids
        ∧ fetches (trace w') = (fetches (trace w) ++ fetched)%list
        ∧ ∀ st', r = Ret st' →
            fetched = uids
            ∧ n_learnt st ≤ n_learnt st' ≤ n_learnt st + Z.of_nat (length uids)
            ∧ ∃ recorded,
                learnt_uids st' = (learnt_uids st ++ recorded)%list
                ∧ (∀ n, n ∈ recorded → ∃ u, u ∈ uids ∧ py_int L u = Some n)
                ∧ (dryrun self = true →
                   ∀ u, u ∈ uids → ∃ n, py_int L u = Some n ∧ n ∈ recorded)
                ∧ (dryrun self = true → py_strip alreadylearnt = alreadylearnt →
                   n_learnt st' = n_learnt st).
Proof.
  induction uids as [| u rest IH]; intros st w w' r; cbn [learn_loop].
  - intros [= <- <-]. split; [done |]. exists [].
    split; [done |]. split; [by rewrite app_nil_r |].
    intros st' [= <-]. split; [done |]. split; [cbn; lia |]. exists [].
    split; [by rewrite app_nil_r |]. split; [intros n Hn; by apply elem_of_nil in Hn |].
    split; [| done]. intros _ u Hu. by apply elem_of_nil in Hu.
  - unfold bind.
    destruct (learn_body L P py_strip self lt u st w) as [[st1 | e | c] w1] eqn:Hbody.
    + pose proof Hbody as Hdry.
      apply learn_body_effect in Hbody as (Hfs & Hfetch & Hst).
      destruct (Hst st1 eq_refl) as [Hn Hrec].
      intros (Hfs' & fetched & Hpre & Hfetch' & Hst')%IH.
      split; [congruence |]. exists (u :: fetched).
      split; [by apply prefix_cons |].
      split; [rewrite Hfetch', Hfetch, <- app_assoc; done |].
      intros st' ->.
      destruct (Hst' st' eq_refl) as (-> & Hn' & recorded & Hl & Hsrc & Hcover & Hsame).
      split; [done |]. split; [cbn [length]; lia |].
      destruct Hrec as [[Hkept Hnd] | (id & Hid & Hl1)].
      * exists recorded. split; [by rewrite Hl, Hkept |].
        split; [intros n (v & ? & ?)%Hsrc; exists v; split; [by right | done] |].
        split; intros Hd; congruence.
      * exists (id :: recorded).
        split; [by rewrite Hl, Hl1, <- app_assoc |].
        split; [| split].
        -- intros n [-> | (v & ? & ?)%Hsrc]%elem_of_cons;
             [exists u; split; [by left | done] | exists v; split; [by right | done]].
        -- intros Hd v [-> | Hv]%elem_of_cons.
           ++ exists id. split; [done | by left].
           ++ destruct (Hcover Hd v Hv) as (n & ? & ?).
              exists n. split; [done | by right].
        -- intros Hd Hstrip.
           destruct (learn_body_dry _ _ _ _ _ _ _ _ _ _ Hd Hstrip Hdry) as [Hn1 _].
           rewrite (Hsame Hd Hstrip). exact Hn1.
    + apply learn_body_effect in Hbody as (Hfs & Hfetch & _).
      intros [= <- <-]. split; [done |]. exists [u].
      split; [by exists rest |]. split; [done |]. intros ? [=].
    + apply learn_body_effect in Hbody as (Hfs & Hfetch & _).
      intros [= <- <-]. split; [done |]. exists [u].
      split; [by exists rest |]. split; [done |]. intros ? [=].
Qed.

Lemma quiet_learn_candidates (L : pylib) (P : peers) (self : isbg) (lt : learntype)
    (inbox : string) :
  quiet (learn_candidates L P self lt inbox).
Proof.
  unfold learn_candidates.
  pose proof (quiet_select L P). pose proof (quiet_get_uidvalidity L P).
  pose proof (quiet_search P).
  pose proof (λ uv f, pure_quiet _ (pure_pastuid_read self uv f)).
  pose proof (λ l c, pure_quiet _ (pure_unlearnt L l c)).
  quiet_auto.
Qed.

Lemma writes_only_learn_folder (L : pylib) (P : peers) (py_strip : string → string)
    (self : isbg) (lt : learntype) :
  writes_only (track_file self (lt_learntype lt)) (learn_folder L P py_strip self lt).
Proof.
  unfold learn_folder.
  destruct (lt_inbox lt) as [inbox |]; [| apply writes_only_quiet, quiet_ret].
  destruct (String.eqb inbox ""); [apply writes_only_quiet, quiet_ret |].
  apply writes_only_bind; [| intros [[[[? ?] ?] ?] ?]; apply writes_only_quiet, quiet_ret].
  unfold learn_pass.
  apply writes_only_bind; [apply writes_only_quiet, quiet_learn_candidates |].
  intros [[[uv orig] found] uids].
  apply writes_only_bind.
  { apply writes_only_of_fs. intros w r w' H. by apply learn_loop_effect in H as [? _]. }
  intros st. apply writes_only_bind; [apply writes_only_pastuid_write |].
  intros _. apply writes_only_quiet, quiet_ret.
Qed.

Lemma writes_only_learn_all (L : pylib) (P : peers) (py_strip : string → string)
    (self : isbg) (mine : string → Prop) (todo : list learntype) :
  (∀ lt path, lt ∈ todo → track_file self (lt_learntype lt) path → mine path) →
  writes_only mine (learn_all L P py_strip self todo).
Proof.
  induction todo as [| lt todo IH]; intros Hmine; cbn [learn_all].
  - apply writes_only_quiet, quiet_ret.
  - apply writes_only_bind.
    + eapply writes_only_weaken; [| apply writes_only_learn_folder].
      intros path. apply Hmine. by left.
    + intros r. apply writes_only_bind.
      * apply IH. intros lt' path Hin. apply Hmine. by right.
      * intros result. apply writes_only_quiet, quiet_ret.
Qed.

(** X17: [spamlearn] touches no file but the track files of the spam and
    the ham learn folder, however it ends: the seen uids of the inbox are as
    before. *)
Theorem spamlearn_writes_learn_tracks_only (L : pylib) (P : peers)
    (py_strip : string → string) (self : isbg) :
  writes_only (λ path, track_file self "spam" path ∨ track_file self "ham" path)
    (spamlearn L P py_strip self).
Proof.
  unfold spamlearn, learns. apply writes_only_learn_all.
  intros lt path [-> | [-> | []%elem_of_nil]%elem_of_cons]%elem_of_cons; cbn; tauto.
Qed.

Lemma pastuid_read_fs (self : isbg) (uidvalidity : Z) (folder : string)
    (w w' : world) (v : pyval) :
  fs w' = fs w →
  pastuid_read self uidvalidity folder w = (Ret v, w) →
  pastuid_read self uidvalidity folder w' = (Ret v, w').
Proof.
  unfold pastuid_read, try_except, bind, read_file, py_getitem, ret, raise.
  intros Hfs. destruct (pastuidsfile self); [| by intros [= <-]].
  rewrite Hfs. repeat case_match; simplify_eq; intros; simplify_eq; try done.
  all: congruence.
Qed.

Lemma learn_candidates_inv (L : pylib) (P : peers) (self : isbg) (lt : learntype)
    (inbox : string) (w w' : world) (uidvalidity : Z) (origpastuids : pyval)
    (found uids : list string) :
  learn_candidates L P self lt inbox w
    = (Ret (uidvalidity, origpastuids, found, uids), w') →
  fs w' = fs w
  ∧ fetches (trace w') = fetches (trace w)
  ∧ pastuid_read self uidvalidity (lt_learntype lt) w' = (Ret origpastuids, w')
  ∧ unlearnt L found origpastuids w' = (Ret uids, w').
Proof.
  intros H. destruct (quiet_learn_candidates L P self lt inbox _ _ _ H) as [Hfs Hfetch].
  do 2 (split; [assumption |]). clear Hfetch.
  unfold learn_candidates in H.
  apply bind_ret_inv in H as (uv & w1 & Huv & H).
  apply bind_ret_inv in H as (orig & w2 & Hread & H).
  apply bind_ret_inv in H as (sel & w3 & Hsel & H).
  apply bind_ret_inv in H as (res & w4 & Hres & H).
  apply bind_ret_inv in H as (found' & w5 & Hfound & H).
  apply bind_ret_inv in H as (uids' & w6 & Hun & H).
  apply ret_inv in H as [? ?]. simplify_eq.
  pose proof (pure_unlearnt _ _ _ _ _ _ Hun). subst w5.
  split; [| exact Hun].
  destruct (pastuid_read_total self uidvalidity (lt_learntype lt) w1) as [v Hv].
  pose proof (pure_pastuid_read _ _ _ _ _ _ Hread). subst w2.
  rewrite Hv in Hread. injection Hread as ->.
  apply (pastuid_read_fs self uidvalidity (lt_learntype lt) w1); [| exact Hv].
  destruct (quiet_get_uidvalidity L P inbox _ _ _ Huv) as [Hfs1 _]. congruence.
Qed.

Lemma learn_pass_inv (L : pylib) (P : peers) (py_strip : string → string)
    (self : isbg) (lt : learntype) (inbox : string) (w w' : world)
    (uidvalidity : Z) (origpastuids : pyval) (found uids : list string)
    (st : learnst) :
  learn_pass L P py_strip self lt inbox w
    = (Ret (uidvalidity, origpastuids, found, uids, st), w') →
  ∃ wa wb,
    learn_candidates L P self lt inbox w
      = (Ret (uidvalidity, origpastuids, found, uids), wa)
    ∧ learn_loop L P py_strip self lt uids (LearnSt [] 0) wa = (Ret st, wb)
    ∧ pastuid_write L self uidvalidity origpastuids (pyint <$> learnt_uids st)
        (lt_learntype lt) wb = (Ret tt, w').
Proof.
  unfold learn_pass. intros H.
  apply bind_ret_inv in H as ([[[uv orig] found'] uids'] & wa & Hc & H).
  apply bind_ret_inv in H as (st' & wb & Hl & H).
  apply bind_ret_inv in H as ([] & wc & Hw & H).
  apply ret_inv in H as [? ?]. simplify_eq. eauto.
Qed.

Lemma learn_folder_counts (L : pylib) (P : peers) (py_strip : string → string)
    (self : isbg) (lt : learntype) (w w' : world) (a b : Z) :
  learn_folder L P py_strip self lt w = (Ret (a, b), w') → 0 ≤ b ≤ a.
Proof.
  unfold learn_folder. destruct (lt_inbox lt) as [inbox |];
    [destruct (String.eqb inbox "") |];
    try (intros [[= <- <-] _]%ret_inv; lia).
  intros H. apply bind_ret_inv in H as ([[[[uv orig] found] uids] st] & w1 & Hpass & H).
  apply ret_inv in H as [[= <- <-] _].
  apply learn_pass_inv in Hpass as (wa & wb & _ & Hloop & _).
  apply learn_loop_effect in Hloop as (_ & fetched & _ & _ & Hst).
  destruct (Hst st eq_refl) as (_ & Hn & _). cbn in Hn. lia.
Qed.

(** X18: [spamlearn] returns one pair [(n_tolearn, n_learnt)] for the spam
    learn folder and one for the ham learn folder, in this order, and in each
    the number of learnt messages is at most the number of messages to
    learn. *)
Theorem spamlearn_counts (L : pylib) (P : peers) (py_strip : string → string)
    (self : isbg) (w w' : world) (result : list (Z * Z)) :
  spamlearn L P py_strip self w = (Ret result, w') →
  ∃ spam_tolearn spam_learnt ham_tolearn ham_learnt,
    result = [(spam_tolearn, spam_learnt); (ham_tolearn, ham_learnt)]
    ∧ 0 ≤ spam_learnt ≤ spam_tolearn
    ∧ 0 ≤ ham_learnt ≤ ham_tolearn.
Proof.
  unfold spamlearn, learns. cbn [learn_all]. intros H.
  apply bind_ret_inv in H as ([a b] & w1 & Hspam & H).
  apply bind_ret_inv in H as (rest & w2 & H & Hret).
  apply ret_inv in Hret as [<- _].
  apply bind_ret_inv in H as ([c d] & w3 & Hham & H).
  apply bind_ret_inv in H as (rest' & w4 & Hnil & Hret).
  apply ret_inv in Hret as [<- _]. apply ret_inv in Hnil as [<- _].
  apply learn_folder_counts in Hspam, Hham. by exists a, b, c, d.
Qed.

Lemma spamlearn_counts_witness :
  ∃ spam_tolearn spam_learnt ham_tolearn ham_learnt,
    [(3, 1); (0, 0)] = [(spam_tolearn, spam_learnt); (ham_tolearn, ham_learnt)]
    ∧ 0 ≤ spam_learnt ≤ spam_tolearn
    ∧ 0 ≤ ham_learnt ≤ ham_tolearn.
Proof.
  eapply (spamlearn_counts Concrete.lib Concrete.school Concrete.strip
            (Concrete.learn_config false) Concrete.empty_world
            (spamlearn Concrete.lib Concrete.school Concrete.strip
               (Concrete.learn_config false) Concrete.empty_world).2).
  vm_compute. reflexivity.
Defined.

(** X19: when neither learn folder is set (unset or the empty name),
    [spamlearn] returns [(0, 0)] twice and does nothing: no command is sent,
    no process started, no file touched. *)
Theorem spamlearn_nothing_configured (L : pylib) (P : peers)
    (py_strip : string → string) (self : isbg) (w : world) :
  no_folder (learnspambox self) →
  no_folder (learnhambox self) →
  spamlearn L P py_strip self w = (Ret [(0, 0); (0, 0)], w).
Proof.
  intros Hspam Hham. unfold spamlearn, learns. cbn [learn_all].
  unfold learn_folder. cbn [lt_inbox].
  destruct Hspam as [-> | ->], Hham as [-> | ->]; reflexivity.
Qed.

Lemma spamlearn_nothing_configured_witness :
  spamlearn Concrete.lib Concrete.school Concrete.strip
    (Concrete.config 0 false false None []) Concrete.empty_world
  = (Ret [(0, 0); (0, 0)], Concrete.empty_world).
Proof.
  apply (spamlearn_nothing_configured Concrete.lib Concrete.school Concrete.strip
           (Concrete.config 0 false false None []) Concrete.empty_world).
  - left. reflexivity.
  - left. reflexivity.
Defined.

Lemma emits_learn_candidates (L : pylib) (P : peers) (self : isbg) (lt : learntype)
    (inbox : string) :
  emits read_only (learn_candidates L P self lt inbox).
Proof.
  unfold learn_candidates, ISBGImap.search.
  pose proof (emits_select L P). pose proof (emits_get_uidvalidity L P).
  pose proof (λ uv f, emits_pure read_only _ (pure_pastuid_read self uv f)).
  pose proof (λ l c, emits_pure read_only _ (pure_unlearnt L l c)).
  emits_auto.
Qed.

Lemma emits_learn_loop_dry (L : pylib) (P : peers) (py_strip : string → string)
    (self : isbg) (lt : learntype) (uids : list string) :
  dryrun self = true →
  ∀ st, emits read_only (learn_loop L P py_strip self lt uids st).
Proof.
  intros Hd. induction uids as [| u rest IH]; intros st; cbn [learn_loop];
    [apply emits_ret |].
  apply emits_bind; [| intros st'; apply IH].
  unfold learn_body, teach, dispose. rewrite Hd. cbn [negb].
  pose proof (emits_getmessage L P). emits_auto.
Qed.

Lemma emits_learn_all_dry (L : pylib) (P : peers) (py_strip : string → string)
    (self : isbg) (todo : list learntype) :
  dryrun self = true →
  emits read_only (learn_all L P py_strip self todo).
Proof.
  intros Hd. induction todo as [| lt todo IH]; cbn [learn_all]; [apply emits_ret |].
  apply emits_bind; [| intros r; apply emits_bind; [exact IH | intros ?; apply emits_ret]].
  unfold learn_folder.
  destruct (lt_inbox lt) as [inbox |]; [| apply emits_ret].
  destruct (String.eqb inbox ""); [apply emits_ret |].
  apply emits_bind; [| intros [[[[? ?] ?] ?] ?]; apply emits_ret].
  unfold learn_pass.
  apply emits_bind; [apply emits_learn_candidates | intros [[[? ?] ?] ?]].
  apply emits_bind; [by apply emits_learn_loop_dry | intros ?].
  apply emits_bind; [apply emits_pastuid_write | intros ?; apply emits_ret].
Qed.

(** X20: a dry run of [spamlearn] changes nothing on the server and starts
    no teaching process: whatever the server answers and however the run
    ends, it sends only STATUS, SELECT, SEARCH and FETCH; no message is
    copied, flagged or marked deleted. *)
Theorem learn_dry_run_is_read_only (L : pylib) (P : peers)
    (py_strip : string → string) (self : isbg) :
  dryrun self = true → emits read_only (spamlearn L P py_strip self).
Proof. intros Hd. unfold spamlearn. by apply emits_learn_all_dry. Qed.

Lemma learn_dry_run_is_read_only_witness :
  emits read_only
    (spamlearn Concrete.lib Concrete.school Concrete.strip (Concrete.learn_config true)).
Proof. apply learn_dry_run_is_read_only. reflexivity. Defined.

Lemma learn_loop_app (L : pylib) (P : peers) (py_strip : string → string)
    (self : isbg) (lt : learntype) (pre rest : list string) :
  ∀ (st st1 : learnst) (w w1 : world),
    learn_loop L P py_strip self lt pre st w = (Ret st1, w1) →
    learn_loop L P py_strip self lt (pre ++ rest) st w
    = learn_loop L P py_strip self lt rest st1 w1.
Proof.
  induction pre as [| u pre IH]; intros st st1 w w1; cbn [learn_loop app].
  - intros [= <- <-]. done.
  - intros H. apply bind_ret_inv in H as (st' & w' & Hbody & H).
    rewrite (bind_ret_eq _ _ _ _ _ Hbody). by apply IH.
Qed.

(** X21: outside a dry run, when the teaching process ends with exit code 69
    or 74 on a message of a learn folder, the run ends there with exit status
    10: the messages after it are not fetched and the seen uids of the folder
    are not written, so the messages learnt before it in this run are not
    recorded. *)
Theorem misconfigured_spamd_aborts (L : pylib) (P : peers)
    (py_strip : string → string) (self : isbg) (lt : learntype) (inbox : string)
    (w0 wa wb wc : world) (uidvalidity : Z) (origpastuids : pyval)
    (found pre post : list string) (u body out : string) (code : Z) (st : learnst) :
  dryrun self = false →
  lt_inbox lt = Some inbox →
  inbox ≠ "" →
  learn_candidates L P self lt inbox w0
    = (Ret (uidvalidity, origpastuids, found, (pre ++ u :: post)%list), wa) →
  learn_loop L P py_strip self lt pre (LearnSt [] 0) wa = (Ret st, wb) →
  ISBGImap.getmessage L P u wb = (Ret body, wc) →
  run_process P (trace wc ++ [Spawn ["spamc"; ("--learntype=" ++ lt_learntype lt)%string]
                                match unwrap L body with
                                | Some (first :: _) => first
                                | _ => body
                                end])%list
    = Exited out code →
  code = 69 ∨ code = 74 →
  ∃ w', learn_folder L P py_strip self lt w0 = (SysExit 10, w')
        ∧ fetches (trace w') = (fetches (trace w0) ++ pre ++ [u])%list
        ∧ fs w' = fs w0.
Proof.
  intros Hd Hinbox Hname Hc Hpre Hget Hproc Hcode.
  set (body' := match unwrap L body with Some (first :: _) => first | _ => body end) in *.
  set (w' := World (fs wc)
               (trace wc ++ [Spawn ["spamc"; ("--learntype=" ++ lt_learntype lt)%string]
                               body';
                             Stderr "spamd is misconfigured (use --allow-tell)";
                             Stderr "
Use --help to see valid options and arguments
"])%list).
  assert (Hbody : learn_body L P py_strip self lt u st wb = (SysExit 10, w')).
  { unfold learn_body. rewrite (bind_ret_eq _ _ _ _ _ Hget). cbn zeta. fold body'.
    unfold teach. rewrite Hd. unfold bind at 1. unfold bind at 1.
    unfold popen. cbn beta iota zeta. cbn [trace]. rewrite Hproc.
    apply bind_exit_eq.
    assert ((code =? 69) || (code =? 74) = true) as -> by (destruct Hcode as [-> | ->]; done).
    unfold errorexit, exitcodeflags, bind, emit, sys_exit. cbn.
    unfold w'. rewrite <- !app_assoc. reflexivity. }
  exists w'. split; [| split].
  - unfold learn_folder. rewrite Hinbox.
    apply String.eqb_neq in Hname. rewrite Hname.
    apply bind_exit_eq. unfold learn_pass.
    rewrite (bind_ret_eq _ _ _ _ _ Hc). cbn beta iota. apply bind_exit_eq.
    rewrite (learn_loop_app L P py_strip self lt pre (u :: post) _ _ _ _ Hpre).
    cbn [learn_loop]. by apply bind_exit_eq.
  - apply learn_candidates_inv in Hc as (_ & Hfa & _).
    apply learn_loop_effect in Hpre as (_ & fetched & _ & Hfb & Hst).
    destruct (Hst st eq_refl) as [-> _].
    apply getmessage_effect in Hget as [_ Hfc].
    unfold w'. cbn. unfold fetches in *. rewrite omap_app. cbn.
    rewrite app_nil_r, Hfc, Hfb, Hfa, <- app_assoc. done.
  - apply learn_candidates_inv in Hc as (Hfa & _).
    apply learn_loop_effect in Hpre as (Hfb & _).
    apply getmessage_effect in Hget as [Hfc _]. cbn. congruence.
Qed.

Lemma misconfigured_spamd_aborts_witness :
  ∃ w', learn_folder Concrete.lib Concrete.strict_school Concrete.strip
          (Concrete.learn_config false)
          (LearnType (Some "INBOX.learnspam") "spam" None) Concrete.empty_world
        = (SysExit 10, w')
        ∧ fetches (trace w')
          = (fetches (trace Concrete.empty_world) ++ ["101"] ++ ["102"])%list
        ∧ fs w' = fs Concrete.empty_world.
Proof.
  eapply (misconfigured_spamd_aborts Concrete.lib Concrete.strict_school Concrete.strip
            (Concrete.learn_config false)
            (LearnType (Some "INBOX.learnspam") "spam" None) "INBOX.learnspam"
            Concrete.empty_world _ _ _ _ _ _ ["101"] ["103"] "102").
  - reflexivity.
  - reflexivity.
  - discriminate.
  - vm_compute; reflexivity.
  - vm_compute; reflexivity.
  - vm_compute; reflexivity.
  - vm_compute; reflexivity.
  - left. reflexivity.
Defined.

Lemma int_seen_in_spec (seen : list pyval) (n : Z) :
  int_seen_in seen n = true ↔ pyint n ∈ seen.
Proof.
  unfold int_seen_in. rewrite existsb_exists. split.
  - intros (v & Hv%list_elem_of_In & Heq).
    destruct v as [[| z | s] | l | d]; cbn in Heq; try done.
    apply Z.eqb_eq in Heq as ->. done.
  - intros H. exists (pyint n). split; [by apply list_elem_of_In |].
    cbn. apply Z.eqb_refl.
Qed.

Lemma elem_of_pyint_fmap (n : Z) (l : list Z) : pyint n ∈ pyint <$> l ↔ n ∈ l.
Proof.
  rewrite list_elem_of_fmap. split; [by intros (y & [= ->] & Hy) | eauto].
Qed.

(** X22: of two consecutive learn passes over the same learn folder, with
    no new message and the same uidvalidity, where the first got as far as
    writing its seen uids, no message the first pass recorded is a candidate
    of the second; and after a dry run, which records every candidate, the
    second pass has no candidate at all. *)
Theorem second_learn_pass_skips_learnt (L : pylib) (P : peers)
    (py_strip : string → string) (self : isbg) (lt : learntype) (inbox : string)
    (w0 w1 w2 w3 : world) (uidvalidity : Z) (orig1 orig2 : pyval)
    (found1 found2 uids1 uids2 : list string) (st : learnst) :
  learn_pass L P py_strip self lt inbox w0
    = (Ret (uidvalidity, orig1, found1, uids1, st), w1) →
  fs w2 = fs w1 →
  learn_candidates L P self lt inbox w2 = (Ret (uidvalidity, orig2, found2, uids2), w3) →
  found2 ⊆ found1 →
  (∀ u n, py_int L u = Some n → n ∈ learnt_uids st → u ∉ uids2)
  ∧ (dryrun self = true → uids2 = []).
Proof.
  intros (wa & wb & Hc1 & Hloop & Hwrite)%learn_pass_inv Hfs Hc2 Hsub.
  apply learn_candidates_inv in Hc1 as (_ & _ & _ & Hun1).
  apply learn_loop_effect in Hloop as (_ & fetched & _ & _ & Hst).
  destruct (Hst st eq_refl) as (_ & _ & recorded & Hrec & _ & Hcover & _).
  cbn in Hrec.
  apply pastuid_write_inv in Hwrite
    as (name & seen1 & members & Hname & -> & Hmem & _ & Hfile).
  apply learn_candidates_inv in Hc2 as (Hfs3 & _ & Hread2 & Hun2).
  rewrite (pastuid_read_current self uidvalidity (lt_learntype lt) name _ w3 Hname)
    in Hread2 by (rewrite Hfs3, Hfs; exact Hfile).
  injection Hread2 as <-.
  apply unlearnt_spec in Hun1 as [_ Hfound1].
  apply unlearnt_spec in Hun2 as [Huids2 _].
  assert (Hseen : ∀ n, int_seen_in (PAtom <$> set_iter L members) n = true
                       ↔ n ∈ learnt_uids st ∨ int_seen_in seen1 n = true).
  { intros n. rewrite !int_seen_in_spec. unfold pyint at 1.
    rewrite elem_of_PAtom_fmap, set_iter_elem, <- elem_of_PAtom_fmap, <- Hmem, elem_of_app.
    change (PAtom (AInt n)) with (pyint n). by rewrite elem_of_pyint_fmap. }
  split.
  - intros u n Hint Hin Hu.
    destruct (Huids2 u Hu) as (_ & m & Hm & Hs).
    assert (m = n) as -> by congruence.
    assert (int_seen_in (PAtom <$> set_iter L members) n = true) by (apply Hseen; by left).
    congruence.
  - intros Hd. destruct uids2 as [| u rest]; [done | exfalso].
    destruct (Huids2 u (list_elem_of_here _ _)) as (Hf2 & n & Hn & Hs).
    destruct (Hfound1 u (Hsub u Hf2)) as (m & Hm & Hcase).
    assert (m = n) as -> by congruence.
    assert (int_seen_in (PAtom <$> set_iter L members) n = true); [| congruence].
    apply Hseen. destruct Hcase as [Hs1 | Hu1]; [by right | left].
    destruct (Hcover Hd u Hu1) as (k & Hk & Hin).
    assert (k = n) as -> by congruence. by rewrite Hrec.
Qed.

Lemma second_learn_pass_skips_learnt_witness :
  ∃ w1 st seen w3,
    learn_pass Concrete.lib Concrete.school Concrete.strip (Concrete.learn_config true)
      (LearnType (Some "INBOX.learnspam") "spam" None) "INBOX.learnspam"
      Concrete.empty_world
    = (Ret (7, PList [], ["101"; "102"; "103"], ["101"; "102"; "103"], st), w1)
    ∧ learn_candidates Concrete.lib Concrete.school (Concrete.learn_config true)
        (LearnType (Some "INBOX.learnspam") "spam" None) "INBOX.learnspam" w1
      = (Ret (7, seen, ["101"; "102"; "103"], []), w3)
    ∧ (∀ u n, py_int Concrete.lib u = Some n → n ∈ learnt_uids st → u ∉ @nil string)
    ∧ (true = true → @nil string = []).
Proof.
  eexists _, _, _, _.
  split; [vm_compute; reflexivity |]. split; [vm_compute; reflexivity |].
  eapply (second_learn_pass_skips_learnt Concrete.lib Concrete.school Concrete.strip
            (Concrete.learn_config true)
            (LearnType (Some "INBOX.learnspam") "spam" None) "INBOX.learnspam"
            Concrete.empty_world
            (learn_pass Concrete.lib Concrete.school Concrete.strip
               (Concrete.learn_config true)
               (LearnType (Some "INBOX.learnspam") "spam" None) "INBOX.learnspam"
               Concrete.empty_world).2
            (learn_pass Concrete.lib Concrete.school Concrete.strip
               (Concrete.learn_config true)
               (LearnType (Some "INBOX.learnspam") "spam" None) "INBOX.learnspam"
               Concrete.empty_world).2
            _ 7 (PList []) _ ["101"; "102"; "103"] ["101"; "102"; "103"]
            ["101"; "102"; "103"]).
  - vm_compute; reflexivity.
  - reflexivity.
  - vm_compute; reflexivity.
  - done.
Defined.
